(** * Library management system

    A shallow embedding of the borrowing workflow of [app.py] and of the
    database access layer of [db_connection.py], followed by the properties
    of the specification that concern them.

    The relational database and the MySQL driver are external to the
    repository.  The tables are modelled as lists of rows, each SQL text the
    program sends as a function on the tables, and the behaviour of the
    driver that the program cannot control (whether a connection attempt
    succeeds, whether a statement hits a database error) as a script carried
    by the state of the world. *)

From Stdlib Require Import ZArith List String Bool Lia DecimalString.
Import ListNotations.
Local Open Scope string_scope.
Local Open Scope Z_scope.

Set Implicit Arguments.

(** ** Python values *)

(** Python's truth-value testing, used by every [if x:] of the program. *)
Class Truthy (A : Type) := truthy : A -> bool.

#[export] Instance Truthy_bool : Truthy bool := fun b => b.
#[export] Instance Truthy_int : Truthy Z := fun z => negb (z =? 0).
#[export] Instance Truthy_str : Truthy string :=
  fun s => match s with EmptyString => false | _ => true end.
#[export] Instance Truthy_list {A} : Truthy (list A) :=
  fun l => match l with [] => false | _ => true end.
(** [None] is false; any other object answers for itself. *)
#[export] Instance Truthy_optional {A} `{Truthy A} : Truthy (option A) :=
  fun o => match o with None => false | Some a => truthy a end.

(** [str(n)] of an integer, as an f-string formats it. *)
Definition str (n : Z) : string := NilZero.string_of_int (Z.to_int n).

(** [needle in haystack] on strings. *)
Fixpoint contains (needle haystack : string) : bool :=
  prefix needle haystack ||
  match haystack with
  | EmptyString => false
  | String _ rest => contains needle rest
  end.

(** A [dict] with string keys, in insertion order: assigning to a key that
    is present replaces its value and keeps its position. *)
Fixpoint dict_set {V} (d : list (string * V)) (k : string) (v : V)
  : list (string * V) :=
  match d with
  | [] => [(k, v)]
  | (k', v') :: d' =>
      if String.eqb k' k then (k', v) :: d' else (k', v') :: dict_set d' k v
  end.

Fixpoint dict_get {V} (d : list (string * V)) (k : string) : option V :=
  match d with
  | [] => None
  | (k', v) :: d' => if String.eqb k' k then Some v else dict_get d' k
  end.

Definition keys {V} (d : list (string * V)) : list string := map fst d.

(** [{label(x): value(x) for x in rows}] *)
Definition dict_of {A V} (label : A -> string) (value : A -> V)
  (rows : list A) : list (string * V) :=
  fold_left (fun d x => dict_set d (label x) (value x)) rows [].

(** ** The schema ([initialize_database], db_connection.py) *)

(** A [DATE], as a day number. *)
Definition Date := Z.

(** Range of a MySQL [INT] column. *)
Definition INT_MIN : Z := - 2 ^ 31.
Definition INT_MAX : Z := 2 ^ 31 - 1.
Definition is_INT (v : Z) : bool := (INT_MIN <=? v) && (v <=? INT_MAX).

(** Columns are named as in the DDL; [option] marks a nullable column that
    some statement of the program leaves or reads as NULL.  The timestamp
    columns are maintained by the server and read by no statement. *)
Module Books.
Record row := mk {
  BookID : Z;
  Title : string;
  Author : string;
  PublishedYear : option Z;
  AvailableCopies : Z;
  Genre : option string;
  ISBN : option string;
  Description : option string
}.
End Books.

Inductive MemberStatus := Active | Inactive | Suspended.

Module Members.
Record row := mk {
  MemberID : Z;
  Name : string;
  Email : string;
  PhoneNumber : option string;
  Address : option string;
  JoinDate : Date;
  Status : MemberStatus
}.
End Members.

Inductive BorrowingStatus := Borrowed | Returned | Overdue.

Module Borrowing.
Record row := mk {
  BorrowID : Z;
  MemberID : Z;
  BookID : Z;
  BorrowDate : Date;
  DueDate : option Date;
  ReturnDate : option Date
}.

(** The generated column [Status]. *)
Definition Status (CURRENT_DATE : Date) (r : row) : BorrowingStatus :=
  match ReturnDate r with
  | Some _ => Returned
  | None =>
      match DueDate r with
      | Some due => if due <? CURRENT_DATE then Overdue else Borrowed
      | None => Borrowed
      end
  end.

Definition is_open (r : row) : bool :=
  match ReturnDate r with None => true | Some _ => false end.
End Borrowing.

(** The three tables, with the next value of each AUTO_INCREMENT key. *)
Record DB := mkDB {
  books : list Books.row;
  members : list Members.row;
  borrowing : list Borrowing.row;
  next_BookID : Z;
  next_MemberID : Z;
  next_BorrowID : Z
}.

(** The tables as [initialize_database] leaves them. *)
Definition empty_db : DB := mkDB [] [] [] 1 1 1.

(** ** Database errors *)

(** [mysql.connector.Error]: an error reported by the server or the driver,
    with its number, or the one [get_connection] constructs itself. *)
Inductive Error :=
| MySQLError (errno : Z)
| UnableToEstablish.

Definition ER_DUP_ENTRY : Error := MySQLError 1062.
Definition ER_NO_REFERENCED_ROW : Error := MySQLError 1452.
Definition ER_WARN_DATA_OUT_OF_RANGE : Error := MySQLError 1264.
Definition CR_CONNECTION_NOT_AVAILABLE : Error := MySQLError 2055.

(** Outcome of code that may raise [Error]. *)
Inductive Res (A : Type) :=
| Ret (a : A)
| Raise (e : Error).
Arguments Ret {A} a.
Arguments Raise {A} e.

(** ** SQL statements *)

(** What the server answers to one statement: it rejects it and changes
    nothing, or it yields the tables after the statement, the rows of the
    result set and the affected-row count. *)
Inductive Reply (R : Type) :=
| Rejected (e : Error)
| Done (after : DB) (rows : list R) (rowcount : Z).
Arguments Rejected {R} e.
Arguments Done {R} after rows rowcount.

(** A statement with its parameters bound, as a function of CURRENT_DATE
    and the tables. *)
Definition Statement (R : Type) : Type := Date -> DB -> Reply R.

Definition select {R} (rows : DB -> list R) : Statement R :=
  fun _ db => Done db (rows db) (Z.of_nat (List.length (rows db))).

(** [ORDER BY], as a stable insertion sort on the key. *)
Fixpoint insert_by {A} (le : A -> A -> bool) (x : A) (l : list A) : list A :=
  match l with
  | [] => [x]
  | y :: l' => if le x y then x :: l else y :: insert_by le x l'
  end.

Definition order_by {A} (le : A -> A -> bool) (l : list A) : list A :=
  fold_right (insert_by le) [] l.

Definition sum (l : list Z) : Z := fold_right Z.add 0 l.

(** Row of the aggregate queries, which all name their column [count];
    [None] is SQL NULL. *)
Record CountRow := { count : option Z }.
#[export] Instance Truthy_CountRow : Truthy CountRow := fun _ => true.
#[export] Instance Truthy_Book : Truthy Books.row := fun _ => true.
#[export] Instance Truthy_Member : Truthy Members.row := fun _ => true.
#[export] Instance Truthy_Borrowing : Truthy Borrowing.row := fun _ => true.

(** The statements of app.py, each under its SQL text.  A SELECT yields
    whole rows, of which the callers read the selected columns.  Strings are
    compared and ordered code point by code point, where the server follows
    the collation of the connection; a key that a rejected INSERT would
    have taken is given to the next one. *)
Module Sql.

(** SELECT COUNT( * ) as count FROM Books *)
Definition count_books : Statement CountRow :=
  select (fun db =>
    [ {| count := Some (Z.of_nat (List.length (books db))) |} ]).

(** SELECT COUNT( * ) as count FROM Members *)
Definition count_members : Statement CountRow :=
  select (fun db =>
    [ {| count := Some (Z.of_nat (List.length (members db))) |} ]).

(** SELECT COUNT( * ) as count FROM Borrowing WHERE ReturnDate IS NULL *)
Definition count_open_borrowing : Statement CountRow :=
  select (fun db =>
    [ {| count := Some (Z.of_nat
           (List.length (filter Borrowing.is_open (borrowing db)))) |} ]).

(** SELECT SUM(AvailableCopies) as count FROM Books
    (SUM over no row is NULL) *)
Definition sum_available_copies : Statement CountRow :=
  select (fun db =>
    [ {| count := match books db with
                  | [] => None
                  | bs => Some (sum (map Books.AvailableCopies bs))
                  end |} ]).

(** SELECT BookID FROM Books WHERE Title = %s AND Author = %s *)
Definition select_book_by_title_author (title author : string)
  : Statement Books.row :=
  select (fun db =>
    filter (fun b => String.eqb (Books.Title b) title
                     && String.eqb (Books.Author b) author) (books db)).

(** INSERT INTO Books (Title, Author, PublishedYear, AvailableCopies)
    VALUES (%s, %s, %s, %s) *)
Definition insert_book (title author : string) (year copies : Z)
  : Statement Books.row :=
  fun _ db =>
    if is_INT year && is_INT copies then
      Done (mkDB (books db ++
                    [Books.mk (next_BookID db) title author (Some year)
                              copies None None None])
                 (members db) (borrowing db)
                 (next_BookID db + 1) (next_MemberID db) (next_BorrowID db))
           [] 1
    else Rejected ER_WARN_DATA_OUT_OF_RANGE.

(** INSERT INTO Members (Name, Email, PhoneNumber) VALUES (%s, %s, %s)
    (Email is UNIQUE) *)
Definition insert_member (name email : string) (phone : option string)
  : Statement Members.row :=
  fun today db =>
    if existsb (fun m => String.eqb (Members.Email m) email) (members db)
    then Rejected ER_DUP_ENTRY
    else
      Done (mkDB (books db)
                 (members db ++
                    [Members.mk (next_MemberID db) name email phone None
                                today Active])
                 (borrowing db)
                 (next_BookID db) (next_MemberID db + 1) (next_BorrowID db))
           [] 1.

(** SELECT MemberID, Name FROM Members ORDER BY Name *)
Definition select_members_by_name : Statement Members.row :=
  select (fun db =>
    order_by (fun m1 m2 => String.leb (Members.Name m1) (Members.Name m2))
             (members db)).

(** SELECT BookID, Title, Author, AvailableCopies FROM Books
    WHERE AvailableCopies > 0 ORDER BY Title *)
Definition select_available_books : Statement Books.row :=
  select (fun db =>
    order_by (fun b1 b2 => String.leb (Books.Title b1) (Books.Title b2))
             (filter (fun b => 0 <? Books.AvailableCopies b) (books db))).

(** SELECT BorrowID FROM Borrowing
    WHERE MemberID = %s AND BookID = %s AND ReturnDate IS NULL *)
Definition select_open_borrowing (member_id book_id : Z)
  : Statement Borrowing.row :=
  select (fun db =>
    filter (fun r => (Borrowing.MemberID r =? member_id)
                     && (Borrowing.BookID r =? book_id)
                     && Borrowing.is_open r) (borrowing db)).

(** INSERT INTO Borrowing (MemberID, BookID, BorrowDate)
    VALUES (%s, %s, CURRENT_DATE)
    (both references are foreign keys) *)
Definition insert_borrowing (member_id book_id : Z)
  : Statement Borrowing.row :=
  fun today db =>
    if existsb (fun m => Members.MemberID m =? member_id) (members db)
       && existsb (fun b => Books.BookID b =? book_id) (books db)
    then
      Done (mkDB (books db) (members db)
                 (borrowing db ++
                    [Borrowing.mk (next_BorrowID db) member_id book_id
                                  today None None])
                 (next_BookID db) (next_MemberID db) (next_BorrowID db + 1))
           [] 1
    else Rejected ER_NO_REFERENCED_ROW.

(** SET AvailableCopies = AvailableCopies + delta WHERE BookID = %s,
    on one row. *)
Definition add_copies (delta : Z) (book_id : Z) (b : Books.row) : Books.row :=
  if Books.BookID b =? book_id then
    Books.mk (Books.BookID b) (Books.Title b) (Books.Author b)
             (Books.PublishedYear b) (Books.AvailableCopies b + delta)
             (Books.Genre b) (Books.ISBN b) (Books.Description b)
  else b.

(** UPDATE Books SET AvailableCopies = AvailableCopies + delta
    WHERE BookID = %s
    (sql_mode is TRADITIONAL: a value outside INT is an error) *)
Definition update_available_copies (delta : Z) (book_id : Z)
  : Statement Books.row :=
  fun _ db =>
    let hit := filter (fun b => Books.BookID b =? book_id) (books db) in
    if forallb (fun b => is_INT (Books.AvailableCopies b + delta)) hit then
      Done (mkDB (map (add_copies delta book_id) (books db))
                 (members db) (borrowing db)
                 (next_BookID db) (next_MemberID db) (next_BorrowID db))
           [] (Z.of_nat (List.length hit))
    else Rejected ER_WARN_DATA_OUT_OF_RANGE.

(** UPDATE Books SET AvailableCopies = AvailableCopies - 1 WHERE BookID = %s *)
Definition decrement_available_copies := update_available_copies (-1).

(** UPDATE Books SET AvailableCopies = AvailableCopies + 1 WHERE BookID = %s *)
Definition increment_available_copies := update_available_copies 1.

(** Row of the list of the Return page. *)
Record BorrowedRow := {
  BorrowID : Z;
  MemberName : string;
  BookTitle : string;
  BorrowDate : Date;
  DaysBorrowed : Z
}.

(** SELECT b.BorrowID, m.Name as MemberName, bk.Title as BookTitle,
           b.BorrowDate, DATEDIFF(CURRENT_DATE, b.BorrowDate) as DaysBorrowed
    FROM Borrowing b
    JOIN Members m ON b.MemberID = m.MemberID
    JOIN Books bk ON b.BookID = bk.BookID
    WHERE b.ReturnDate IS NULL
    ORDER BY b.BorrowDate *)
Definition select_borrowed_books : Statement BorrowedRow :=
  fun today db =>
    let joined :=
      flat_map (fun b =>
        flat_map (fun m =>
          flat_map (fun bk =>
            if (Borrowing.MemberID b =? Members.MemberID m)
               && (Borrowing.BookID b =? Books.BookID bk)
               && Borrowing.is_open b
            then [ {| BorrowID := Borrowing.BorrowID b;
                      MemberName := Members.Name m;
                      BookTitle := Books.Title bk;
                      BorrowDate := Borrowing.BorrowDate b;
                      DaysBorrowed := today - Borrowing.BorrowDate b |} ]
            else [])
          (books db))
        (members db))
      (borrowing db) in
    let rows := order_by (fun r1 r2 => BorrowDate r1 <=? BorrowDate r2)
                         joined in
    Done db rows (Z.of_nat (List.length rows)).

(** SELECT BookID FROM Borrowing WHERE BorrowID = %s *)
Definition select_borrowing_by_id (borrow_id : Z) : Statement Borrowing.row :=
  select (fun db =>
    filter (fun r => Borrowing.BorrowID r =? borrow_id) (borrowing db)).

(** SET ReturnDate = CURRENT_DATE WHERE BorrowID = %s, on one row. *)
Definition set_returned (today : Date) (borrow_id : Z) (r : Borrowing.row)
  : Borrowing.row :=
  if Borrowing.BorrowID r =? borrow_id then
    Borrowing.mk (Borrowing.BorrowID r) (Borrowing.MemberID r)
                 (Borrowing.BookID r) (Borrowing.BorrowDate r)
                 (Borrowing.DueDate r) (Some today)
  else r.

(** UPDATE Borrowing SET ReturnDate = CURRENT_DATE WHERE BorrowID = %s *)
Definition update_return_date (borrow_id : Z) : Statement Borrowing.row :=
  fun today db =>
    Done (mkDB (books db) (members db)
               (map (set_returned today borrow_id) (borrowing db))
               (next_BookID db) (next_MemberID db) (next_BorrowID db))
         []
         (Z.of_nat (List.length (filter (fun r => Borrowing.BorrowID r =? borrow_id)
                                   (borrowing db)))).

End Sql.

#[export] Instance Truthy_BorrowedRow : Truthy Sql.BorrowedRow := fun _ => true.

(** ** The world outside the program *)

(** What one connection attempt ([pool.get_connection()] or
    [mysql.connector.connect]) does: it hands out a live connection, hands
    out a connection for which [is_connected()] is false, or raises. *)
Inductive Attempt :=
| Connected
| Stale
| Refused (e : Error).

(** What happens to one call of [cursor.execute] or [connection.commit]
    beyond the statement itself: nothing, or the call raises, and the
    connection is or is not alive afterwards. *)
Inductive Fault :=
| Fine
| Fails (e : Error) (alive : bool).

(** What the driver is seen to do, newest first. *)
Inductive Event :=
| Attempted
| Slept (seconds : Z)
| Committed
| RolledBack
| Closed.

(** What the page shows; the text of each is quoted at its use. *)
Inductive Message :=
| ConnectionFailed (e : Error)
| DatabaseError (e : Error)
| BookExists
| BookAdded
| AddBookFailed
| RequiredFields
| InvalidEmail
| MemberAdded
| AddMemberFailed
| NoMembers
| NoAvailableBooks
| AlreadyBorrowed
| BookBorrowed
| UpdateAvailabilityFailed
| BorrowFailed
| SelectBoth
| BookReturned
| ReturnFailed
| NothingBorrowed.

Record World := mkWorld {
  database : DB;              (* the committed tables *)
  CURRENT_DATE : Date;
  attempts : list Attempt;    (* script of the coming connection attempts *)
  faults : list Fault;        (* script of the coming driver calls *)
  checked_out : nat;          (* connections handed out and not closed *)
  journal : list Event;
  screen : list Message       (* newest first *)
}.

(** A connection object: [is_connected()] and the tables as its open
    transaction sees them (autocommit is off). *)
Record Connection := mkConnection {
  is_connected : bool;
  uncommitted : option DB
}.
#[export] Instance Truthy_Connection : Truthy Connection := fun _ => true.

Module Driver.

Definition record (ev : Event) (w : World) : World :=
  mkWorld (database w) (CURRENT_DATE w) (attempts w) (faults w)
          (checked_out w) (ev :: journal w) (screen w).

Definition hand_out (w : World) : World :=
  mkWorld (database w) (CURRENT_DATE w) (attempts w) (faults w)
          (S (checked_out w)) (journal w) (screen w).

Definition next_attempt (w : World) : Attempt * World :=
  match attempts w with
  | [] => (Connected, w)
  | a :: rest =>
      (a, mkWorld (database w) (CURRENT_DATE w) rest (faults w)
                  (checked_out w) (journal w) (screen w))
  end.

Definition next_fault (w : World) : Fault * World :=
  match faults w with
  | [] => (Fine, w)
  | f :: rest =>
      (f, mkWorld (database w) (CURRENT_DATE w) (attempts w) rest
                  (checked_out w) (journal w) (screen w))
  end.

(** [self.connection_pool.get_connection()]; the direct
    [mysql.connector.connect] of the fallback branch behaves alike. *)
Definition connect (w : World) : Res Connection * World :=
  let (a, w) := next_attempt (record Attempted w) in
  match a with
  | Connected => (Ret (mkConnection true None), hand_out w)
  | Stale => (Ret (mkConnection false None), hand_out w)
  | Refused e => (Raise e, w)
  end.

(** [time.sleep(seconds)] *)
Definition sleep (seconds : Z) (w : World) : World := record (Slept seconds) w.

(** [cursor.execute(query, params)]: the statement runs inside the
    transaction of the connection. *)
Definition cursor_execute {R} (c : Connection) (query : Statement R)
  (w : World) : Res (list R * Z) * Connection * World :=
  let (f, w) := next_fault w in
  match f with
  | Fails e alive => (Raise e, mkConnection alive (uncommitted c), w)
  | Fine =>
      if is_connected c then
        let seen := match uncommitted c with
                    | Some db => db
                    | None => database w
                    end in
        match query (CURRENT_DATE w) seen with
        | Rejected e => (Raise e, c, w)
        | Done after rows rowcount =>
            (Ret (rows, rowcount), mkConnection true (Some after), w)
        end
      else (Raise CR_CONNECTION_NOT_AVAILABLE, c, w)
  end.

(** [connection.commit()] *)
Definition commit (c : Connection) (w : World)
  : Res unit * Connection * World :=
  let (f, w) := next_fault w in
  match f with
  | Fails e alive => (Raise e, mkConnection alive (uncommitted c), w)
  | Fine =>
      if is_connected c then
        let after := match uncommitted c with
                     | Some db => db
                     | None => database w
                     end in
        (Ret tt, mkConnection true None,
         record Committed
           (mkWorld after (CURRENT_DATE w) (attempts w) (faults w)
                    (checked_out w) (journal w) (screen w)))
      else (Raise CR_CONNECTION_NOT_AVAILABLE, c, w)
  end.

(** [connection.rollback()]: discards what the transaction has written.
    On a connection that is gone the driver raises. *)
Definition rollback (c : Connection) (w : World)
  : Res unit * Connection * World :=
  if is_connected c then
    (Ret tt, mkConnection true None, record RolledBack w)
  else (Raise CR_CONNECTION_NOT_AVAILABLE, c, w).

(** [connection.close()]: the connection goes back to the pool, its
    session reset. *)
Definition close (c : Connection) (w : World) : World :=
  record Closed
    (mkWorld (database w) (CURRENT_DATE w) (attempts w) (faults w)
             (pred (checked_out w)) (journal w) (screen w)).

(** [cursor.fetchone()] *)
Definition fetchone {R} (rows : list R) : option R := hd_error rows.

(** [cursor.executemany(query, params_list)]: the statement is run once
    for each element of the list, in the transaction of the connection,
    and the affected rows are added up; the first run that raises ends the
    batch.  No statement is sent for an empty list, and the row count keeps
    its initial -1. *)
Fixpoint executemany_from {P R} (c : Connection) (query : P -> Statement R)
  (params_list : list P) (rowcnt : Z) (w : World)
  : Res Z * Connection * World :=
  match params_list with
  | [] => (Ret rowcnt, c, w)
  | params :: rest =>
      match cursor_execute c (query params) w with
      | (Raise e, c, w) => (Raise e, c, w)
      | (Ret (_, rowcount), c, w) =>
          executemany_from c query rest (rowcnt + rowcount) w
      end
  end.

Definition cursor_executemany {P R} (c : Connection)
  (query : P -> Statement R) (params_list : list P) (w : World)
  : Res Z * Connection * World :=
  match params_list with
  | [] => (Ret (-1), c, w)
  | _ => executemany_from c query params_list 0 w
  end.

End Driver.

(** ** [class DatabaseManager] (db_connection.py) *)

Module DatabaseManager.
Import Driver.

Definition max_retries : nat := 3.

(** The iterations [attempt, attempt + 1, ...] of the loop of
    [get_connection], [remaining] of them, and the [raise] after it. *)
Fixpoint get_connection_loop (remaining attempt : nat) (retry_delay : Z)
  (w : World) : Res Connection * World :=
  match remaining with
  | O => (Raise UnableToEstablish, w)
  | S remaining =>
      match connect w with
      | (Ret connection, w) =>
          if is_connected connection then (Ret connection, w)
          else get_connection_loop remaining (S attempt) retry_delay w
      | (Raise e, w) =>
          if (attempt <? max_retries - 1)%nat then
            get_connection_loop remaining (S attempt) (retry_delay * 2)
                                (sleep retry_delay w)
          else (Raise e, w)
      end
  end.

Definition get_connection : World -> Res Connection * World :=
  get_connection_loop max_retries 0 1.

(** The [finally] clause of [get_connection_context]. *)
Definition close_if_connected (connection : Connection) (w : World) : World :=
  if truthy connection && is_connected connection
  then close connection w else w.

(** [with self.get_connection_context() as connection: body] *)
Definition get_connection_context {A}
  (body : Connection -> World -> Res A * Connection * World)
  (w : World) : Res A * World :=
  match get_connection w with
  | (Raise e, w) => (Raise e, w)
  | (Ret connection, w) =>
      match body connection w with
      | (Ret a, connection, w) => (Ret a, close_if_connected connection w)
      | (Raise e, connection, w) =>
          match rollback connection w with
          | (Ret _, connection, w) =>
              (Raise e, close_if_connected connection w)
          | (Raise e', connection, w) =>
              (Raise e', close_if_connected connection w)
          end
      end
  end.

(** What [execute_query] returns: the rows, one row or [None], or the
    affected-row count. *)
Definition Result (fetch fetch_all : bool) (R : Type) : Type :=
  if fetch then if fetch_all then list R else option R else Z.

Definition execute_query {R} (query : Statement R) (fetch fetch_all : bool)
  : World -> Res (Result fetch fetch_all R) * World :=
  get_connection_context (fun connection w =>
    match cursor_execute connection query w with
    | (Raise e, connection, w) => (Raise e, connection, w)
    | (Ret (rows, rowcount), connection, w) =>
        (if fetch as f
            return Res (Result f fetch_all R) * Connection * World
         then
           (Ret (if fetch_all as fa return Result true fa R
                 then rows else fetchone rows),
            connection, w)
         else
           match commit connection w with
           | (Raise e, connection, w) => (Raise e, connection, w)
           | (Ret _, connection, w) => (Ret rowcount, connection, w)
           end)
    end).

(** [execute_many(query, params_list)] *)
Definition execute_many {P R} (query : P -> Statement R)
  (params_list : list P) : World -> Res Z * World :=
  get_connection_context (fun connection w =>
    match cursor_executemany connection query params_list w with
    | (Raise e, connection, w) => (Raise e, connection, w)
    | (Ret rowcount, connection, w) =>
        match commit connection w with
        | (Raise e, connection, w) => (Raise e, connection, w)
        | (Ret _, connection, w) => (Ret rowcount, connection, w)
        end
    end).

End DatabaseManager.

(** ** The application (app.py) *)

(** Code that acts on the world and returns a value; nothing in app.py
    lets an exception escape. *)
Definition App (A : Type) : Type := World -> A * World.

Definition ret {A} (a : A) : App A := fun w => (a, w).

Definition bind {A B} (m : App A) (k : A -> App B) : App B :=
  fun w => let (a, w') := m w in k a w'.

Declare Scope app_scope.
Delimit Scope app_scope with app.
Notation "'let*' x ':=' m 'in' k" := (bind m (fun x => k))
  (at level 10, x binder, k at level 200) : app_scope.
Notation "m ;; k" := (bind m (fun _ => k))
  (at level 61, right associativity) : app_scope.

Module App.
Import Driver.
Local Open Scope app_scope.

(** [st.error], [st.warning], [st.success], [st.info] *)
Definition show (m : Message) : App unit :=
  fun w => (tt, mkWorld (database w) (CURRENT_DATE w) (attempts w) (faults w)
                        (checked_out w) (journal w) (m :: screen w)).

(** [st.selectbox(label, options)]: the option the user has picked, the
    first one when the pick is not on offer. *)
Definition selectbox (options : list string) (pick : nat) : option string :=
  match nth_error options pick with
  | Some o => Some o
  | None => hd_error options
  end.

(** [st.number_input(label, min_value, max_value)]: the number entered,
    held within the bounds of the widget. *)
Definition number_input (min_value : Z) (max_value : option Z) (entered : Z)
  : Z :=
  Z.max min_value
        (match max_value with Some m => Z.min m entered | None => entered end).

(** [get_connection] *)
Definition get_connection : App (option Connection) :=
  fun w =>
    match DatabaseManager.get_connection w with   (* create_connection() *)
    | (Ret connection, w) => (Some connection, w)
    | (Raise e, w) =>
        (* "Database connection failed: ..." *)
        (None, snd (show (ConnectionFailed e) w))
    end.

(** What [execute_query] returns: the rows, one row, or [True]; [None]
    when there is no row to fetch and when anything went wrong. *)
Definition Result (fetch fetch_all : bool) (R : Type) : Type :=
  if fetch then if fetch_all then option (list R) else option R
  else option bool.

Definition py_None {R} (fetch fetch_all : bool) : Result fetch fetch_all R :=
  match fetch, fetch_all return Result fetch fetch_all R with
  | true, true => None
  | true, false => None
  | false, _ => None
  end.

(** [execute_query(query, params, fetch, fetch_all)] *)
Definition execute_query {R} (query : Statement R) (fetch fetch_all : bool)
  : App (Result fetch fetch_all R) :=
  fun w =>
    let (connection, w) := get_connection w in
    match connection with
    | None => (py_None fetch fetch_all, w)
    | Some connection =>
        if negb (truthy connection) then (py_None fetch fetch_all, w) else
        match cursor_execute connection query w with
        | (Raise e, _, w) =>
            (* "Database error: ..." *)
            (py_None fetch fetch_all, snd (show (DatabaseError e) w))
        | (Ret (rows, _), connection, w) =>
            (if fetch as f return Result f fetch_all R * World then
               ((if fetch_all as fa return Result true fa R
                 then Some rows else fetchone rows),
                close connection w)
             else
               match commit connection w with
               | (Raise e, _, w) => (None, snd (show (DatabaseError e) w))
               | (Ret _, connection, w) => (Some true, close connection w)
               end)
        end
    end.

(** *** Dashboard *)

(** The [stats] dict; a value is an [int], or [None] in the type only. *)
Record Stats := {
  total_books : option Z;
  total_members : option Z;
  borrowed_books : option Z;
  available_copies : option Z
}.

(** [result['count'] if result else 0] *)
Definition count_or_0 (result : option CountRow) : option Z :=
  match result with
  | Some row => if truthy row then count row else Some 0
  | None => Some 0
  end.

(** [int(result['count']) if result and result['count'] is not None else 0] *)
Definition int_count_or_0 (result : option CountRow) : option Z :=
  match result with
  | Some row =>
      if truthy row then
        match count row with
        | Some n => Some n
        | None => Some 0
        end
      else Some 0
  | None => Some 0
  end.

(** [get_dashboard_stats] *)
Definition get_dashboard_stats : App Stats :=
  let* (result : option CountRow) :=
    execute_query Sql.count_books true false in
  let total_books := count_or_0 result in
  let* (result : option CountRow) :=
    execute_query Sql.count_members true false in
  let total_members := count_or_0 result in
  let* (result : option CountRow) :=
    execute_query Sql.count_open_borrowing true false in
  let borrowed_books := count_or_0 result in
  let* (result : option CountRow) :=
    execute_query Sql.sum_available_copies true false in
  let available_copies := int_count_or_0 result in
  ret {| total_books := total_books;
         total_members := total_members;
         borrowed_books := borrowed_books;
         available_copies := available_copies |}.

(** *** Add Book *)

Definition add_book (title author : string) (year copies : Z)
  (submit : bool) : App unit :=
  let year := number_input 1900 (Some 2030) year in
  let copies := number_input 1 None copies in
  if submit then
    if truthy title && truthy author then
      let* (existing_book : option Books.row) :=
        execute_query (Sql.select_book_by_title_author title author)
                      true false in
      if truthy existing_book then
        (* "A book with this title and author already exists!" *)
        show BookExists
      else
        let* (added : option bool) :=
          execute_query (Sql.insert_book title author year copies)
                        false true in
        if truthy added then
          show BookAdded        (* "Book added successfully!" *)
        else
          show AddBookFailed    (* "Failed to add book. Please try again." *)
    else
      show RequiredFields   (* "Please fill in all required fields ..." *)
  else ret tt.

(** *** Add Member *)

Definition add_member (name email phone : string) (submit : bool)
  : App unit :=
  if submit then
    if truthy name && truthy email then
      if negb (contains "@" email) || negb (contains "." email) then
        show InvalidEmail   (* "Please enter a valid email address." *)
      else
        let* (result : option bool) :=
          execute_query
            (Sql.insert_member name email
               (if truthy phone then Some phone else None))
            false true in
        if truthy result then
          show MemberAdded      (* "Member added successfully!" *)
        else
          (* "Failed to add member. Email might already exist." *)
          show AddMemberFailed
    else
      show RequiredFields
  else ret tt.

(** *** Borrow Book *)

Definition member_label (m : Members.row) : string :=
  Members.Name m ++ " (ID: " ++ str (Members.MemberID m) ++ ")".

Definition book_label (b : Books.row) : string :=
  Books.Title b ++ " by " ++ Books.Author b
    ++ " (Available: " ++ str (Books.AvailableCopies b) ++ ")".

(** [options[selected] if selected else None] *)
Definition chosen (options : list (string * Z)) (selected : option string)
  : option Z :=
  match selected with
  | Some label => if truthy label then dict_get options label else None
  | None => None
  end.

(** The member selection, lines 303-311. *)
Definition select_member (pick : nat) : App (option Z) :=
  let* (members : option (list Members.row)) :=
    execute_query Sql.select_members_by_name true true in
  if truthy members then
    let rows := match members with Some rows => rows | None => [] end in
    let member_options := dict_of member_label Members.MemberID rows in
    let selected_member := selectbox (keys member_options) pick in
    ret (chosen member_options selected_member)
  else
    (* "No members found. Please add members first." *)
    show NoMembers ;; ret None.

(** The book selection, lines 314-325. *)
Definition select_book (pick : nat) : App (option Z) :=
  let* (books : option (list Books.row)) :=
    execute_query Sql.select_available_books true true in
  if truthy books then
    let rows := match books with Some rows => rows | None => [] end in
    let book_options := dict_of book_label Books.BookID rows in
    let selected_book := selectbox (keys book_options) pick in
    ret (chosen book_options selected_book)
  else
    show NoAvailableBooks ;; ret None.   (* "No available books found." *)

(** The body of [if st.button("Borrow Book")], lines 328-351. *)
Definition on_borrow_book (member_id book_id : option Z) : App unit :=
  match member_id, book_id with
  | Some member_id, Some book_id =>
      if truthy member_id && truthy book_id then
        let* (existing_borrow : option Borrowing.row) :=
          execute_query (Sql.select_open_borrowing member_id book_id)
                        true false in
        if truthy existing_borrow then
          (* "This member has already borrowed this book and hasn't
             returned it yet." *)
          show AlreadyBorrowed
        else
          let* (inserted : option bool) :=
            execute_query (Sql.insert_borrowing member_id book_id)
                          false true in
          if truthy inserted then
            let* (updated : option bool) :=
              execute_query (Sql.decrement_available_copies book_id)
                            false true in
            if truthy updated then
              show BookBorrowed   (* "Book borrowed successfully!" *)
            else
              (* "Failed to update book availability." *)
              show UpdateAvailabilityFailed
          else
            show BorrowFailed   (* "Failed to process borrowing." *)
      else
        show SelectBoth   (* "Please select both member and book." *)
  | _, _ => show SelectBoth
  end.

(** The Borrow Book page, lines 297-351. *)
Definition borrow_book (member_pick book_pick : nat) (pressed : bool)
  : App unit :=
  let* member_id := select_member member_pick in
  let* book_id := select_book book_pick in
  if pressed then on_borrow_book member_id book_id else ret tt.

(** *** Return Book *)

Definition return_label (book : Sql.BorrowedRow) : string :=
  let days_text :=
    if 0 <? Sql.DaysBorrowed book
    then " (" ++ str (Sql.DaysBorrowed book) ++ " days ago)"
    else " (Today)" in
  Sql.BookTitle book ++ " - " ++ Sql.MemberName book ++ days_text.

(** The body of [if st.button("Return Book")], lines 396-416.  After
    "Book returned successfully!" the script is run again, which reads
    the tables and writes nothing. *)
Definition on_return_book (borrow_id : option Z) : App unit :=
  if truthy borrow_id then
    match borrow_id with
    | Some borrow_id =>
        let* (book_info : option Borrowing.row) :=
          execute_query (Sql.select_borrowing_by_id borrow_id) true false in
        match book_info with
        | Some info =>
            (* book_info and execute_query(return_query, (borrow_id,)) *)
            let* (returned : option bool) :=
              if truthy info then
                execute_query (Sql.update_return_date borrow_id) false true
              else ret None in
            if truthy returned then
              let* (updated : option bool) :=
                execute_query
                  (Sql.increment_available_copies (Borrowing.BookID info))
                  false true in
              if truthy updated then
                show BookReturned   (* "Book returned successfully!" *)
              else
                (* "Failed to update book availability." *)
                show UpdateAvailabilityFailed
            else
              show ReturnFailed   (* "Failed to process return." *)
        | None => show ReturnFailed
        end
    | None => ret tt
    end
  else ret tt.

(** The Return Book page, lines 354-418. *)
Definition return_book (pick : nat) (pressed : bool) : App unit :=
  let* (borrowed_books : option (list Sql.BorrowedRow)) :=
    execute_query Sql.select_borrowed_books true true in
  if truthy borrowed_books then
    let rows := match borrowed_books with Some rows => rows | None => [] end in
    let book_options := dict_of return_label Sql.BorrowID rows in
    let selected_return := selectbox (keys book_options) pick in
    let borrow_id := chosen book_options selected_return in
    if pressed then on_return_book borrow_id else ret tt
  else
    show NothingBorrowed.   (* "No books are currently borrowed." *)

(** *** The pages that write, as the user drives them *)

Inductive Action :=
| AddBook (title author : string) (year copies : Z)
| AddMember (name email phone : string)
| BorrowBook (member_pick book_pick : nat)
| ReturnBook (pick : nat).

Definition run (a : Action) : App unit :=
  match a with
  | AddBook title author year copies => add_book title author year copies true
  | AddMember name email phone => add_member name email phone true
  | BorrowBook member_pick book_pick => borrow_book member_pick book_pick true
  | ReturnBook pick => return_book pick true
  end.

End App.

(** The tables the application can produce from the empty ones: any
    sequence of page actions, each under any behaviour of the driver and at
    any date. *)
Inductive reachable : DB -> Prop :=
| reachable_empty : reachable empty_db
| reachable_step : forall (w : World) (a : App.Action),
    reachable (database w) ->
    reachable (database (snd (App.run a w))).

(** ** Notions used in the statements *)

(** The message shown last. *)
Definition shown (w : World) : option Message := hd_error (screen w).

(** The driver does nothing unexpected: every connection attempt hands out
    a live connection and no call raises beyond what the statement itself
    does. *)
Definition calm (w : World) : bool :=
  forallb (fun a => match a with Connected => true | _ => false end)
          (attempts w)
  && forallb (fun f => match f with Fine => true | _ => false end) (faults w).

(** The connection attempts and the delays of a stretch of the journal,
    oldest first. *)
Definition tries (new : list Event) : nat :=
  List.length (filter (fun ev => match ev with Attempted => true | _ => false end)
                      new).
Definition sleeps (new : list Event) : list Z :=
  flat_map (fun ev => match ev with Slept s => [s] | _ => [] end) (rev new).

(** The statement sent by [execute_query] on connection [c] fails with
    error [e]: [cursor.execute] raises it or, for a statement that is not
    fetched, [commit] does; [c'] and [w'] are the connection and the world
    at that point. *)
Definition statement_fails {R} (query : Statement R) (fetch : bool)
  (c : Connection) (w : World) (e : Error) (c' : Connection) (w' : World)
  : Prop :=
  Driver.cursor_execute c query w = (Raise e, c', w') \/
  (fetch = false /\
   exists rows n c1 w1,
     Driver.cursor_execute c query w = (Ret (rows, n), c1, w1) /\
     Driver.commit c1 w1 = (Raise e, c', w')).

(** The same tables and date under another behaviour of the driver, on a
    fresh page. *)
Definition with_driver (w : World) (a : list Attempt) (f : list Fault) : World :=
  mkWorld (database w) (CURRENT_DATE w) a f (checked_out w) (journal w) [].

(** What [App.execute_query] answers when the statement has run. *)
Definition answer {R} (fetch fetch_all : bool) (rows : list R)
  : App.Result fetch fetch_all R :=
  match fetch, fetch_all return App.Result fetch fetch_all R with
  | true, true => Some rows
  | true, false => Driver.fetchone rows
  | false, _ => Some true
  end.


(** The open records of a (member, book) pair. *)
Definition open_records (member_id book_id : Z) (db : DB) : list Borrowing.row :=
  filter (fun r => (Borrowing.MemberID r =? member_id)
                   && (Borrowing.BookID r =? book_id)
                   && Borrowing.is_open r) (borrowing db).

(** Keys identify rows and are positive and below the next key to be
    given; the number of copies of a book is a non-negative INT. *)
Record well_formed (db : DB) : Prop := {
  wf_next : 1 <= next_BookID db /\ 1 <= next_MemberID db
            /\ 1 <= next_BorrowID db;
  wf_book_ids : NoDup (map Books.BookID (books db));
  wf_book_next :
    forall b, In b (books db) -> 1 <= Books.BookID b < next_BookID db;
  wf_copies :
    forall b, In b (books db) -> 0 <= Books.AvailableCopies b <= INT_MAX;
  wf_member_next :
    forall m, In m (members db) -> 1 <= Members.MemberID m < next_MemberID db;
  wf_borrow_ids : NoDup (map Borrowing.BorrowID (borrowing db));
  wf_borrow_next :
    forall r, In r (borrowing db) ->
              1 <= Borrowing.BorrowID r < next_BorrowID db
}.

(** A small library: one book in four copies and one member, who borrows
    the book and brings it back. *)
Definition opening_day : World := mkWorld empty_db 0 [] [] 0 [] [].
Definition stocked : World :=
  snd (App.run (App.AddBook "1984" "Orwell" 1949 4) opening_day).
Definition enrolled : World :=
  snd (App.run (App.AddMember "Ann" "ann@example.org" "") stocked).
Definition lent : World := snd (App.run (App.BorrowBook 0 0) enrolled).
Definition brought_back : World := snd (App.run (App.ReturnBook 0) lent).

Definition book_1984 : Books.row :=
  Books.mk 1 "1984" "Orwell" (Some 1949) 4 None None None.
Definition ann : Members.row :=
  Members.mk 1 "Ann" "ann@example.org" None None 0 Active.

(** A day on which the server refuses every connection. *)
Definition server_down : World :=
  with_driver opening_day
    [Refused (MySQLError 2003); Refused (MySQLError 2003);
     Refused (MySQLError 2003)] [].

(** The library with the book lent, on a day when the query that looks
    for an open record of the pair loses its connection: it is the third
    statement of the Borrow Book page. *)
Definition check_fails : World :=
  with_driver lent [] [Fine; Fine; Fails (MySQLError 2013) true].

(** Another in which the only copy of the only book is out. *)
Definition last_copy_out : World :=
  snd (App.run (App.BorrowBook 0 0)
    (snd (App.run (App.AddMember "Ann" "ann@example.org" "")
      (snd (App.run (App.AddBook "Dune" "Herbert" 1965 1) opening_day))))).
Definition dune_out : Books.row :=
  Books.mk 1 "Dune" "Herbert" (Some 1965) 0 None None None.

(** A library of three titles in 4, 5 and 7 copies, the member holding a
    copy of the first. *)
Definition three_titles : World :=
  snd (App.run (App.BorrowBook 0 0)
    (snd (App.run (App.AddMember "Ann" "ann@example.org" "")
      (snd (App.run (App.AddBook "Ulysses" "Joyce" 1922 7)
        (snd (App.run (App.AddBook "Dune" "Herbert" 1965 5)
          (snd (App.run (App.AddBook "1984" "Orwell" 1949 4)
                        opening_day))))))))).

(** The same library on a day when the second statement of a page, the
    count of the members on the dashboard, loses its connection. *)
Definition members_query_fails : World :=
  with_driver three_titles [] [Fine; Fails (MySQLError 2013) true].

(** The small library a week after the book was brought back. *)
Definition a_week_later : World :=
  mkWorld (database brought_back) 7 [] [] 0 [] [].

(** What a borrowing that went through has done to the tables of [w]. *)
Definition borrowing_recorded (member_id book_id : Z) (w w' : World) : Prop :=
  borrowing (database w')
  = (borrowing (database w) ++
       [Borrowing.mk (next_BorrowID (database w)) member_id book_id
                     (CURRENT_DATE w) None None])%list /\
  books (database w')
  = map (Sql.add_copies (-1) book_id) (books (database w)) /\
  members (database w') = members (database w).

(** At most one open record for every (member, book) pair. *)
Definition one_open_record_per_pair (db : DB) : Prop :=
  forall member_id book_id,
    (List.length (open_records member_id book_id db) <= 1)%nat.

(** The tables the application can produce while the driver is calm. *)
Inductive reachable_calmly : DB -> Prop :=
| calmly_empty : reachable_calmly empty_db
| calmly_step : forall (w : World) (a : App.Action),
    calm w = true ->
    reachable_calmly (database w) ->
    reachable_calmly (database (snd (App.run a w))).

(** The ways the body of the Borrow Book button ends. *)
Inductive borrow_outcome (member_id book_id : Z) (w w' : World) : Prop :=
| borrow_not_selected :
    member_id = 0 \/ book_id = 0 ->
    database w' = database w -> shown w' = Some SelectBoth ->
    borrow_outcome member_id book_id w w'
| borrow_already :
    open_records member_id book_id (database w) <> [] ->
    database w' = database w -> shown w' = Some AlreadyBorrowed ->
    borrow_outcome member_id book_id w w'
| borrow_failed :
    database w' = database w -> shown w' = Some BorrowFailed ->
    borrow_outcome member_id book_id w w'
| borrow_half : forall d1 rows n,
    Sql.insert_borrowing member_id book_id (CURRENT_DATE w) (database w)
      = Done d1 rows n ->
    database w' = d1 -> shown w' = Some UpdateAvailabilityFailed ->
    borrow_outcome member_id book_id w w'
| borrow_done : forall d1 rows n d2 rows' n',
    Sql.insert_borrowing member_id book_id (CURRENT_DATE w) (database w)
      = Done d1 rows n ->
    Sql.decrement_available_copies book_id (CURRENT_DATE w) d1
      = Done d2 rows' n' ->
    database w' = d2 -> shown w' = Some BookBorrowed ->
    borrow_outcome member_id book_id w w'.

(** The ways the body of the Return Book button ends. *)
Inductive return_outcome (borrow_id : Z) (w w' : World) : Prop :=
| return_not_selected :
    borrow_id = 0 -> w' = w -> return_outcome borrow_id w w'
| return_failed :
    database w' = database w -> shown w' = Some ReturnFailed ->
    return_outcome borrow_id w w'
| return_half : forall info d1 rows n,
    Driver.fetchone
      (filter (fun r => Borrowing.BorrowID r =? borrow_id)
              (borrowing (database w))) = Some info ->
    Sql.update_return_date borrow_id (CURRENT_DATE w) (database w)
      = Done d1 rows n ->
    database w' = d1 -> shown w' = Some UpdateAvailabilityFailed ->
    return_outcome borrow_id w w'
| return_done : forall info d1 rows n d2 rows' n',
    Driver.fetchone
      (filter (fun r => Borrowing.BorrowID r =? borrow_id)
              (borrowing (database w))) = Some info ->
    Sql.update_return_date borrow_id (CURRENT_DATE w) (database w)
      = Done d1 rows n ->
    Sql.increment_available_copies (Borrowing.BookID info) (CURRENT_DATE w) d1
      = Done d2 rows' n' ->
    database w' = d2 -> shown w' = Some BookReturned ->
    return_outcome borrow_id w w'.

(** What [DatabaseManager.execute_query] returns when the statement has
    run: the rows, the first row or [None], or the affected-row count. *)
Definition manager_answer {R} (fetch fetch_all : bool) (rows : list R) (n : Z)
  : DatabaseManager.Result fetch fetch_all R :=
  match fetch, fetch_all return DatabaseManager.Result fetch fetch_all R with
  | true, true => rows
  | true, false => Driver.fetchone rows
  | false, _ => n
  end.

(** The attempts of a script that hand out an unconnected connection, and
    those that raise. *)
Definition stale_among (l : list Attempt) : nat :=
  List.length (filter (fun a => match a with Stale => true | _ => false end) l).
Definition refused_among (l : list Attempt) : nat :=
  List.length (filter (fun a => match a with Refused _ => true | _ => false end)
                      l).

(** The tables after the statement has run for each element of the list
    in turn; [None] when the server rejects one of the runs. *)
Fixpoint run_all {P R} (query : P -> Statement R) (params_list : list P)
  (today : Date) (db : DB) : option DB :=
  match params_list with
  | [] => Some db
  | params :: rest =>
      match query params today db with
      | Rejected _ => None
      | Done after _ _ => run_all query rest today after
      end
  end.

(** ** What a page does to the tables *)

(** The effect of one run of a writing page on the tables, at date
    [today].  [quiet] tells whether the driver was calm: the effects in
    which only the first of two writes is made need a failure of the
    driver, or a count that has no room left. *)
Inductive page_effect (quiet : bool) (today : Date) (db db' : DB) : Prop :=
| effect_none :
    db' = db -> page_effect quiet today db db'
| effect_book_added : forall title author year copies rows n,
    1 <= copies ->
    Sql.insert_book title author year copies today db = Done db' rows n ->
    page_effect quiet today db db'
| effect_member_added : forall name email phone rows n,
    Sql.insert_member name email phone today db = Done db' rows n ->
    page_effect quiet today db db'
| effect_borrowed : forall member_id (b : Books.row) d1 rows n rows' n',
    In b (books db) -> 0 < Books.AvailableCopies b ->
    (quiet = true -> open_records member_id (Books.BookID b) db = []) ->
    Sql.insert_borrowing member_id (Books.BookID b) today db
      = Done d1 rows n ->
    Sql.decrement_available_copies (Books.BookID b) today d1
      = Done db' rows' n' ->
    page_effect quiet today db db'
| effect_borrowed_half : forall member_id (b : Books.row) rows n,
    quiet = false ->
    In b (books db) -> 0 < Books.AvailableCopies b ->
    Sql.insert_borrowing member_id (Books.BookID b) today db
      = Done db' rows n ->
    page_effect quiet today db db'
| effect_returned : forall (r : Borrowing.row) d1 rows n rows' n',
    In r (borrowing db) -> Borrowing.ReturnDate r = None ->
    Sql.update_return_date (Borrowing.BorrowID r) today db
      = Done d1 rows n ->
    Sql.increment_available_copies (Borrowing.BookID r) today d1
      = Done db' rows' n' ->
    page_effect quiet today db db'
| effect_returned_half : forall (r : Borrowing.row) rows n,
    In r (borrowing db) -> Borrowing.ReturnDate r = None ->
    Sql.update_return_date (Borrowing.BorrowID r) today db
      = Done db' rows n ->
    (quiet = true ->
     exists e, Sql.increment_available_copies (Borrowing.BookID r) today db'
               = Rejected e) ->
    page_effect quiet today db db'.

(** Every Borrowing row refers to a member and to a book of the tables. *)
Definition referential_integrity (db : DB) : Prop :=
  forall r, In r (borrowing db) ->
    (exists m, In m (members db)
               /\ Members.MemberID m = Borrowing.MemberID r) /\
    (exists b, In b (books db) /\ Books.BookID b = Borrowing.BookID r).

(** The copies of a book that are out: its open records. *)
Definition on_loan (book_id : Z) (db : DB) : Z :=
  Z.of_nat (List.length
    (filter (fun r => (Borrowing.BookID r =? book_id) && Borrowing.is_open r)
            (borrowing db))).

(** The copies of a book, on the shelf and out. *)
Definition stock (b : Books.row) (db : DB) : Z :=
  Books.AvailableCopies b + on_loan (Books.BookID b) db.

(** The row of a record once it is returned at [today]. *)
Definition returned_on (today : Date) (r : Borrowing.row) : Borrowing.row :=
  Borrowing.mk (Borrowing.BorrowID r) (Borrowing.MemberID r)
               (Borrowing.BookID r) (Borrowing.BorrowDate r)
               (Borrowing.DueDate r) (Some today).

(** ** View Books (app.py, lines 150-191) *)

Section ViewBooks.
Local Open Scope app_scope.

(** [value LIKE pattern], which the collation of the column decides. *)
Variable LIKE : string -> string -> bool.

(** SELECT BookID, Title, Author, PublishedYear, AvailableCopies FROM Books
    WHERE 1=1 [AND (Title LIKE %s OR Author LIKE %s)]
    [AND AvailableCopies >= %s] ORDER BY Title,
    the text the page builds from its two filters. *)
Definition select_books (search_term : string) (min_copies : Z)
  : Statement Books.row :=
  select (fun db =>
    order_by (fun b1 b2 => String.leb (Books.Title b1) (Books.Title b2))
      (filter (fun b =>
                 (if truthy search_term
                  then LIKE (Books.Title b) ("%" ++ search_term ++ "%")
                       || LIKE (Books.Author b) ("%" ++ search_term ++ "%")
                  else true)
                 && (if 0 <? min_copies
                     then min_copies <=? Books.AvailableCopies b
                     else true))
              (books db))).

(** What the page displays: the table with its availability summary, or
    "No books found matching your criteria." *)
Inductive BooksView :=
| BooksTable (df : list Books.row) (available_books out_of_stock : nat)
| NoBooksFound.

Definition view_books (search_term : string) (entered : Z) : App BooksView :=
  let min_copies := App.number_input 0 None entered in
  let* (books : option (list Books.row)) :=
    App.execute_query (select_books search_term min_copies) true true in
  if truthy books then
    let df := match books with Some rows => rows | None => [] end in
    let available_books :=
      List.length (filter (fun b => 0 <? Books.AvailableCopies b) df) in
    let out_of_stock :=
      List.length (filter (fun b => Books.AvailableCopies b =? 0) df) in
    ret (BooksTable df available_books out_of_stock)
  else
    ret NoBooksFound.

End ViewBooks.

(** * Properties *)

Unset Implicit Arguments.

(** ** Lists and dicts *)

Section Lists.
Context {A : Type}.

Lemma In_insert_by (le : A -> A -> bool) (x y : A) (l : list A) :
  In x (insert_by le y l) <-> x = y \/ In x l.
Proof.
  induction l as [|z l IH]; simpl.
  - intuition.
  - destruct (le y z); simpl; intuition.
Qed.

Lemma In_order_by (le : A -> A -> bool) (x : A) (l : list A) :
  In x (order_by le l) <-> In x l.
Proof.
  unfold order_by. induction l as [|y l IH]; simpl.
  - tauto.
  - rewrite In_insert_by, IH. intuition.
Qed.

Lemma order_by_nil (le : A -> A -> bool) (l : list A) :
  order_by le l = [] -> l = [].
Proof.
  destruct l as [|y l]; trivial. intros H.
  assert (In y (order_by le (y :: l))) as Hin
    by (apply In_order_by; now left).
  rewrite H in Hin. destruct Hin.
Qed.
End Lists.

Section Dicts.
Context {A V : Type} (label : A -> string) (value : A -> V).

Lemma dict_get_set (d : list (string * V)) (k k' : string) (v : V) :
  dict_get (dict_set d k v) k' =
  if String.eqb k k' then Some v else dict_get d k'.
Proof.
  induction d as [|[k0 v0] d IH]; simpl.
  - reflexivity.
  - destruct (String.eqb_spec k0 k) as [->|Hne]; simpl.
    + destruct (String.eqb k k'); reflexivity.
    + rewrite IH. destruct (String.eqb_spec k0 k') as [->|Hne'].
      * destruct (String.eqb_spec k k') as [->|_]; congruence.
      * reflexivity.
Qed.

Lemma dict_get_fold (rows : list A) (d : list (string * V)) k v :
  dict_get (fold_left (fun d x => dict_set d (label x) (value x)) rows d) k
    = Some v ->
  (exists x, In x rows /\ value x = v) \/ dict_get d k = Some v.
Proof.
  revert d. induction rows as [|y rows IH]; simpl; intros d H.
  - now right.
  - apply IH in H. destruct H as [(x & Hx & Hv)|H].
    + left. exists x. auto.
    + rewrite dict_get_set in H. destruct (String.eqb (label y) k).
      * left. exists y. split; [now left | congruence].
      * now right.
Qed.

(** A value read from a dict comprehension comes from one of the rows. *)
Lemma dict_get_dict_of (rows : list A) k v :
  dict_get (dict_of label value rows) k = Some v ->
  exists x, In x rows /\ value x = v.
Proof.
  intros H. apply dict_get_fold in H. destruct H as [H|H]; [exact H|].
  discriminate.
Qed.
End Dicts.

Lemma chosen_dict_of {A} (label : A -> string) (value : A -> Z) rows sel v :
  App.chosen (dict_of label value rows) sel = Some v ->
  exists x, In x rows /\ value x = v.
Proof.
  unfold App.chosen. destruct sel as [l|]; [|discriminate].
  destruct (truthy l); [|discriminate]. apply dict_get_dict_of.
Qed.

(** ** The access layer *)

(** What a step leaves alone: the tables, the date and the script of the
    coming driver calls when only connections are involved. *)
Lemma get_connection_loop_frame remaining attempt retry_delay w r w' :
  DatabaseManager.get_connection_loop remaining attempt retry_delay w = (r, w') ->
  database w' = database w /\ CURRENT_DATE w' = CURRENT_DATE w /\
  faults w' = faults w /\ screen w' = screen w /\
  forall c, r = Ret c -> c = mkConnection true None.
Proof.
  revert attempt retry_delay w.
  induction remaining as [|n IH]; simpl; intros attempt retry_delay w H.
  - inversion H; subst. repeat split; intros; discriminate.
  - unfold Driver.connect, Driver.next_attempt in H. simpl in H.
    destruct (attempts w) as [|[| |e] rest]; simpl in H.
    + inversion H; subst. simpl. repeat split. intros c Hc. congruence.
    + inversion H; subst. simpl. repeat split. intros c Hc. congruence.
    + apply IH in H. simpl in H. exact H.
    + destruct (attempt <? 2)%nat.
      * apply IH in H. simpl in H. exact H.
      * inversion H; subst. simpl. repeat split. intros; discriminate.
Qed.

Lemma get_connection_frame w r w' :
  DatabaseManager.get_connection w = (r, w') ->
  database w' = database w /\ CURRENT_DATE w' = CURRENT_DATE w /\
  faults w' = faults w /\ screen w' = screen w /\
  forall c, r = Ret c -> c = mkConnection true None.
Proof. apply get_connection_loop_frame. Qed.

Lemma cursor_execute_cases {R} (query : Statement R) w r c' w' :
  Driver.cursor_execute (mkConnection true None) query w = (r, c', w') ->
  database w' = database w /\ CURRENT_DATE w' = CURRENT_DATE w /\
  screen w' = screen w /\
  ((exists e, r = Raise e) \/
   exists after rows n,
     query (CURRENT_DATE w) (database w) = Done after rows n /\
     r = Ret (rows, n) /\ c' = mkConnection true (Some after)).
Proof.
  unfold Driver.cursor_execute, Driver.next_fault.
  destruct (faults w) as [|[|e alive] rest]; simpl.
  - destruct (query (CURRENT_DATE w) (database w)) as [e|after rows n];
      intros H; inversion H; subst; repeat split; eauto 8.
  - destruct (query (CURRENT_DATE w) (database w)) as [e|after rows n];
      intros H; inversion H; subst; repeat split; eauto 8.
  - intros H; inversion H; subst; repeat split; eauto.
Qed.

Lemma commit_cases after w r c' w' :
  Driver.commit (mkConnection true (Some after)) w = (r, c', w') ->
  CURRENT_DATE w' = CURRENT_DATE w /\ screen w' = screen w /\
  ((exists e, r = Raise e /\ database w' = database w) \/
   (r = Ret tt /\ database w' = after)).
Proof.
  unfold Driver.commit, Driver.next_fault.
  destruct (faults w) as [|[|e alive] rest]; simpl;
    intros H; inversion H; subst; repeat split; eauto.
Qed.

(** The two ways [App.execute_query] ends: it answers [None] and the
    tables are as before, or the statement has run; a statement that is not
    fetched has then been committed. *)
Lemma execute_query_cases {R} (query : Statement R) fetch fetch_all w :
  let (r, w') := App.execute_query query fetch fetch_all w in
  CURRENT_DATE w' = CURRENT_DATE w /\
  ((r = App.py_None fetch fetch_all /\ database w' = database w) \/
   exists after rows n,
     query (CURRENT_DATE w) (database w) = Done after rows n /\
     r = answer fetch fetch_all rows /\
     database w' = if fetch then database w else after).
Proof.
  unfold App.execute_query, App.get_connection.
  destruct (DatabaseManager.get_connection w) as [[c|e] w1] eqn:Hc;
    apply get_connection_frame in Hc;
    destruct Hc as (Hdb & Hdate & _ & _ & Hconn).
  2: { simpl. split; [assumption | left; split; [reflexivity | assumption]]. }
  rewrite (Hconn c eq_refl). simpl.
  destruct (Driver.cursor_execute _ query w1) as [[r c1] w2] eqn:Hx.
  apply cursor_execute_cases in Hx.
  destruct Hx as (Hdb2 & Hdate2 & _ & [(e & ->)|(after & rows & n & Hq & -> & ->)]).
  { simpl. split; [congruence | left; split; [reflexivity | congruence]]. }
  rewrite Hdate, Hdb in Hq.
  destruct fetch; simpl.
  - split; [congruence|]. right. exists after, rows, n.
    repeat split; trivial; try congruence; destruct fetch_all; reflexivity.
  - destruct (Driver.commit _ w2) as [[r c2] w3] eqn:Hcm.
    apply commit_cases in Hcm.
    destruct Hcm as (Hdate3 & _ & [(e & -> & Hdb3)|(-> & Hdb3)]); simpl.
    + split; [congruence | left; split; [reflexivity | congruence]].
    + split; [congruence|]. right. exists after, rows, n.
      repeat split; trivial.
Qed.

(** ** The pages, statement by statement *)

(** Runs the next [execute_query] of the goal and names what
    [execute_query_cases] says of it. *)
Ltac exec H :=
  match goal with
  | |- context [App.execute_query ?q ?f ?fa ?w] =>
      let r := fresh "r" in
      let w' := fresh "w" in
      pose proof (execute_query_cases q f fa w) as H;
      destruct (App.execute_query q f fa w) as [r w']; simpl in H
  end.

Lemma on_borrow_book_outcome member_id book_id w :
  let w' := snd (App.on_borrow_book (Some member_id) (Some book_id) w) in
  CURRENT_DATE w' = CURRENT_DATE w /\
  borrow_outcome member_id book_id w w'.
Proof.
  unfold App.on_borrow_book, truthy, Truthy_int.
  destruct (Z.eqb_spec member_id 0) as [Hm|Hm]; simpl.
  { split; trivial. apply borrow_not_selected; auto. }
  destruct (Z.eqb_spec book_id 0) as [Hb|Hb]; simpl.
  { split; trivial. apply borrow_not_selected; auto. }
  unfold bind.
  exec H1. destruct H1 as (Hd1 & H1).
  assert (database w0 = database w) as Hdb1.
  { destruct H1 as [(_ & ?)|(? & ? & ? & _ & _ & ?)]; assumption. }
  destruct r as [existing|]; simpl.
  { split; trivial. apply borrow_already; trivial.
    destruct H1 as [(? & _)|(after & rows & n & Hq & Hr & _)];
      [discriminate|].
    unfold Sql.select_open_borrowing, select in Hq. inversion Hq; subst.
    unfold open_records. intros Hnil. rewrite Hnil in Hr. discriminate. }
  exec H2. destruct H2 as (Hd2 & H2).
  rewrite Hd1, Hdb1 in H2.
  destruct H2 as [(-> & Hdb2)|(d1 & rows & n & Hq2 & -> & Hdb2)]; simpl.
  { split; [congruence|]. apply borrow_failed; trivial; congruence. }
  exec H3. destruct H3 as (Hd3 & H3).
  rewrite Hd2, Hd1, Hdb2 in H3.
  destruct H3 as [(-> & Hdb3)|(d2 & rows' & n' & Hq3 & -> & Hdb3)]; simpl.
  - split; [congruence|]. eapply borrow_half; eauto.
  - split; [congruence|]. eapply borrow_done; eauto.
Qed.

Lemma on_return_book_outcome borrow_id w :
  let w' := snd (App.on_return_book (Some borrow_id) w) in
  CURRENT_DATE w' = CURRENT_DATE w /\ return_outcome borrow_id w w'.
Proof.
  unfold App.on_return_book, truthy, Truthy_optional, truthy, Truthy_int.
  destruct (Z.eqb_spec borrow_id 0) as [Hz|Hz]; simpl.
  { split; trivial. apply return_not_selected; trivial. }
  unfold bind.
  exec H1. destruct H1 as (Hd1 & H1).
  assert (database w0 = database w) as Hdb1.
  { destruct H1 as [(_ & ?)|(? & ? & ? & _ & _ & ?)]; assumption. }
  destruct r as [info|]; simpl.
  2: { split; trivial. apply return_failed; trivial. }
  assert (Driver.fetchone
            (filter (fun r => Borrowing.BorrowID r =? borrow_id)
                    (borrowing (database w))) = Some info) as Hinfo.
  { destruct H1 as [(? & _)|(after & rows & n & Hq & Hr & _)];
      [discriminate|].
    unfold Sql.select_borrowing_by_id, select in Hq.
    inversion Hq; subst. auto. }
  unfold Truthy_Borrowing.
  exec H2. destruct H2 as (Hd2 & H2).
  rewrite Hd1, Hdb1 in H2.
  destruct H2 as [(-> & Hdb2)|(d1 & rows & n & Hq2 & -> & Hdb2)]; simpl.
  { split; [congruence|]. apply return_failed; trivial; congruence. }
  exec H3. destruct H3 as (Hd3 & H3).
  rewrite Hd2, Hd1, Hdb2 in H3.
  destruct H3 as [(-> & Hdb3)|(d2 & rows' & n' & Hq3 & -> & Hdb3)]; simpl.
  - split; [congruence|]. eapply return_half; eauto.
  - split; [congruence|]. eapply return_done; eauto.
Qed.

(** The selections read the tables and offer only what they have read. *)
Lemma select_member_offer pick w :
  let (member_id, w') := App.select_member pick w in
  database w' = database w /\ CURRENT_DATE w' = CURRENT_DATE w.
Proof.
  unfold App.select_member, bind.
  exec H. destruct H as (Hd & H).
  assert (database w0 = database w) as Hdb.
  { destruct H as [(_ & ?)|(? & ? & ? & _ & _ & ?)]; assumption. }
  destruct r as [[|m rows]|]; simpl; auto.
Qed.

Lemma select_book_offer pick w :
  let (book_id, w') := App.select_book pick w in
  database w' = database w /\ CURRENT_DATE w' = CURRENT_DATE w /\
  forall id, book_id = Some id ->
    exists b, In b (books (database w)) /\ Books.BookID b = id
              /\ 0 < Books.AvailableCopies b.
Proof.
  unfold App.select_book, bind.
  exec H. destruct H as (Hd & H).
  assert (database w0 = database w) as Hdb.
  { destruct H as [(_ & ?)|(? & ? & ? & _ & _ & ?)]; assumption. }
  destruct r as [[|b0 offered]|]; simpl;
    try (repeat split; trivial; intros; discriminate).
  repeat split; trivial. intros id Hid.
  destruct H as [(? & _)|(after & rows & n & Hq & Hr & _)];
    [discriminate|].
  unfold Sql.select_available_books, select in Hq.
  inversion Hq; subst after rows n. inversion Hr as [Hrows].
  rewrite Hrows in Hid.
  apply chosen_dict_of in Hid. destruct Hid as (b & Hin & Hb).
  apply In_order_by, filter_In in Hin. destruct Hin as (Hin & Hpos).
  exists b. repeat split; trivial. now apply Z.ltb_lt.
Qed.

(** Every row of the Return page is an open record. *)
Lemma select_borrowed_books_open today db after rows n row :
  Sql.select_borrowed_books today db = Done after rows n ->
  In row rows ->
  after = db /\
  exists r, In r (borrowing db) /\ Borrowing.BorrowID r = Sql.BorrowID row
            /\ Borrowing.ReturnDate r = None.
Proof.
  unfold Sql.select_borrowed_books. intros H Hin. inversion H; subst.
  split; trivial.
  apply In_order_by in Hin.
  apply in_flat_map in Hin. destruct Hin as (r & Hr & Hin).
  apply in_flat_map in Hin. destruct Hin as (m & Hm & Hin).
  apply in_flat_map in Hin. destruct Hin as (bk & Hbk & Hin).
  destruct ((Borrowing.MemberID r =? Members.MemberID m)
            && (Borrowing.BookID r =? Books.BookID bk)
            && Borrowing.is_open r) eqn:Hc; [|destruct Hin].
  destruct Hin as [<-|[]]. simpl.
  apply andb_true_iff in Hc. destruct Hc as (_ & Hopen).
  exists r. repeat split; trivial.
  unfold Borrowing.is_open in Hopen.
  destruct (Borrowing.ReturnDate r); [discriminate | reflexivity].
Qed.

Lemma add_book_outcome title author year copies w :
  let w' := snd (App.add_book title author year copies true w) in
  database w' = database w \/
  exists year' copies' rows n,
    1 <= copies' /\
    Sql.insert_book title author year' copies' (CURRENT_DATE w) (database w)
      = Done (database w') rows n.
Proof.
  unfold App.add_book.
  destruct (truthy title && truthy author); simpl; [|now left].
  unfold bind.
  exec H1. destruct H1 as (Hd1 & H1).
  assert (database w0 = database w) as Hdb1.
  { destruct H1 as [(_ & ?)|(? & ? & ? & _ & _ & ?)]; assumption. }
  destruct r as [existing|]; simpl; [now left|].
  exec H2. destruct H2 as (Hd2 & H2).
  rewrite Hd1, Hdb1 in H2.
  destruct H2 as [(-> & Hdb2)|(d1 & rows & n & Hq2 & -> & Hdb2)]; simpl.
  - now left.
  - right. exists (App.number_input 1900 (Some 2030) year),
                  (App.number_input 1 None copies), rows, n.
    split; [unfold App.number_input; lia | congruence].
Qed.

Lemma add_member_outcome name email phone w :
  let w' := snd (App.add_member name email phone true w) in
  database w' = database w \/
  exists phone' rows n,
    Sql.insert_member name email phone' (CURRENT_DATE w) (database w)
      = Done (database w') rows n.
Proof.
  unfold App.add_member.
  destruct (truthy name && truthy email); simpl; [|now left].
  destruct (negb (contains "@" email) || negb (contains "." email)); simpl;
    [now left|].
  unfold bind.
  exec H2. destruct H2 as (Hd2 & H2).
  destruct H2 as [(-> & Hdb2)|(d1 & rows & n & Hq2 & -> & Hdb2)]; simpl.
  - now left.
  - right. exists (if truthy phone then Some phone else None), rows, n.
    congruence.
Qed.

Lemma borrow_book_outcome member_pick book_pick w :
  let w' := snd (App.borrow_book member_pick book_pick true w) in
  CURRENT_DATE w' = CURRENT_DATE w /\
  ((database w' = database w /\ shown w' = Some SelectBoth) \/
   exists member_id book_id w2,
     database w2 = database w /\ CURRENT_DATE w2 = CURRENT_DATE w /\
     (exists b, In b (books (database w)) /\ Books.BookID b = book_id
                /\ 0 < Books.AvailableCopies b) /\
     borrow_outcome member_id book_id w2 w').
Proof.
  unfold App.borrow_book, bind.
  pose proof (select_member_offer member_pick w) as Hm.
  destruct (App.select_member member_pick w) as [member_id w1].
  destruct Hm as (Hdb1 & Hd1).
  pose proof (select_book_offer book_pick w1) as Hb.
  destruct (App.select_book book_pick w1) as [book_id w2].
  destruct Hb as (Hdb2 & Hd2 & Hoffer).
  destruct member_id as [member_id|], book_id as [book_id|];
    try (simpl; split; [congruence | left; split; [congruence | reflexivity]]).
  cbv beta iota.
  pose proof (on_borrow_book_outcome member_id book_id w2) as (Hd3 & Hout).
  split; [congruence|]. right. exists member_id, book_id, w2.
  repeat split; try congruence; trivial.
  rewrite <- Hdb1. apply Hoffer. reflexivity.
Qed.

Lemma return_book_outcome pick w :
  let w' := snd (App.return_book pick true w) in
  CURRENT_DATE w' = CURRENT_DATE w /\
  (database w' = database w \/
   exists borrow_id w1,
     database w1 = database w /\ CURRENT_DATE w1 = CURRENT_DATE w /\
     (exists r, In r (borrowing (database w))
                /\ Borrowing.BorrowID r = borrow_id
                /\ Borrowing.ReturnDate r = None) /\
     return_outcome borrow_id w1 w').
Proof.
  unfold App.return_book, bind.
  exec H. destruct H as (Hd & H).
  assert (database w0 = database w) as Hdb.
  { destruct H as [(_ & ?)|(? & ? & ? & _ & _ & ?)]; assumption. }
  destruct r as [[|row offered]|]; simpl; try (split; [|left]; assumption).
  destruct H as [(? & _)|(after & rows & n & Hq & Hr & _)]; [discriminate|].
  inversion Hr as [Hrows].
  destruct (App.chosen _ _) as [borrow_id|] eqn:Hid.
  2: { simpl. split; [|left]; assumption. }
  cbv beta iota.
  pose proof (on_return_book_outcome borrow_id w0) as (Hd3 & Hout).
  split; [congruence|]. right. exists borrow_id, w0.
  repeat split; trivial.
  rewrite Hrows in Hid. apply chosen_dict_of in Hid.
  destruct Hid as (x & Hin & Hx).
  destruct (select_borrowed_books_open _ _ _ _ _ _ Hq Hin)
    as (_ & r & Hr1 & Hr2 & Hr3).
  exists r. repeat split; trivial. congruence.
Qed.

(** ** Well-formed tables *)

Lemma NoDup_map_inj {A B} (f : A -> B) (l : list A) x y :
  NoDup (map f l) -> In x l -> In y l -> f x = f y -> x = y.
Proof.
  induction l as [|a l IH]; simpl; intros Hnd Hx Hy Hf; [destruct Hx|].
  inversion Hnd as [|? ? Hnotin Hnd']; subst.
  destruct Hx as [->|Hx], Hy as [->|Hy]; trivial.
  - exfalso. apply Hnotin. rewrite Hf. now apply in_map.
  - exfalso. apply Hnotin. rewrite <- Hf. now apply in_map.
  - now apply IH.
Qed.

Lemma NoDup_snoc {A} (l : list A) (x : A) :
  NoDup l -> ~ In x l -> NoDup (l ++ [x]).
Proof.
  intros Hnd Hx. apply NoDup_app; trivial.
  - repeat constructor. intros [].
  - intros a Ha [<-|[]]. contradiction.
Qed.

Lemma empty_db_well_formed : well_formed empty_db.
Proof.
  constructor; simpl; try constructor; try lia; intros ? [].
Qed.

Lemma is_INT_bounds v : is_INT v = true -> INT_MIN <= v <= INT_MAX.
Proof. unfold is_INT. intros H. apply andb_true_iff in H. lia. Qed.

Lemma insert_book_well_formed title author year copies today db db' rows n :
  well_formed db -> 0 <= copies ->
  Sql.insert_book title author year copies today db = Done db' rows n ->
  well_formed db'.
Proof.
  intros [H0 H1 H2 H3 Hm H4 H5] Hc. unfold Sql.insert_book.
  destruct (is_INT year && is_INT copies) eqn:Hint; [|discriminate].
  apply andb_true_iff in Hint. destruct Hint as (_ & Hint).
  apply is_INT_bounds in Hint.
  intros H; inversion H; subst; clear H.
  constructor; simpl; trivial.
  - lia.
  - rewrite map_app. simpl. apply NoDup_snoc; trivial.
    intros Hin. apply in_map_iff in Hin. destruct Hin as (b & Hb & Hin).
    apply H2 in Hin. lia.
  - intros b Hin. apply in_app_iff in Hin. destruct Hin as [Hin|[<-|[]]].
    + apply H2 in Hin. lia.
    + simpl. lia.
  - intros b Hin. apply in_app_iff in Hin. destruct Hin as [Hin|[<-|[]]].
    + now apply H3.
    + simpl. lia.
Qed.

Lemma insert_member_well_formed name email phone today db db' rows n :
  well_formed db ->
  Sql.insert_member name email phone today db = Done db' rows n ->
  well_formed db'.
Proof.
  intros [H0 H1 H2 H3 Hm H4 H5]. unfold Sql.insert_member.
  destruct (existsb _ _); [discriminate|].
  intros H; inversion H; subst; clear H.
  constructor; simpl; trivial.
  - lia.
  - intros m Hin. apply in_app_iff in Hin. destruct Hin as [Hin|[<-|[]]].
    + apply Hm in Hin. lia.
    + simpl. lia.
Qed.

Lemma insert_borrowing_well_formed member_id book_id today db db' rows n :
  well_formed db ->
  Sql.insert_borrowing member_id book_id today db = Done db' rows n ->
  well_formed db'.
Proof.
  intros [H0 H1 H2 H3 Hm H4 H5]. unfold Sql.insert_borrowing.
  destruct (_ && _); [|discriminate].
  intros H; inversion H; subst; clear H.
  constructor; simpl; trivial.
  - lia.
  - rewrite map_app. simpl. apply NoDup_snoc; trivial.
    intros Hin. apply in_map_iff in Hin. destruct Hin as (r & Hr & Hin).
    apply H5 in Hin. lia.
  - intros r Hin. apply in_app_iff in Hin. destruct Hin as [Hin|[<-|[]]].
    + apply H5 in Hin. lia.
    + simpl. lia.
Qed.

Lemma map_add_copies_ids delta book_id (bs : list Books.row) :
  map Books.BookID (map (Sql.add_copies delta book_id) bs)
  = map Books.BookID bs.
Proof.
  rewrite map_map. apply map_ext. intros b. unfold Sql.add_copies.
  destruct (Books.BookID b =? book_id); reflexivity.
Qed.

Lemma map_set_returned_ids today borrow_id (rs : list Borrowing.row) :
  map Borrowing.BorrowID (map (Sql.set_returned today borrow_id) rs)
  = map Borrowing.BorrowID rs.
Proof.
  rewrite map_map. apply map_ext. intros r. unfold Sql.set_returned.
  destruct (Borrowing.BorrowID r =? borrow_id); reflexivity.
Qed.

Lemma update_available_copies_well_formed delta book_id today db db' rows n :
  well_formed db ->
  (forall b, In b (books db) -> Books.BookID b = book_id ->
             0 <= Books.AvailableCopies b + delta) ->
  Sql.update_available_copies delta book_id today db = Done db' rows n ->
  well_formed db'.
Proof.
  intros [H0 H1 H2 H3 Hm H4 H5] Hc. unfold Sql.update_available_copies.
  destruct (forallb _ _) eqn:Hint; [|discriminate].
  rewrite forallb_forall in Hint.
  intros H; inversion H; subst; clear H.
  constructor; simpl; trivial.
  - now rewrite map_add_copies_ids.
  - intros b Hin. apply in_map_iff in Hin. destruct Hin as (b0 & <- & Hin).
    apply H2 in Hin. unfold Sql.add_copies.
    destruct (Books.BookID b0 =? book_id); simpl; lia.
  - intros b Hin. apply in_map_iff in Hin. destruct Hin as (b0 & <- & Hin).
    unfold Sql.add_copies.
    destruct (Z.eqb_spec (Books.BookID b0) book_id) as [Heq|Hne]; simpl; auto.
    split; [auto|].
    assert (In b0 (filter (fun b => Books.BookID b =? book_id) (books db)))
      as Hhit by (apply filter_In; split; trivial; now apply Z.eqb_eq).
    apply Hint, is_INT_bounds in Hhit. lia.
Qed.

Lemma update_return_date_well_formed borrow_id today db db' rows n :
  well_formed db ->
  Sql.update_return_date borrow_id today db = Done db' rows n ->
  well_formed db'.
Proof.
  intros [H0 H1 H2 H3 Hm H4 H5]. unfold Sql.update_return_date.
  intros H; inversion H; subst; clear H.
  constructor; simpl; trivial.
  - now rewrite map_set_returned_ids.
  - intros r Hin. apply in_map_iff in Hin. destruct Hin as (r0 & <- & Hin).
    apply H5 in Hin. unfold Sql.set_returned.
    destruct (Borrowing.BorrowID r0 =? borrow_id); simpl; lia.
Qed.

(** The books a statement on the Borrowing table leaves alone. *)
Lemma insert_borrowing_books member_id book_id today db db' rows n :
  Sql.insert_borrowing member_id book_id today db = Done db' rows n ->
  books db' = books db /\
  borrowing db' =
    (borrowing db ++
       [Borrowing.mk (next_BorrowID db) member_id book_id today None None])%list.
Proof.
  unfold Sql.insert_borrowing. destruct (_ && _); [|discriminate].
  intros H; inversion H; subst. simpl. auto.
Qed.

Lemma update_return_date_books borrow_id today db db' rows n :
  Sql.update_return_date borrow_id today db = Done db' rows n ->
  books db' = books db /\
  borrowing db' = map (Sql.set_returned today borrow_id) (borrowing db).
Proof.
  unfold Sql.update_return_date.
  intros H; inversion H; subst. simpl. auto.
Qed.

Lemma update_available_copies_books delta book_id today db db' rows n :
  Sql.update_available_copies delta book_id today db = Done db' rows n ->
  books db' = map (Sql.add_copies delta book_id) (books db) /\
  borrowing db' = borrowing db.
Proof.
  unfold Sql.update_available_copies. destruct (forallb _ _); [|discriminate].
  intros H; inversion H; subst. simpl. auto.
Qed.

(** Every page keeps the tables well formed. *)
Lemma run_well_formed (a : App.Action) (w : World) :
  well_formed (database w) -> well_formed (database (snd (App.run a w))).
Proof.
  intros Hwf. destruct a as [title author year copies|name email phone|mp bp|pick];
    unfold App.run.
  - destruct (add_book_outcome title author year copies w)
      as [->|(y & c & rows & n & Hc & Hq)]; trivial.
    eapply insert_book_well_formed; eauto. lia.
  - destruct (add_member_outcome name email phone w)
      as [->|(p & rows & n & Hq)]; trivial.
    eapply insert_member_well_formed; eauto.
  - destruct (borrow_book_outcome mp bp w)
      as (_ & [(-> & _)|(m & b & w2 & Hdb & Hd & (bk & Hin & Hid & Hpos) & Hout)]);
      trivial.
    rewrite <- Hdb in Hwf, Hin.
    destruct Hout as [_ -> _| _ -> _| -> _|d1 rows n Hq -> _
                     |d1 rows n d2 rows' n' Hq1 Hq2 -> _]; trivial.
    + eapply insert_borrowing_well_formed; eauto.
    + assert (well_formed d1) as Hwf1
        by (eapply insert_borrowing_well_formed; eauto).
      apply insert_borrowing_books in Hq1. destruct Hq1 as (Hb1 & _).
      eapply update_available_copies_well_formed; eauto.
      intros b0 Hin0 Hid0. rewrite Hb1 in Hin0.
      assert (b0 = bk) as ->.
      { apply (NoDup_map_inj Books.BookID (books (database w2)));
          trivial; [apply (wf_book_ids Hwf) | congruence]. }
      lia.
  - destruct (return_book_outcome pick w)
      as (_ & [->|(id & w1 & Hdb & Hd & _ & Hout)]); trivial.
    rewrite <- Hdb in Hwf.
    destruct Hout as [_ ->| -> _|info d1 rows n _ Hq -> _
                     |info d1 rows n d2 rows' n' _ Hq1 Hq2 -> _]; trivial.
    + eapply update_return_date_well_formed; eauto.
    + assert (well_formed d1) as Hwf1
        by (eapply update_return_date_well_formed; eauto).
      eapply update_available_copies_well_formed; eauto.
      intros b0 Hin0 _. apply (wf_copies Hwf1) in Hin0. lia.
Qed.

Lemma reachable_well_formed db : reachable db -> well_formed db.
Proof.
  induction 1 as [|w a _ IH].
  - apply empty_db_well_formed.
  - now apply run_well_formed.
Qed.

(** ** The number of available copies *)

(** C1.  In every state of the tables that the application can reach, the
    AvailableCopies of every book is greater than or equal to 0: adding a
    book, borrowing and returning never make it negative. *)
Theorem available_copies_never_negative (db : DB) :
  reachable db ->
  forall b, In b (books db) -> 0 <= Books.AvailableCopies b.
Proof.
  intros Hr b Hin. apply reachable_well_formed in Hr.
  apply (wf_copies Hr) in Hin. lia.
Qed.

Lemma lent_reachable : reachable (database lent).
Proof.
  unfold lent, enrolled, stocked.
  repeat apply reachable_step. apply reachable_empty.
Qed.

Lemma available_copies_never_negative_witness :
  0 <= Books.AvailableCopies
         (Books.mk 1 "1984" "Orwell" (Some 1949) 3 None None None).
Proof.
  apply (available_copies_never_negative (database lent)).
  - unfold lent, enrolled, stocked.
    repeat apply reachable_step. apply reachable_empty.
  - vm_compute. left. reflexivity.
Defined.

Lemma filter_snoc {A} (f : A -> bool) (l : list A) (x : A) :
  filter f (l ++ [x]) = (filter f l ++ if f x then [x] else [])%list.
Proof. rewrite filter_app. reflexivity. Qed.

(** C2.  A book whose AvailableCopies is 0 cannot be borrowed: the Borrow
    Book page never selects it, whatever the user picks, so that pressing
    the button inserts no Borrowing row for it and leaves its row, with its
    copy count, as it is; when no book has a copy left the press is
    rejected and the tables are unchanged. *)
Theorem borrow_unavailable_book_rejected
  (member_pick book_pick : nat) (w : World) (b : Books.row) :
  reachable (database w) ->
  In b (books (database w)) ->
  Books.AvailableCopies b = 0 ->
  let w' := snd (App.borrow_book member_pick book_pick true w) in
  fst (App.select_book book_pick w) <> Some (Books.BookID b) /\
  In b (books (database w')) /\
  filter (fun r => Borrowing.BookID r =? Books.BookID b)
         (borrowing (database w'))
  = filter (fun r => Borrowing.BookID r =? Books.BookID b)
           (borrowing (database w)) /\
  ((forall b', In b' (books (database w)) -> Books.AvailableCopies b' = 0) ->
   database w' = database w /\ shown w' = Some SelectBoth).
Proof.
  intros Hr Hin Hzero w'. apply reachable_well_formed in Hr.
  assert (forall bk, In bk (books (database w)) -> 0 < Books.AvailableCopies bk ->
                     Books.BookID bk <> Books.BookID b) as Hother.
  { intros bk Hbk Hpos Heq.
    assert (bk = b) as ->
      by (apply (NoDup_map_inj Books.BookID (books (database w)));
          trivial; apply (wf_book_ids Hr)).
    lia. }
  split; [|split; [|split]].
  - pose proof (select_book_offer book_pick w) as Hs.
    destruct (App.select_book book_pick w) as [book_id w1]. simpl.
    destruct Hs as (_ & _ & Hoffer). intros ->.
    destruct (Hoffer _ eq_refl) as (bk & Hbk & Hid & Hpos).
    now apply (Hother bk).
  - destruct (borrow_book_outcome member_pick book_pick w)
      as (_ & [(Hsame & _)|(m & id & w2 & Hdb & Hd & (bk & Hbk & Hid & Hpos) & Hout)]);
      fold w' in Hsame || fold w' in Hout.
    { now rewrite Hsame. }
    rewrite <- Hdb in Hin.
    destruct Hout as [_ -> _| _ -> _| -> _|d1 rows n Hq -> _
                     |d1 rows n d2 rows' n' Hq1 Hq2 -> _]; trivial.
    + apply insert_borrowing_books in Hq. destruct Hq as (-> & _). trivial.
    + apply insert_borrowing_books in Hq1. destruct Hq1 as (Hb1 & _).
      apply update_available_copies_books in Hq2. destruct Hq2 as (-> & _).
      rewrite Hb1. apply in_map_iff. exists b. split; trivial.
      unfold Sql.add_copies.
      destruct (Z.eqb_spec (Books.BookID b) id) as [Heq|]; trivial.
      exfalso. apply (Hother bk); trivial. congruence.
  - destruct (borrow_book_outcome member_pick book_pick w)
      as (_ & [(Hsame & _)|(m & id & w2 & Hdb & Hd & (bk & Hbk & Hid & Hpos) & Hout)]);
      fold w' in Hsame || fold w' in Hout.
    { now rewrite Hsame. }
    assert ((id =? Books.BookID b) = false) as Hne.
    { apply Z.eqb_neq. intros Heq. apply (Hother bk); trivial. congruence. }
    rewrite <- Hdb.
    destruct Hout as [_ -> _| _ -> _| -> _|d1 rows n Hq -> _
                     |d1 rows n d2 rows' n' Hq1 Hq2 -> _]; trivial.
    + apply insert_borrowing_books in Hq. destruct Hq as (_ & ->).
      rewrite filter_snoc. simpl. rewrite Hne. apply app_nil_r.
    + apply insert_borrowing_books in Hq1. destruct Hq1 as (_ & Hb1).
      apply update_available_copies_books in Hq2. destruct Hq2 as (_ & ->).
      rewrite Hb1, filter_snoc. simpl. rewrite Hne. apply app_nil_r.
  - intros Hall.
    destruct (borrow_book_outcome member_pick book_pick w)
      as (_ & [Hsame|(m & id & w2 & Hdb & Hd & (bk & Hbk & Hid & Hpos) & Hout)]);
      trivial.
    apply Hall in Hbk. lia.
Qed.

Lemma borrow_unavailable_book_rejected_witness :
  fst (App.select_book 0 last_copy_out) <> Some (Books.BookID dune_out) /\
  In dune_out (books (database (snd (App.borrow_book 0 0 true last_copy_out)))) /\
  filter (fun r => Borrowing.BookID r =? Books.BookID dune_out)
         (borrowing (database (snd (App.borrow_book 0 0 true last_copy_out))))
  = filter (fun r => Borrowing.BookID r =? Books.BookID dune_out)
           (borrowing (database last_copy_out)) /\
  ((forall b', In b' (books (database last_copy_out)) ->
               Books.AvailableCopies b' = 0) ->
   database (snd (App.borrow_book 0 0 true last_copy_out))
   = database last_copy_out /\
   shown (snd (App.borrow_book 0 0 true last_copy_out)) = Some SelectBoth).
Proof.
  apply (borrow_unavailable_book_rejected 0 0 last_copy_out dune_out).
  - unfold last_copy_out. repeat apply reachable_step. apply reachable_empty.
  - vm_compute. left. reflexivity.
  - reflexivity.
Defined.

Lemma filter_nothing {A} (f : A -> bool) (l : list A) :
  (forall x, In x l -> f x = false) -> filter f l = [].
Proof.
  induction l as [|a l IH]; simpl; intros H; trivial.
  rewrite (H a (or_introl eq_refl)). apply IH. auto.
Qed.

Lemma add_copies_back book_id (bs : list Books.row) :
  map (Sql.add_copies 1 book_id) (map (Sql.add_copies (-1) book_id) bs) = bs.
Proof.
  rewrite map_map. rewrite <- (map_id bs) at 2. apply map_ext.
  intros [id t a y c g i d]. unfold Sql.add_copies. simpl.
  destruct (id =? book_id) eqn:Heq; simpl; [|now rewrite Heq].
  rewrite Heq. f_equal. lia.
Qed.

(** The record looked up by a key that has just been given is the record
    that received it. *)
Lemma fetch_new_record db r info :
  well_formed db ->
  Borrowing.BorrowID r = next_BorrowID db ->
  Driver.fetchone
    (filter (fun x => Borrowing.BorrowID x =? Borrowing.BorrowID r)
            (borrowing db ++ [r])) = Some info ->
  info = r.
Proof.
  intros Hwf Hid. rewrite filter_snoc, Z.eqb_refl, filter_nothing.
  - simpl. congruence.
  - intros x Hx. apply (wf_borrow_next Hwf) in Hx. apply Z.eqb_neq. lia.
Qed.

(** C3.  Borrowing a book for a member who has no open loan of it and then
    returning the record the borrowing created leaves the book with the
    AvailableCopies it had before. *)
Theorem borrow_then_return_restores_copies
  (w w1' : World) (member_id book_id c : Z)
  (b : Books.row) (r : Borrowing.row) :
  reachable (database w) ->
  In b (books (database w)) ->
  Books.BookID b = book_id ->
  Books.AvailableCopies b = c ->
  open_records member_id book_id (database w) = [] ->
  let w1 := snd (App.on_borrow_book (Some member_id) (Some book_id) w) in
  shown w1 = Some BookBorrowed ->
  borrowing (database w1) = (borrowing (database w) ++ [r])%list ->
  database w1' = database w1 ->
  let w2 := snd (App.on_return_book (Some (Borrowing.BorrowID r)) w1') in
  shown w2 = Some BookReturned ->
  In b (books (database w2)) /\
  forall b', In b' (books (database w2)) ->
             Books.BookID b' = book_id -> Books.AvailableCopies b' = c.
Proof.
  intros Hr Hin Hid Hc _ w1 Hs1 Hnew Hdb1' w2 Hs2.
  apply reachable_well_formed in Hr.
  assert (books (database w2) = books (database w)) as Hbooks.
  { destruct (on_borrow_book_outcome member_id book_id w) as (_ & Hout).
    fold w1 in Hout.
    destruct Hout as [_ _ Hs| _ _ Hs| _ Hs|d1 rows n _ _ Hs
                     |d1 rows n d2 rows' n' Hq1 Hq2 Hd2 _];
      try congruence.
    apply insert_borrowing_books in Hq1. destruct Hq1 as (Hb1 & Hr1).
    apply update_available_copies_books in Hq2. destruct Hq2 as (Hb2 & Hr2).
    rewrite Hd2, Hr2, Hr1 in Hnew. apply app_inj_tail in Hnew.
    destruct Hnew as (_ & Hrec).
    destruct (on_return_book_outcome (Borrowing.BorrowID r) w1') as (_ & Hout).
    fold w2 in Hout.
    destruct Hout as [Hz _| _ Hs|info d3 rows3 n3 _ _ _ Hs
                     |info d3 rows3 n3 d4 rows4 n4 Hinfo Hq3 Hq4 Hd4 _];
      try congruence.
    { rewrite <- Hrec in Hz. simpl in Hz. pose proof (wf_next Hr). lia. }
    rewrite Hdb1', Hd2 in Hinfo, Hq3.
    rewrite Hr2, Hr1, Hrec in Hinfo.
    apply fetch_new_record in Hinfo; trivial;
      [|rewrite <- Hrec; reflexivity].
    apply update_return_date_books in Hq3. destruct Hq3 as (Hb3 & _).
    apply update_available_copies_books in Hq4. destruct Hq4 as (Hb4 & _).
    rewrite Hd4, Hb4, Hb3, Hb2, Hb1, Hinfo, <- Hrec. simpl.
    apply add_copies_back. }
  rewrite Hbooks. split; trivial.
  intros b' Hb' Hid'.
  assert (b' = b) as ->; [|assumption].
  apply (NoDup_map_inj Books.BookID (books (database w))); trivial;
    [apply (wf_book_ids Hr) | congruence].
Qed.

Lemma borrow_then_return_restores_copies_witness :
  In book_1984
     (books (database
        (snd (App.on_return_book (Some 1)
           (snd (App.on_borrow_book (Some 1) (Some 1) enrolled)))))) /\
  forall b',
    In b' (books (database
        (snd (App.on_return_book (Some 1)
           (snd (App.on_borrow_book (Some 1) (Some 1) enrolled)))))) ->
    Books.BookID b' = 1 -> Books.AvailableCopies b' = 4.
Proof.
  apply (borrow_then_return_restores_copies
           enrolled (snd (App.on_borrow_book (Some 1) (Some 1) enrolled))
           1 1 4 book_1984 (Borrowing.mk 1 1 1 0 None None));
    try reflexivity.
  - unfold enrolled, stocked. repeat apply reachable_step.
    apply reachable_empty.
  - vm_compute. left. reflexivity.
Defined.

(** ** When the driver is calm *)

Lemma get_connection_calm w :
  calm w = true ->
  exists w1,
    DatabaseManager.get_connection w = (Ret (mkConnection true None), w1) /\
    calm w1 = true /\ database w1 = database w /\
    CURRENT_DATE w1 = CURRENT_DATE w /\ screen w1 = screen w /\
    faults w1 = faults w /\
    checked_out w1 = S (checked_out w) /\
    journal w1 = Attempted :: journal w.
Proof.
  unfold calm, DatabaseManager.get_connection. simpl.
  unfold Driver.connect, Driver.next_attempt. simpl.
  destruct (attempts w) as [|[| |e] rest] eqn:Ha; simpl; intros Hc;
    try discriminate.
  - eexists. split; [reflexivity|]. simpl. rewrite Ha. simpl. auto 10.
  - eexists. split; [reflexivity|]. simpl. auto 10.
Qed.

Lemma next_fault_calm w :
  calm w = true ->
  exists w1,
    Driver.next_fault w = (Fine, w1) /\
    calm w1 = true /\ database w1 = database w /\
    CURRENT_DATE w1 = CURRENT_DATE w /\ screen w1 = screen w /\
    checked_out w1 = checked_out w /\ journal w1 = journal w.
Proof.
  unfold calm, Driver.next_fault. intros Hc.
  apply andb_true_iff in Hc. destruct Hc as (Ha & Hf).
  destruct (faults w) as [|[|e alive] rest] eqn:Hfw; simpl in Hf;
    try discriminate.
  - exists w. rewrite Ha, Hfw. simpl. auto 10.
  - eexists. split; [reflexivity|]. simpl. rewrite Ha, Hf. auto 10.
Qed.

(** Under a calm driver a query ends as the statement does. *)
Lemma execute_query_calm {R} (query : Statement R) fetch fetch_all w :
  calm w = true ->
  exists w',
    calm w' = true /\ CURRENT_DATE w' = CURRENT_DATE w /\
    match query (CURRENT_DATE w) (database w) with
    | Done after rows n =>
        App.execute_query query fetch fetch_all w
          = (answer fetch fetch_all rows, w') /\
        database w' = (if fetch then database w else after) /\
        screen w' = screen w
    | Rejected e =>
        App.execute_query query fetch fetch_all w
          = (App.py_None fetch fetch_all, w') /\
        database w' = database w /\
        screen w' = DatabaseError e :: screen w
    end.
Proof.
  intros Hc. destruct (get_connection_calm w Hc)
    as (w1 & Hg & Hc1 & Hdb & Hd & Hs & _).
  destruct (next_fault_calm w1 Hc1) as (w2 & Hn & Hc2 & Hdb2 & Hd2 & Hs2 & _).
  unfold App.execute_query, App.get_connection. rewrite Hg. simpl.
  unfold Driver.cursor_execute. rewrite Hn. simpl.
  rewrite Hd2, Hdb2, Hd, Hdb.
  destruct (query (CURRENT_DATE w) (database w)) as [e|after rows n].
  { eexists. split; [|split; [|split; [reflexivity|]]]; simpl; trivial;
      try congruence. split; congruence. }
  destruct fetch.
  { eexists. split; [|split; [|split; [|split]]].
    3: destruct fetch_all; reflexivity.
    - unfold calm in *. simpl. exact Hc2.
    - simpl. congruence.
    - simpl. congruence.
    - simpl. congruence. }
  destruct (next_fault_calm w2 Hc2) as (w3 & Hn3 & Hc3 & Hdb3 & Hd3 & Hs3 & _).
  unfold Driver.commit. rewrite Hn3. simpl.
  eexists. split; [|split; [|split; [reflexivity|]]]; simpl; trivial;
    try congruence.
  split; congruence.
Qed.

Lemma on_borrow_book_calm member_id book_id w d1 rows n d2 rows' n' :
  calm w = true ->
  member_id <> 0 -> book_id <> 0 ->
  open_records member_id book_id (database w) = [] ->
  Sql.insert_borrowing member_id book_id (CURRENT_DATE w) (database w)
    = Done d1 rows n ->
  Sql.decrement_available_copies book_id (CURRENT_DATE w) d1
    = Done d2 rows' n' ->
  exists w',
    App.on_borrow_book (Some member_id) (Some book_id) w = (tt, w') /\
    calm w' = true /\ CURRENT_DATE w' = CURRENT_DATE w /\
    database w' = d2 /\ shown w' = Some BookBorrowed.
Proof.
  intros Hc Hm Hb Hopen Hq1 Hq2.
  unfold App.on_borrow_book, truthy, Truthy_int.
  destruct (Z.eqb_spec member_id 0); [contradiction|].
  destruct (Z.eqb_spec book_id 0); [contradiction|]. simpl.
  unfold bind.
  destruct (execute_query_calm
              (Sql.select_open_borrowing member_id book_id) true false w Hc)
    as (w1 & Hc1 & Hd1 & Hx1).
  assert (Sql.select_open_borrowing member_id book_id (CURRENT_DATE w)
            (database w) = Done (database w) [] 0) as Hsel.
  { unfold Sql.select_open_borrowing, select. unfold open_records in Hopen.
    rewrite Hopen. reflexivity. }
  rewrite Hsel in Hx1. destruct Hx1 as (-> & Hdb1 & Hs1). simpl.
  destruct (execute_query_calm
              (Sql.insert_borrowing member_id book_id) false true w1 Hc1)
    as (w2 & Hc2 & Hd2 & Hx2).
  rewrite Hd1, Hdb1, Hq1 in Hx2. destruct Hx2 as (-> & Hdb2 & Hs2). simpl.
  destruct (execute_query_calm
              (Sql.decrement_available_copies book_id) false true w2 Hc2)
    as (w3 & Hc3 & Hd3 & Hx3).
  rewrite Hd2, Hd1, Hdb2, Hq2 in Hx3. destruct Hx3 as (-> & Hdb3 & Hs3). simpl.
  eexists. split; [reflexivity|]. unfold calm, shown in *. simpl.
  repeat split; trivial; congruence.
Qed.

Lemma insert_borrowing_members member_id book_id today db db' rows n :
  Sql.insert_borrowing member_id book_id today db = Done db' rows n ->
  members db' = members db.
Proof.
  unfold Sql.insert_borrowing. destruct (_ && _); [|discriminate].
  intros H; inversion H; subst. reflexivity.
Qed.

Lemma update_available_copies_members delta book_id today db db' rows n :
  Sql.update_available_copies delta book_id today db = Done db' rows n ->
  members db' = members db.
Proof.
  unfold Sql.update_available_copies. destruct (forallb _ _); [|discriminate].
  intros H; inversion H; subst. reflexivity.
Qed.

(** ** Borrowing *)

(** C5.  When the member exists, the book exists and has a copy left, and
    the member has no open record for it, pressing Borrow Book either
    inserts exactly one Borrowing record, dated today and without return
    date, and takes exactly 1 from the AvailableCopies of the book, or is
    reported as failed; it goes through whenever the driver is calm. *)
Theorem borrow_inserts_record_and_decrements
  (w : World) (m : Members.row) (b : Books.row) :
  reachable (database w) ->
  In m (members (database w)) ->
  In b (books (database w)) ->
  0 < Books.AvailableCopies b ->
  open_records (Members.MemberID m) (Books.BookID b) (database w) = [] ->
  let member_id := Members.MemberID m in
  let book_id := Books.BookID b in
  let w' := snd (App.on_borrow_book (Some member_id) (Some book_id) w) in
  let went_through :=
    shown w' = Some BookBorrowed /\
    borrowing_recorded member_id book_id w w' /\
    forall b', In b' (books (database w')) -> Books.BookID b' = book_id ->
               Books.AvailableCopies b' = Books.AvailableCopies b - 1 in
  (went_through \/
   shown w' = Some BorrowFailed \/ shown w' = Some UpdateAvailabilityFailed) /\
  (calm w = true -> went_through).
Proof.
  intros Hr Hm Hb Hpos Hopen member_id book_id w' went_through.
  apply reachable_well_formed in Hr.
  pose proof (wf_member_next Hr m Hm) as Hmid.
  pose proof (wf_book_next Hr b Hb) as Hbid.
  assert (shown w' = Some BookBorrowed -> went_through) as Hthrough.
  { intros Hs. split; trivial.
    destruct (on_borrow_book_outcome member_id book_id w) as (_ & Hout).
    fold w' in Hout.
    destruct Hout as [_ _ Hs'| _ _ Hs'| _ Hs'|d1 rows n _ _ Hs'
                     |d1 rows n d2 rows' n' Hq1 Hq2 Hd2 _];
      try congruence.
    pose proof (insert_borrowing_members _ _ _ _ _ _ _ Hq1) as Hm1.
    pose proof (update_available_copies_members _ _ _ _ _ _ _ Hq2) as Hm2.
    apply insert_borrowing_books in Hq1. destruct Hq1 as (Hb1 & Hr1).
    apply update_available_copies_books in Hq2. destruct Hq2 as (Hb2 & Hr2).
    assert (books (database w')
            = map (Sql.add_copies (-1) book_id) (books (database w))) as Hbooks
      by congruence.
    split; [repeat split; congruence|].
    intros b' Hin' Hid'. rewrite Hbooks in Hin'.
    apply in_map_iff in Hin'. destruct Hin' as (b0 & <- & Hin0).
    unfold Sql.add_copies in *.
    destruct (Z.eqb_spec (Books.BookID b0) book_id) as [Heq|Hne]; simpl in *.
    - assert (b0 = b) as ->; [|lia].
      apply (NoDup_map_inj Books.BookID (books (database w))); trivial.
      apply (wf_book_ids Hr).
    - contradiction. }
  split.
  - destruct (on_borrow_book_outcome member_id book_id w) as (_ & Hout).
    fold w' in Hout.
    destruct Hout as [[Hz|Hz] _ _|Hopen' _ _| _ Hs|d1 rows n _ _ Hs
                     |d1 rows n d2 rows' n' _ _ _ Hs]; auto.
    + subst member_id. lia.
    + subst book_id. lia.
    + contradiction.
  - intros Hc. apply Hthrough.
    destruct (Sql.insert_borrowing member_id book_id (CURRENT_DATE w)
                                   (database w)) as [e|d1 rows n] eqn:Hq1.
    { unfold Sql.insert_borrowing in Hq1.
      assert (existsb (fun x => Members.MemberID x =? member_id)
                      (members (database w)) = true) as He1
        by (apply existsb_exists; exists m; split; trivial; apply Z.eqb_refl).
      assert (existsb (fun x => Books.BookID x =? book_id)
                      (books (database w)) = true) as He2
        by (apply existsb_exists; exists b; split; trivial; apply Z.eqb_refl).
      rewrite He1, He2 in Hq1. discriminate. }
    destruct (Sql.decrement_available_copies book_id (CURRENT_DATE w) d1)
      as [e|d2 rows' n'] eqn:Hq2.
    { apply insert_borrowing_books in Hq1. destruct Hq1 as (Hb1 & _).
      unfold Sql.decrement_available_copies, Sql.update_available_copies in Hq2.
      rewrite Hb1 in Hq2.
      assert (forallb (fun x => is_INT (Books.AvailableCopies x + -1))
                (filter (fun x => Books.BookID x =? book_id)
                        (books (database w))) = true) as Hint.
      { apply forallb_forall. intros x Hx. apply filter_In in Hx.
        destruct Hx as (Hx & _). apply (wf_copies Hr) in Hx.
        unfold is_INT, INT_MIN, INT_MAX in *.
        apply andb_true_iff. split; apply Z.leb_le; lia. }
      rewrite Hint in Hq2. discriminate. }
    destruct (on_borrow_book_calm member_id book_id w d1 rows n d2 rows' n')
      as (w2 & Hrun & _ & _ & _ & Hs); trivial; try lia.
    unfold w'. rewrite Hrun. exact Hs.
Qed.

Lemma borrow_inserts_record_and_decrements_witness :
  shown (snd (App.on_borrow_book (Some 1) (Some 1) enrolled))
    = Some BookBorrowed /\
  borrowing_recorded 1 1 enrolled
    (snd (App.on_borrow_book (Some 1) (Some 1) enrolled)) /\
  forall b',
    In b' (books (database
             (snd (App.on_borrow_book (Some 1) (Some 1) enrolled)))) ->
    Books.BookID b' = 1 -> Books.AvailableCopies b' = 4 - 1.
Proof.
  apply (borrow_inserts_record_and_decrements enrolled ann book_1984);
    try reflexivity.
  - unfold enrolled, stocked. repeat apply reachable_step.
    apply reachable_empty.
  - vm_compute. left. reflexivity.
  - vm_compute. left. reflexivity.
Defined.

(** The scenario of the specification: the book comes in 4 copies; the
    borrowing leaves 3 and one open record; the return restores 4, dates the
    record and makes its status Returned. *)
Example scenario_1984 :
  map Books.AvailableCopies (books (database stocked)) = [4] /\
  map Books.AvailableCopies (books (database lent)) = [3] /\
  borrowing (database lent) = [Borrowing.mk 1 1 1 0 None None] /\
  shown lent = Some BookBorrowed /\
  map Books.AvailableCopies (books (database brought_back)) = [4] /\
  borrowing (database brought_back) = [Borrowing.mk 1 1 1 0 None (Some 0)] /\
  map (Borrowing.Status 0) (borrowing (database brought_back)) = [Returned] /\
  shown brought_back = Some BookReturned.
Proof. repeat split; reflexivity. Qed.

(** ** Returning *)

Lemma filter_unique {A} (f : A -> Z) (l : list A) (x : A) :
  NoDup (map f l) -> In x l -> filter (fun y => f y =? f x) l = [x].
Proof.
  induction l as [|a l IH]; simpl; intros Hnd Hin; [destruct Hin|].
  inversion Hnd as [|? ? Hnotin Hnd']; subst.
  destruct Hin as [->|Hin].
  - rewrite Z.eqb_refl. f_equal. apply filter_nothing.
    intros y Hy. apply Z.eqb_neq. intros Heq. apply Hnotin.
    rewrite <- Heq. now apply in_map.
  - destruct (Z.eqb_spec (f a) (f x)) as [Heq|_]; [|now apply IH].
    exfalso. apply Hnotin. rewrite Heq. now apply in_map.
Qed.

Lemma on_return_book_calm borrow_id w info d1 rows n d2 rows' n' :
  calm w = true ->
  borrow_id <> 0 ->
  Driver.fetchone
    (filter (fun r => Borrowing.BorrowID r =? borrow_id)
            (borrowing (database w))) = Some info ->
  Sql.update_return_date borrow_id (CURRENT_DATE w) (database w)
    = Done d1 rows n ->
  Sql.increment_available_copies (Borrowing.BookID info) (CURRENT_DATE w) d1
    = Done d2 rows' n' ->
  exists w',
    App.on_return_book (Some borrow_id) w = (tt, w') /\
    calm w' = true /\ CURRENT_DATE w' = CURRENT_DATE w /\
    database w' = d2 /\ shown w' = Some BookReturned.
Proof.
  intros Hc Hz Hinfo Hq1 Hq2.
  unfold App.on_return_book, truthy, Truthy_optional, truthy, Truthy_int.
  destruct (Z.eqb_spec borrow_id 0); [contradiction|]. simpl.
  unfold bind.
  destruct (execute_query_calm
              (Sql.select_borrowing_by_id borrow_id) true false w Hc)
    as (w1 & Hc1 & Hd1 & Hx1).
  assert (Sql.select_borrowing_by_id borrow_id (CURRENT_DATE w) (database w)
          = Done (database w)
                 (filter (fun r => Borrowing.BorrowID r =? borrow_id)
                         (borrowing (database w)))
                 (Z.of_nat (List.length
                    (filter (fun r => Borrowing.BorrowID r =? borrow_id)
                            (borrowing (database w)))))) as Hsel
    by reflexivity.
  rewrite Hsel in Hx1. destruct Hx1 as (-> & Hdb1 & Hs1). simpl.
  rewrite Hinfo. unfold Truthy_Borrowing.
  destruct (execute_query_calm
              (Sql.update_return_date borrow_id) false true w1 Hc1)
    as (w2 & Hc2 & Hd2 & Hx2).
  rewrite Hd1, Hdb1, Hq1 in Hx2. destruct Hx2 as (-> & Hdb2 & Hs2). simpl.
  destruct (execute_query_calm
              (Sql.increment_available_copies (Borrowing.BookID info))
              false true w2 Hc2)
    as (w3 & Hc3 & Hd3 & Hx3).
  rewrite Hd2, Hd1, Hdb2, Hq2 in Hx3. destruct Hx3 as (-> & Hdb3 & Hs3). simpl.
  eexists. split; [reflexivity|]. unfold calm, shown in *. simpl.
  repeat split; trivial; congruence.
Qed.

(** ** The dashboard *)

Lemma count_query_cases (rows : DB -> list CountRow) w :
  let (result, w') := App.execute_query (select rows) true false w in
  database w' = database w /\
  (result = None \/ result = Driver.fetchone (rows (database w))).
Proof.
  pose proof (execute_query_cases (select rows) true false w) as H.
  destruct (App.execute_query (select rows) true false w) as [r w'].
  destruct H as (_ & [(-> & Hdb)|(after & rs & n & Hq & -> & Hdb)]).
  - split; auto.
  - unfold select in Hq. inversion Hq; subst. split; auto.
Qed.

(** C9.  The dashboard statistics are the number of books, the number of
    members, the number of Borrowing records without return date and the sum
    of AvailableCopies over all books, a null sum counting as 0; on empty
    tables every statistic is 0, available_copies included, and none is
    null. *)
Theorem dashboard_stats (w : World) :
  (calm w = true ->
   fst (App.get_dashboard_stats w) =
   {| App.total_books := Some (Z.of_nat (List.length (books (database w))));
      App.total_members :=
        Some (Z.of_nat (List.length (members (database w))));
      App.borrowed_books :=
        Some (Z.of_nat (List.length
                (filter (fun r => match Borrowing.ReturnDate r with
                                  | None => true
                                  | Some _ => false
                                  end)
                        (borrowing (database w)))));
      App.available_copies :=
        Some (fold_right Z.add 0
                (map Books.AvailableCopies (books (database w)))) |}) /\
  (books (database w) = [] -> members (database w) = [] ->
   borrowing (database w) = [] ->
   fst (App.get_dashboard_stats w) =
   {| App.total_books := Some 0; App.total_members := Some 0;
      App.borrowed_books := Some 0; App.available_copies := Some 0 |}).
Proof.
  split.
  - intros Hc. unfold App.get_dashboard_stats, bind.
    destruct (execute_query_calm Sql.count_books true false w Hc)
      as (w1 & Hc1 & Hd1 & Hx1).
    simpl in Hx1. destruct Hx1 as (-> & Hdb1 & _).
    destruct (execute_query_calm Sql.count_members true false w1 Hc1)
      as (w2 & Hc2 & Hd2 & Hx2).
    simpl in Hx2. destruct Hx2 as (-> & Hdb2 & _).
    destruct (execute_query_calm Sql.count_open_borrowing true false w2 Hc2)
      as (w3 & Hc3 & Hd3 & Hx3).
    simpl in Hx3. destruct Hx3 as (-> & Hdb3 & _).
    destruct (execute_query_calm Sql.sum_available_copies true false w3 Hc3)
      as (w4 & Hc4 & Hd4 & Hx4).
    simpl in Hx4. destruct Hx4 as (-> & Hdb4 & _).
    simpl. rewrite Hdb3, Hdb2, Hdb1.
    destruct (books (database w)); reflexivity.
  - intros Hb Hm Hr. unfold App.get_dashboard_stats, bind.
    pose proof (count_query_cases
      (fun db => [ {| count := Some (Z.of_nat (List.length (books db))) |} ]) w)
      as H1.
    fold Sql.count_books in H1.
    destruct (App.execute_query Sql.count_books true false w) as [r1 w1].
    destruct H1 as (Hdb1 & H1).
    pose proof (count_query_cases
      (fun db => [ {| count := Some (Z.of_nat (List.length (members db))) |} ])
      w1) as H2.
    fold Sql.count_members in H2.
    destruct (App.execute_query Sql.count_members true false w1) as [r2 w2].
    destruct H2 as (Hdb2 & H2).
    pose proof (count_query_cases
      (fun db => [ {| count := Some (Z.of_nat (List.length
                     (filter Borrowing.is_open (borrowing db)))) |} ]) w2)
      as H3.
    fold Sql.count_open_borrowing in H3.
    destruct (App.execute_query Sql.count_open_borrowing true false w2)
      as [r3 w3].
    destruct H3 as (Hdb3 & H3).
    pose proof (count_query_cases
      (fun db => [ {| count := match books db with
                               | [] => None
                               | bs => Some (sum (map Books.AvailableCopies bs))
                               end |} ]) w3) as H4.
    fold Sql.sum_available_copies in H4.
    destruct (App.execute_query Sql.sum_available_copies true false w3)
      as [r4 w4].
    destruct H4 as (Hdb4 & H4).
    rewrite Hdb3, Hdb2, Hdb1, Hb in H4. rewrite Hdb2, Hdb1, Hr in H3.
    rewrite Hdb1, Hm in H2. rewrite Hb in H1. simpl in *.
    destruct H1 as [->| ->], H2 as [->| ->], H3 as [->| ->], H4 as [->| ->];
      reflexivity.
Qed.

Lemma dashboard_stats_witness :
  fst (App.get_dashboard_stats three_titles) =
  {| App.total_books := Some 3; App.total_members := Some 1;
     App.borrowed_books := Some 1; App.available_copies := Some (3 + 5 + 7) |} /\
  fst (App.get_dashboard_stats opening_day) =
  {| App.total_books := Some 0; App.total_members := Some 0;
     App.borrowed_books := Some 0; App.available_copies := Some 0 |}.
Proof.
  split.
  - apply (proj1 (dashboard_stats three_titles)). reflexivity.
  - apply (proj2 (dashboard_stats opening_day)); reflexivity.
Defined.

(** ** Acquiring a connection *)

(** The events that [l] has on top of [j]. *)
Ltac stretch l j :=
  match l with
  | j => constr:(@nil Event)
  | ?ev :: ?l' => let p := stretch l' j in constr:(ev :: p)
  end.

(** C8.  [get_connection] makes at most 3 attempts.  The delay after the
    first attempt that raises is 1 second and after the second 2 seconds,
    and when the third attempt raises too its error is raised to the
    caller; an error is raised only once all 3 attempts have been made, and
    a connection that is returned is connected. *)
Theorem get_connection_retries_with_backoff (w : World) :
  let r := fst (DatabaseManager.get_connection w) in
  let w' := snd (DatabaseManager.get_connection w) in
  exists new,
    journal w' = (new ++ journal w)%list /\
    (tries new <= 3)%nat /\
    (sleeps new = [] \/ sleeps new = [1] \/ sleeps new = [1; 2]) /\
    (forall e1 rest, attempts w = Refused e1 :: rest ->
       exists later, new = (later ++ [Slept 1; Attempted])%list) /\
    (forall e1 e2 rest, attempts w = Refused e1 :: Refused e2 :: rest ->
       exists later,
         new = (later ++ [Slept 2; Attempted; Slept 1; Attempted])%list) /\
    (forall e1 e2 e3 rest,
       attempts w = Refused e1 :: Refused e2 :: Refused e3 :: rest ->
       r = Raise e3 /\ attempts w' = rest /\
       new = [Attempted; Slept 2; Attempted; Slept 1; Attempted]) /\
    (forall e, r = Raise e -> tries new = 3%nat) /\
    (forall c, r = Ret c -> is_connected c = true).
Proof.
  destruct w as [db today att fl out j sc].
  unfold DatabaseManager.get_connection.
  destruct att as [|[| |e1] [|[| |e2] [|[| |e3] rest]]]; simpl;
    match goal with
    | |- exists new, ?l = (new ++ ?j)%list /\ _ =>
        let p := stretch l j in exists p
    end;
    (split; [reflexivity|]);
    (split; [unfold tries; simpl; lia|]);
    (split; [unfold sleeps; simpl; auto|]);
    repeat split; intros; try discriminate;
    try match goal with
        | H : _ :: _ = _ :: _ |- _ => inversion H; subst; clear H
        end;
    try match goal with
        | H : Ret _ = Ret _ |- _ => inversion H; subst; clear H
        end;
    try reflexivity;
    try (eexists; rewrite app_nil_l; reflexivity);
    try (eexists [_]; reflexivity);
    try (eexists [_; _]; reflexivity);
    try (eexists [_; _; _]; reflexivity).
Qed.

Lemma get_connection_retries_with_backoff_witness :
  exists new,
    journal (snd (DatabaseManager.get_connection server_down))
      = (new ++ journal server_down)%list /\
    (tries new <= 3)%nat /\
    fst (DatabaseManager.get_connection server_down)
      = Raise (MySQLError 2003) /\
    new = [Attempted; Slept 2; Attempted; Slept 1; Attempted].
Proof.
  destruct (get_connection_retries_with_backoff server_down)
    as (new & Hj & Ht & _ & _ & _ & H3 & _).
  exists new.
  destruct (H3 (MySQLError 2003) (MySQLError 2003) (MySQLError 2003) []
               eq_refl) as (Hr & _ & Hn).
  auto.
Defined.

(** ** Statements that fail *)

(** C6, as amended.  When a statement run by [DatabaseManager.execute_query]
    fails with a database error, nothing is committed and an error is raised
    to the caller; while the connection is alive it is that error, and the
    connection is rolled back and then closed.  [execute_query] of app.py
    shows the error and returns [None]. *)
Theorem failed_statement_rolls_back_and_raises
  {R} (query : Statement R) (fetch fetch_all : bool)
  (w w1 w2 : World) (connection c2 : Connection) (e : Error) :
  DatabaseManager.get_connection w = (Ret connection, w1) ->
  statement_fails query fetch connection w1 e c2 w2 ->
  let r := fst (DatabaseManager.execute_query query fetch fetch_all w) in
  let w' := snd (DatabaseManager.execute_query query fetch fetch_all w) in
  (exists e', r = Raise e') /\
  database w' = database w /\
  (is_connected c2 = true ->
   r = Raise e /\
   journal w' = Closed :: RolledBack :: journal w2 /\
   checked_out w' = pred (checked_out w2)) /\
  fst (App.execute_query query fetch fetch_all w) = App.py_None fetch fetch_all /\
  shown (snd (App.execute_query query fetch fetch_all w))
    = Some (DatabaseError e).
Proof.
  intros Hget Hfail r w'.
  pose proof (get_connection_frame _ _ _ Hget) as (Hdb1 & _ & _ & _ & Hconn).
  pose proof (Hconn _ eq_refl) as ->.
  assert (database w2 = database w1) as Hdb2.
  { destruct Hfail as [Hx|(_ & rows & n & c1 & w3 & Hx & Hcm)].
    - apply cursor_execute_cases in Hx. tauto.
    - apply cursor_execute_cases in Hx.
      destruct Hx as (Hdb3 & _ & _ & [(? & ?)|(after & ? & ? & _ & _ & ->)]);
        [discriminate|].
      apply commit_cases in Hcm.
      destruct Hcm as (_ & _ & [(? & _ & ?)|(? & _)]);
        [congruence | discriminate]. }
  assert (DatabaseManager.execute_query query fetch fetch_all w
          = match Driver.rollback c2 w2 with
            | (Ret _, c3, w3) =>
                (Raise e, DatabaseManager.close_if_connected c3 w3)
            | (Raise e', c3, w3) =>
                (Raise e', DatabaseManager.close_if_connected c3 w3)
            end) as Hrun.
  { unfold DatabaseManager.execute_query,
      DatabaseManager.get_connection_context.
    rewrite Hget.
    destruct Hfail as [Hx|(-> & rows & n & c1 & w3 & Hx & Hcm)].
    - rewrite Hx. reflexivity.
    - rewrite Hx, Hcm. reflexivity. }
  assert (App.execute_query query fetch fetch_all w
          = (App.py_None fetch fetch_all,
             snd (App.show (DatabaseError e) w2))) as Happ.
  { unfold App.execute_query, App.get_connection. rewrite Hget. simpl.
    destruct Hfail as [Hx|(-> & rows & n & c1 & w3 & Hx & Hcm)].
    - rewrite Hx. reflexivity.
    - rewrite Hx, Hcm. reflexivity. }
  subst r w'. rewrite Hrun, Happ. clear Hrun Happ.
  unfold Driver.rollback, DatabaseManager.close_if_connected.
  destruct c2 as [[|] pending]; simpl.
  - repeat split; eauto; try congruence.
  - repeat split; eauto; try congruence; intros; discriminate.
Qed.

Lemma failed_statement_rolls_back_and_raises_witness :
  fst (DatabaseManager.execute_query (Sql.insert_borrowing 1 1) false true
         opening_day) = Raise ER_NO_REFERENCED_ROW /\
  journal (snd (DatabaseManager.execute_query (Sql.insert_borrowing 1 1)
                  false true opening_day))
  = [Closed; RolledBack; Attempted].
Proof.
  destruct (failed_statement_rolls_back_and_raises
              (Sql.insert_borrowing 1 1) false true opening_day
              (snd (DatabaseManager.get_connection opening_day))
              (snd (DatabaseManager.get_connection opening_day))
              (mkConnection true None) (mkConnection true None)
              ER_NO_REFERENCED_ROW) as (_ & _ & H & _).
  - reflexivity.
  - left. reflexivity.
  - destruct (H eq_refl) as (Hr & Hj & _). split; [exact Hr | exact Hj].
Defined.

(** C6, as stated, fails for [execute_query] of app.py: a Borrowing row
    that refers to no member is refused by the server, and the call returns
    [None] as for a query without result; the journal shows the connection
    attempt and neither a rollback nor a close. *)
Lemma app_execute_query_swallows_error :
  let r := App.execute_query (Sql.insert_borrowing 1 1) false true
                             opening_day in
  Sql.insert_borrowing 1 1 0 empty_db = Rejected ER_NO_REFERENCED_ROW /\
  fst r = None /\
  shown (snd r) = Some (DatabaseError ER_NO_REFERENCED_ROW) /\
  journal (snd r) = [Attempted] /\
  ~ In RolledBack (journal (snd r)).
Proof.
  repeat split; try reflexivity.
  simpl. intros [H|[]]. discriminate.
Qed.

(** ** Releasing the connection *)

(** [DatabaseManager.execute_query] closes the connection it has acquired
    on every path on which the connection is still alive. *)
Lemma execute_query_closes_connection
  {R} (query : Statement R) (fetch fetch_all : bool)
  (w w1 : World) (connection : Connection) :
  DatabaseManager.get_connection w = (Ret connection, w1) ->
  let w' := snd (DatabaseManager.execute_query query fetch fetch_all w) in
  (exists j, journal w' = Closed :: j) /\
  checked_out w' = pred (checked_out w1) \/
  exists e, In (Fails e false) (faults w1).
Proof.
  intros Hget w'. subst w'.
  pose proof (get_connection_frame _ _ _ Hget) as (_ & _ & _ & _ & Hconn).
  pose proof (Hconn _ eq_refl) as ->.
  unfold DatabaseManager.execute_query, DatabaseManager.get_connection_context.
  rewrite Hget. clear Hget Hconn.
  destruct w1 as [db today att fl out j sc].
  unfold Driver.cursor_execute, Driver.next_fault. simpl.
  destruct fl as [|[|e [|]] fl]; simpl;
    try (right; eexists; left; reflexivity);
    try (left; split; [eexists|]; reflexivity);
    destruct (query today db) as [e'|after rows n]; simpl;
    try (left; split; [eexists|]; reflexivity);
    destruct fetch; simpl;
    try (left; split; [eexists|]; reflexivity);
    unfold Driver.commit, Driver.next_fault; simpl;
    try (left; split; [eexists|]; reflexivity).
  destruct fl as [|[|e [|]] fl]; simpl;
    try (left; split; [eexists|]; reflexivity).
  right. exists e. right. left. reflexivity.
Qed.

(** C7 fails for [execute_query] of app.py.  Adding a member under an
    email that is registered makes the INSERT fail; the page reports the
    failure, and the connection that was acquired for it is not closed:
    one connection more is out than before. *)
Theorem failed_statement_leaves_connection_open :
  let w' := snd (App.add_member "Bob" "ann@example.org" "" true enrolled) in
  Sql.insert_member "Bob" "ann@example.org" None 0 (database enrolled)
    = Rejected ER_DUP_ENTRY /\
  shown w' = Some AddMemberFailed /\
  checked_out enrolled = 0%nat /\
  checked_out w' = 1%nat /\
  journal w' = Attempted :: journal enrolled.
Proof. repeat split; reflexivity. Qed.

(** ** One open record per pair *)

(** C4 fails when the query that looks for an open record fails.  The
    member has the book; on the Borrow Book page both selections are read,
    the query for an open record of the pair loses its connection, and the
    page goes on as if there were none: the tables, which the application
    has reached, hold two open records of the pair. *)
Theorem failed_check_admits_second_open_record :
  let w' := snd (App.run (App.BorrowBook 0 0) check_fails) in
  reachable (database check_fails) /\
  List.length (open_records 1 1 (database check_fails)) = 1%nat /\
  reachable (database w') /\
  List.length (open_records 1 1 (database w')) = 2%nat /\
  shown w' = Some BookBorrowed.
Proof.
  repeat split; try reflexivity.
  - exact lent_reachable.
  - apply reachable_step. exact lent_reachable.
Qed.

(** While the query for an open record runs, Borrow Book is rejected for a
    pair that has one, and the tables never hold two open records of a
    pair; the lemmas below establish it for a calm driver. *)
Lemma show_calm m w : calm (snd (App.show m w)) = calm w.
Proof. reflexivity. Qed.

Lemma select_calm {R} (rows : DB -> list R) fetch_all w :
  calm w = true ->
  exists w',
    App.execute_query (select rows) true fetch_all w
      = (answer true fetch_all (rows (database w)), w') /\
    calm w' = true /\ database w' = database w /\
    CURRENT_DATE w' = CURRENT_DATE w.
Proof.
  intros Hc.
  destruct (execute_query_calm (select rows) true fetch_all w Hc)
    as (w' & Hc' & Hd & H).
  unfold select in H at 1. destruct H as (H & Hdb & _).
  exists w'. auto.
Qed.

Lemma select_member_calm pick w :
  calm w = true ->
  calm (snd (App.select_member pick w)) = true /\
  database (snd (App.select_member pick w)) = database w /\
  CURRENT_DATE (snd (App.select_member pick w)) = CURRENT_DATE w.
Proof.
  intros Hc. unfold App.select_member, bind.
  destruct (select_calm
              (fun db => order_by (fun m1 m2 => String.leb (Members.Name m1)
                                                           (Members.Name m2))
                                  (members db)) true w Hc)
    as (w' & Hrun & Hc' & Hdb & Hd).
  fold Sql.select_members_by_name in Hrun. rewrite Hrun. simpl.
  destruct (order_by _ _); simpl; auto.
Qed.

Lemma select_book_calm pick w :
  calm w = true ->
  calm (snd (App.select_book pick w)) = true /\
  database (snd (App.select_book pick w)) = database w /\
  CURRENT_DATE (snd (App.select_book pick w)) = CURRENT_DATE w.
Proof.
  intros Hc. unfold App.select_book, bind.
  destruct (select_calm
              (fun db => order_by (fun b1 b2 => String.leb (Books.Title b1)
                                                           (Books.Title b2))
                           (filter (fun b => 0 <? Books.AvailableCopies b)
                                   (books db))) true w Hc)
    as (w' & Hrun & Hc' & Hdb & Hd).
  fold Sql.select_available_books in Hrun. rewrite Hrun. simpl.
  destruct (order_by _ _); simpl; auto.
Qed.

(** Under a calm driver Borrow Book is rejected when the pair has an open
    record, and writes a record only when it has none. *)
Lemma on_borrow_book_checked member_id book_id w :
  calm w = true ->
  let w' := snd (App.on_borrow_book (Some member_id) (Some book_id) w) in
  (open_records member_id book_id (database w) <> [] ->
   member_id <> 0 -> book_id <> 0 ->
   database w' = database w /\ shown w' = Some AlreadyBorrowed) /\
  (database w' = database w \/
   open_records member_id book_id (database w) = [] /\
   exists r,
     Borrowing.MemberID r = member_id /\ Borrowing.BookID r = book_id /\
     borrowing (database w') = (borrowing (database w) ++ [r])%list).
Proof.
  intros Hc. unfold App.on_borrow_book, truthy, Truthy_int.
  destruct (Z.eqb_spec member_id 0) as [Hm|Hm]; simpl.
  { split; [intros; contradiction | now left]. }
  destruct (Z.eqb_spec book_id 0) as [Hb|Hb]; simpl.
  { split; [intros; contradiction | now left]. }
  unfold bind.
  destruct (select_calm
              (fun db => filter (fun r => (Borrowing.MemberID r =? member_id)
                                          && (Borrowing.BookID r =? book_id)
                                          && Borrowing.is_open r)
                                (borrowing db)) false w Hc)
    as (w1 & Hrun & Hc1 & Hdb1 & Hd1).
  fold (Sql.select_open_borrowing member_id book_id) in Hrun.
  fold (open_records member_id book_id (database w)) in Hrun.
  rewrite Hrun. simpl.
  destruct (open_records member_id book_id (database w)) as [|r0 rs] eqn:Hopen;
    simpl.
  2: { split; [intros; split; [exact Hdb1 | reflexivity] | now left]. }
  split; [intros Hne; contradiction|].
  exec H2. destruct H2 as (Hd2 & H2).
  rewrite Hd1, Hdb1 in H2.
  destruct H2 as [(-> & Hdb2)|(d1 & rows & n & Hq2 & -> & Hdb2)]; simpl.
  { left. congruence. }
  apply insert_borrowing_books in Hq2. destruct Hq2 as (_ & Hr1).
  exec H3. destruct H3 as (Hd3 & H3).
  right. split; trivial. eexists (Borrowing.mk _ member_id book_id _ None None).
  split; [reflexivity|]. split; [reflexivity|].
  destruct H3 as [(-> & Hdb3)|(d2 & rows' & n' & Hq3 & -> & Hdb3)]; simpl.
  - rewrite Hdb3, Hdb2. exact Hr1.
  - apply update_available_copies_books in Hq3. destruct Hq3 as (_ & Hr2).
    rewrite Hdb3, Hr2, Hdb2. exact Hr1.
Qed.

Lemma open_records_same member_id book_id db db' :
  borrowing db' = borrowing db ->
  open_records member_id book_id db' = open_records member_id book_id db.
Proof. unfold open_records. now intros ->. Qed.

Lemma open_records_returned member_id book_id today borrow_id db db' :
  borrowing db' = map (Sql.set_returned today borrow_id) (borrowing db) ->
  (List.length (open_records member_id book_id db')
   <= List.length (open_records member_id book_id db))%nat.
Proof.
  unfold open_records. intros ->.
  induction (borrowing db) as [|r l IH]; simpl; [lia|].
  unfold Sql.set_returned at 1 2 3.
  destruct (Borrowing.BorrowID r =? borrow_id); simpl.
  - rewrite andb_false_r.
    destruct ((Borrowing.MemberID r =? member_id)
              && (Borrowing.BookID r =? book_id) && Borrowing.is_open r);
      simpl; lia.
  - destruct ((Borrowing.MemberID r =? member_id)
              && (Borrowing.BookID r =? book_id) && Borrowing.is_open r);
      simpl; lia.
Qed.

Lemma insert_book_borrowing title author year copies today db db' rows n :
  Sql.insert_book title author year copies today db = Done db' rows n ->
  borrowing db' = borrowing db.
Proof.
  unfold Sql.insert_book. destruct (_ && _); [|discriminate].
  intros H; inversion H; subst. reflexivity.
Qed.

Lemma insert_member_borrowing name email phone today db db' rows n :
  Sql.insert_member name email phone today db = Done db' rows n ->
  borrowing db' = borrowing db.
Proof.
  unfold Sql.insert_member. destruct (existsb _ _); [discriminate|].
  intros H; inversion H; subst. reflexivity.
Qed.

(** While the driver is calm every page keeps the pairs at one open
    record at most. *)
Lemma run_one_open_record_per_pair (a : App.Action) (w : World) :
  calm w = true ->
  one_open_record_per_pair (database w) ->
  one_open_record_per_pair (database (snd (App.run a w))).
Proof.
  intros Hc Hinv m b.
  destruct a as [title author year copies|name email phone|mp bp|pick];
    unfold App.run.
  - destruct (add_book_outcome title author year copies w)
      as [->|(y & c & rows & n & _ & Hq)]; [apply Hinv|].
    apply insert_book_borrowing in Hq.
    rewrite (open_records_same _ _ _ _ Hq). apply Hinv.
  - destruct (add_member_outcome name email phone w)
      as [->|(ph & rows & n & Hq)]; [apply Hinv|].
    apply insert_member_borrowing in Hq.
    rewrite (open_records_same _ _ _ _ Hq). apply Hinv.
  - unfold App.borrow_book, bind.
    destruct (select_member_calm mp w Hc) as (Hc1 & Hdb1 & _).
    destruct (App.select_member mp w) as [member_id w1]. simpl in *.
    destruct (select_book_calm bp w1 Hc1) as (Hc2 & Hdb2 & _).
    destruct (App.select_book bp w1) as [book_id w2]. simpl in *.
    assert (database w2 = database w) as Hdb by congruence.
    destruct member_id as [member_id|], book_id as [book_id|];
      try (simpl; rewrite Hdb; apply Hinv).
    destruct (on_borrow_book_checked member_id book_id w2 Hc2)
      as (_ & [->|(Hnone & r & Hrm & Hrb & Hnew)]).
    { rewrite Hdb. apply Hinv. }
    unfold open_records in *. rewrite Hnew, filter_snoc, length_app.
    rewrite Hrm, Hrb. rewrite Hdb in Hnone.
    destruct (Z.eqb_spec member_id m) as [->|Hm]; simpl.
    + destruct (Z.eqb_spec book_id b) as [->|Hb]; simpl.
      * rewrite Hdb, Hnone. destruct (Borrowing.is_open r); simpl; lia.
      * rewrite Hdb. specialize (Hinv m b). unfold open_records in Hinv. lia.
    + rewrite Hdb. specialize (Hinv m b). unfold open_records in Hinv. lia.
  - destruct (return_book_outcome pick w)
      as (_ & [->|(id & w1 & Hdb & Hd & _ & Hout)]); [apply Hinv|].
    specialize (Hinv m b). rewrite <- Hdb in Hinv.
    destruct Hout as [_ ->| -> _|info d1 rows n _ Hq -> _
                     |info d1 rows n d2 rows' n' _ Hq1 Hq2 -> _]; trivial.
    + apply update_return_date_books in Hq. destruct Hq as (_ & Hq).
      pose proof (open_records_returned m b _ _ _ _ Hq). lia.
    + apply update_return_date_books in Hq1. destruct Hq1 as (_ & Hq1).
      apply update_available_copies_books in Hq2. destruct Hq2 as (_ & Hq2).
      rewrite (open_records_same _ _ _ _ Hq2).
      pose proof (open_records_returned m b _ _ _ _ Hq1). lia.
Qed.

(** While the driver is calm the tables never hold two open records of
    one member for one book. *)
Lemma one_open_record_while_calm db :
  reachable_calmly db -> one_open_record_per_pair db.
Proof.
  induction 1 as [|w a Hc _ IH].
  - intros m b. simpl. lia.
  - now apply run_one_open_record_per_pair.
Qed.

(** * Further properties *)

(** ** The effect of a page *)

Lemma fetch_by_key db r info :
  well_formed db -> In r (borrowing db) ->
  Driver.fetchone
    (filter (fun x => Borrowing.BorrowID x =? Borrowing.BorrowID r)
            (borrowing db)) = Some info ->
  info = r.
Proof.
  intros Hwf Hin. rewrite (filter_unique Borrowing.BorrowID); trivial.
  - simpl. congruence.
  - apply (wf_borrow_ids Hwf).
Qed.

(** Under any behaviour of the driver a page has one of the effects. *)
Lemma run_effect (a : App.Action) (w : World) :
  well_formed (database w) ->
  page_effect false (CURRENT_DATE w) (database w)
              (database (snd (App.run a w))).
Proof.
  intros Hwf.
  destruct a as [title author year copies|name email phone|mp bp|pick];
    unfold App.run.
  - destruct (add_book_outcome title author year copies w)
      as [Hsame|(y & c & rows & n & Hc & Hq)].
    + now apply effect_none.
    + eapply effect_book_added; eauto.
  - destruct (add_member_outcome name email phone w)
      as [Hsame|(ph & rows & n & Hq)].
    + now apply effect_none.
    + eapply effect_member_added; eauto.
  - destruct (borrow_book_outcome mp bp w)
      as (_ & [(Hsame & _)
              |(m & id & w2 & Hdb & Hd & (bk & Hin & Hid & Hpos) & Hout)]).
    { now apply effect_none. }
    subst id.
    destruct Hout as [_ Hsame _| _ Hsame _|Hsame _|d1 rows n Hq Hsame _
                     |d1 rows n d2 rows' n' Hq1 Hq2 Hsame _];
      try (apply effect_none; congruence).
    + rewrite Hdb, Hd in Hq. rewrite Hsame.
      eapply effect_borrowed_half; eauto.
    + rewrite Hdb, Hd in Hq1. rewrite Hd in Hq2. rewrite Hsame.
      eapply effect_borrowed; eauto. discriminate.
  - destruct (return_book_outcome pick w)
      as (_ & [Hsame|(id & w1 & Hdb & Hd & (r & Hin & Hid & Hopen) & Hout)]).
    { now apply effect_none. }
    subst id.
    destruct Hout as [_ Hsame|Hsame _|info d1 rows n Hinfo Hq Hsame _
                     |info d1 rows n d2 rows' n' Hinfo Hq1 Hq2 Hsame _];
      try (apply effect_none; congruence).
    + rewrite Hdb, Hd in Hq. rewrite Hsame.
      eapply effect_returned_half; eauto. discriminate.
    + rewrite Hdb in Hinfo. rewrite Hdb, Hd in Hq1. rewrite Hd in Hq2.
      rewrite Hsame. apply (fetch_by_key _ _ _ Hwf Hin) in Hinfo. subst info.
      eapply effect_returned; eauto.
Qed.

(** What each statement does to the three tables. *)
Lemma insert_book_tables title author year copies today db db' rows n :
  Sql.insert_book title author year copies today db = Done db' rows n ->
  books db' = (books db ++
                 [Books.mk (next_BookID db) title author (Some year) copies
                           None None None])%list /\
  members db' = members db /\ borrowing db' = borrowing db /\
  copies <= INT_MAX.
Proof.
  unfold Sql.insert_book.
  destruct (is_INT year && is_INT copies) eqn:Hint; [|discriminate].
  apply andb_true_iff in Hint. destruct Hint as (_ & Hint).
  apply is_INT_bounds in Hint.
  intros H; inversion H; subst. simpl. repeat split; trivial. lia.
Qed.

Lemma insert_member_tables name email phone today db db' rows n :
  Sql.insert_member name email phone today db = Done db' rows n ->
  members db' = (members db ++
                   [Members.mk (next_MemberID db) name email phone None
                               today Active])%list /\
  books db' = books db /\ borrowing db' = borrowing db /\
  forall m, In m (members db) -> Members.Email m <> email.
Proof.
  unfold Sql.insert_member.
  destruct (existsb _ _) eqn:Hex; [discriminate|].
  intros H; inversion H; subst. simpl. repeat split; trivial.
  intros m Hin Heq.
  assert (existsb (fun m0 => String.eqb (Members.Email m0) email)
                  (members db) = true) as Habs.
  { apply existsb_exists. exists m. split; trivial. now apply String.eqb_eq. }
  congruence.
Qed.

Lemma insert_borrowing_refs member_id book_id today db db' rows n :
  Sql.insert_borrowing member_id book_id today db = Done db' rows n ->
  (exists m, In m (members db) /\ Members.MemberID m = member_id) /\
  (exists b, In b (books db) /\ Books.BookID b = book_id).
Proof.
  unfold Sql.insert_borrowing.
  destruct (existsb _ (members db)) eqn:Hm; [|discriminate].
  destruct (existsb _ (books db)) eqn:Hb; [|discriminate].
  intros _. apply existsb_exists in Hm, Hb.
  destruct Hm as (m & Hm & Hmid), Hb as (b & Hb & Hbid).
  apply Z.eqb_eq in Hmid, Hbid. split; eauto.
Qed.

Lemma update_return_date_members borrow_id today db db' rows n :
  Sql.update_return_date borrow_id today db = Done db' rows n ->
  members db' = members db.
Proof.
  unfold Sql.update_return_date. intros H; inversion H; subst. reflexivity.
Qed.

Lemma set_returned_cases today borrow_id r :
  (Borrowing.BorrowID r = borrow_id /\
   Sql.set_returned today borrow_id r = returned_on today r) \/
  (Borrowing.BorrowID r <> borrow_id /\
   Sql.set_returned today borrow_id r = r).
Proof.
  unfold Sql.set_returned, returned_on.
  destruct (Z.eqb_spec (Borrowing.BorrowID r) borrow_id); auto.
Qed.

(** ** The life of a record *)

(** No page deletes a Borrowing record or changes one that has been
    returned; an open record stays as it is or receives the current date
    as its return date. *)
Theorem record_kept_and_returned_once
  (a : App.Action) (w : World) (r : Borrowing.row) :
  reachable (database w) ->
  In r (borrowing (database w)) ->
  let db' := database (snd (App.run a w)) in
  (In r (borrowing db') \/
   Borrowing.ReturnDate r = None /\
   In (returned_on (CURRENT_DATE w) r) (borrowing db')) /\
  (Borrowing.ReturnDate r <> None -> In r (borrowing db')).
Proof.
  intros Hr Hin db'. apply reachable_well_formed in Hr.
  assert (In r (borrowing db') \/
          Borrowing.ReturnDate r = None /\
          In (returned_on (CURRENT_DATE w) r) (borrowing db')) as Hmain.
  { pose proof (run_effect a w Hr) as Heff. fold db' in Heff.
    assert (forall r0 d1,
              In r0 (borrowing (database w)) ->
              Borrowing.ReturnDate r0 = None ->
              borrowing d1 = map (Sql.set_returned (CURRENT_DATE w)
                                    (Borrowing.BorrowID r0))
                                 (borrowing (database w)) ->
              In r (borrowing d1) \/
              Borrowing.ReturnDate r = None /\
              In (returned_on (CURRENT_DATE w) r) (borrowing d1)) as Hret.
    { intros r0 d1 Hin0 Hopen Hmap. rewrite Hmap.
      destruct (set_returned_cases (CURRENT_DATE w) (Borrowing.BorrowID r0) r)
        as [(Hid & Heq)|(Hid & Heq)].
      - right. assert (r = r0) as ->.
        { apply (NoDup_map_inj Borrowing.BorrowID (borrowing (database w)));
            trivial. apply (wf_borrow_ids Hr). }
        split; trivial. rewrite <- Heq. now apply in_map.
      - left. rewrite <- Heq. now apply in_map. }
    destruct Heff as [Hsame
      |title author year copies rows n _ Hq
      |name email phone rows n Hq
      |m b d1 rows n rows' n' _ _ _ Hq1 Hq2
      |m b rows n _ _ _ Hq
      |r0 d1 rows n rows' n' Hin0 Hopen Hq1 Hq2
      |r0 rows n Hin0 Hopen Hq _].
    - left. now rewrite Hsame.
    - apply insert_book_borrowing in Hq. left. now rewrite Hq.
    - apply insert_member_borrowing in Hq. left. now rewrite Hq.
    - apply insert_borrowing_books in Hq1. destruct Hq1 as (_ & Hb1).
      apply update_available_copies_books in Hq2. destruct Hq2 as (_ & Hb2).
      left. rewrite Hb2, Hb1. apply in_or_app. now left.
    - apply insert_borrowing_books in Hq. destruct Hq as (_ & Hb1).
      left. rewrite Hb1. apply in_or_app. now left.
    - apply update_return_date_books in Hq1. destruct Hq1 as (_ & Hb1).
      apply update_available_copies_books in Hq2. destruct Hq2 as (_ & Hb2).
      rewrite Hb2. rewrite <- Hb2. apply (Hret r0 db'); trivial. congruence.
    - apply update_return_date_books in Hq. destruct Hq as (_ & Hb1).
      apply (Hret r0 db'); trivial. }
  split; trivial. intros Hset. destruct Hmain as [?|(? & _)]; [assumption|].
  contradiction.
Qed.

Lemma record_kept_and_returned_once_witness :
  (In (Borrowing.mk 1 1 1 0 None None) (borrowing (database brought_back)) \/
   Borrowing.ReturnDate (Borrowing.mk 1 1 1 0 None None) = None /\
   In (returned_on 0 (Borrowing.mk 1 1 1 0 None None))
      (borrowing (database brought_back))) /\
  (Borrowing.ReturnDate (Borrowing.mk 1 1 1 0 None None) <> None ->
   In (Borrowing.mk 1 1 1 0 None None) (borrowing (database brought_back))).
Proof.
  apply (record_kept_and_returned_once (App.ReturnBook 0) lent
           (Borrowing.mk 1 1 1 0 None None)).
  - exact lent_reachable.
  - vm_compute. left. reflexivity.
Defined.

(** No record ever has a due date, so that none is ever overdue. *)
Theorem due_date_never_set (db : DB) :
  reachable db ->
  forall r, In r (borrowing db) ->
    Borrowing.DueDate r = None /\
    forall today, Borrowing.Status today r <> Overdue.
Proof.
  intros Hr.
  assert (forall r, In r (borrowing db) -> Borrowing.DueDate r = None) as Hdue.
  { induction Hr as [|w a Hr IH]; [intros r []|].
    pose proof (run_effect a w (reachable_well_formed _ Hr)) as Heff.
    set (db' := database (snd (App.run a w))) in *.
    assert (forall d1 id,
              borrowing d1 = map (Sql.set_returned (CURRENT_DATE w) id)
                                 (borrowing (database w)) ->
              forall r, In r (borrowing d1) -> Borrowing.DueDate r = None)
      as Hret.
    { intros d1 id Hmap r Hin. rewrite Hmap in Hin.
      apply in_map_iff in Hin. destruct Hin as (r0 & <- & Hin0).
      apply IH in Hin0. unfold Sql.set_returned.
      destruct (Borrowing.BorrowID r0 =? id); trivial. }
    assert (forall d1 m b,
              borrowing d1 =
                (borrowing (database w) ++
                   [Borrowing.mk (next_BorrowID (database w)) m b
                                 (CURRENT_DATE w) None None])%list ->
              forall r, In r (borrowing d1) -> Borrowing.DueDate r = None)
      as Hins.
    { intros d1 m b Happ r Hin. rewrite Happ in Hin.
      apply in_app_iff in Hin. destruct Hin as [Hin|[<-|[]]]; auto. }
    destruct Heff as [Hsame
      |title author year copies rows n _ Hq
      |name email phone rows n Hq
      |m b d1 rows n rows' n' _ _ _ Hq1 Hq2
      |m b rows n _ _ _ Hq
      |r0 d1 rows n rows' n' Hin0 Hopen Hq1 Hq2
      |r0 rows n Hin0 Hopen Hq _].
    - now rewrite Hsame.
    - apply insert_book_borrowing in Hq. now rewrite Hq.
    - apply insert_member_borrowing in Hq. now rewrite Hq.
    - apply insert_borrowing_books in Hq1. destruct Hq1 as (_ & Hb1).
      apply update_available_copies_books in Hq2. destruct Hq2 as (_ & Hb2).
      eapply Hins. rewrite Hb2. exact Hb1.
    - apply insert_borrowing_books in Hq. destruct Hq as (_ & Hb1).
      eapply Hins. exact Hb1.
    - apply update_return_date_books in Hq1. destruct Hq1 as (_ & Hb1).
      apply update_available_copies_books in Hq2. destruct Hq2 as (_ & Hb2).
      eapply Hret. rewrite Hb2. exact Hb1.
    - apply update_return_date_books in Hq. destruct Hq as (_ & Hb1).
      eapply Hret. exact Hb1. }
  intros r Hin. split; [now apply Hdue|].
  intros today. unfold Borrowing.Status. rewrite (Hdue r Hin).
  destruct (Borrowing.ReturnDate r); discriminate.
Qed.

Lemma due_date_never_set_witness :
  Borrowing.DueDate (Borrowing.mk 1 1 1 0 None None) = None /\
  forall today,
    Borrowing.Status today (Borrowing.mk 1 1 1 0 None None) <> Overdue.
Proof.
  apply (due_date_never_set (database lent)).
  - exact lent_reachable.
  - vm_compute. left. reflexivity.
Defined.

(** ** References between the tables *)

Lemma add_copies_id delta book_id b :
  Books.BookID (Sql.add_copies delta book_id b) = Books.BookID b.
Proof.
  unfold Sql.add_copies. destruct (Books.BookID b =? book_id); reflexivity.
Qed.

Lemma set_returned_refs today borrow_id r :
  Borrowing.MemberID (Sql.set_returned today borrow_id r)
    = Borrowing.MemberID r /\
  Borrowing.BookID (Sql.set_returned today borrow_id r) = Borrowing.BookID r /\
  Borrowing.BorrowID (Sql.set_returned today borrow_id r)
    = Borrowing.BorrowID r.
Proof.
  unfold Sql.set_returned.
  destruct (Borrowing.BorrowID r =? borrow_id); auto.
Qed.

Lemma insert_book_referential title author year copies today db db' rows n :
  referential_integrity db ->
  Sql.insert_book title author year copies today db = Done db' rows n ->
  referential_integrity db'.
Proof.
  intros Href Hq r Hin. apply insert_book_tables in Hq.
  destruct Hq as (Hb & Hm & Hr & _). rewrite Hr in Hin.
  destruct (Href r Hin) as ((m & Hmin & Hmid) & (b & Hbin & Hbid)).
  split.
  - exists m. rewrite Hm. auto.
  - exists b. rewrite Hb. split; trivial. apply in_or_app. now left.
Qed.

Lemma insert_member_referential name email phone today db db' rows n :
  referential_integrity db ->
  Sql.insert_member name email phone today db = Done db' rows n ->
  referential_integrity db'.
Proof.
  intros Href Hq r Hin. apply insert_member_tables in Hq.
  destruct Hq as (Hm & Hb & Hr & _). rewrite Hr in Hin.
  destruct (Href r Hin) as ((m & Hmin & Hmid) & (b & Hbin & Hbid)).
  split.
  - exists m. rewrite Hm. split; trivial. apply in_or_app. now left.
  - exists b. rewrite Hb. auto.
Qed.

Lemma insert_borrowing_referential member_id book_id today db db' rows n :
  referential_integrity db ->
  Sql.insert_borrowing member_id book_id today db = Done db' rows n ->
  referential_integrity db'.
Proof.
  intros Href Hq r Hin.
  pose proof (insert_borrowing_refs _ _ _ _ _ _ _ Hq) as Hnew.
  pose proof (insert_borrowing_members _ _ _ _ _ _ _ Hq) as Hm.
  apply insert_borrowing_books in Hq. destruct Hq as (Hb & Hr).
  rewrite Hm, Hb. rewrite Hr in Hin. apply in_app_iff in Hin.
  destruct Hin as [Hin|[<-|[]]]; [now apply Href | exact Hnew].
Qed.

Lemma update_available_copies_referential
  delta book_id today db db' rows n :
  referential_integrity db ->
  Sql.update_available_copies delta book_id today db = Done db' rows n ->
  referential_integrity db'.
Proof.
  intros Href Hq r Hin.
  pose proof (update_available_copies_members _ _ _ _ _ _ _ Hq) as Hm.
  apply update_available_copies_books in Hq. destruct Hq as (Hb & Hr).
  rewrite Hr in Hin.
  destruct (Href r Hin) as ((m & Hmin & Hmid) & (b & Hbin & Hbid)).
  split.
  - exists m. rewrite Hm. auto.
  - exists (Sql.add_copies delta book_id b). rewrite Hb, add_copies_id.
    split; trivial. now apply in_map.
Qed.

Lemma update_return_date_referential borrow_id today db db' rows n :
  referential_integrity db ->
  Sql.update_return_date borrow_id today db = Done db' rows n ->
  referential_integrity db'.
Proof.
  intros Href Hq r Hin.
  pose proof (update_return_date_members _ _ _ _ _ _ Hq) as Hm.
  apply update_return_date_books in Hq. destruct Hq as (Hb & Hr).
  rewrite Hr in Hin. apply in_map_iff in Hin.
  destruct Hin as (r0 & <- & Hin0).
  destruct (set_returned_refs today borrow_id r0) as (-> & -> & _).
  rewrite Hm, Hb. now apply Href.
Qed.

Lemma page_effect_referential quiet today db db' :
  page_effect quiet today db db' ->
  referential_integrity db -> referential_integrity db'.
Proof.
  intros Heff Href.
  destruct Heff as [Hsame
    |title author year copies rows n _ Hq
    |name email phone rows n Hq
    |m b d1 rows n rows' n' _ _ _ Hq1 Hq2
    |m b rows n _ _ _ Hq
    |r0 d1 rows n rows' n' Hin0 Hopen Hq1 Hq2
    |r0 rows n Hin0 Hopen Hq _].
  - now rewrite Hsame.
  - eapply insert_book_referential; eauto.
  - eapply insert_member_referential; eauto.
  - eapply update_available_copies_referential; [|exact Hq2].
    eapply insert_borrowing_referential; eauto.
  - eapply insert_borrowing_referential; eauto.
  - eapply update_available_copies_referential; [|exact Hq2].
    eapply update_return_date_referential; eauto.
  - eapply update_return_date_referential; eauto.
Qed.

Lemma references_never_dangle_aux (db : DB) :
  reachable db -> referential_integrity db.
Proof.
  induction 1 as [|w a Hr IH].
  - intros r [].
  - eapply page_effect_referential; eauto.
    apply run_effect. now apply reachable_well_formed.
Qed.

(** Every Borrowing record refers to a member and to a book that the
    tables hold: the application deletes neither. *)
Theorem references_never_dangle (db : DB) (r : Borrowing.row) :
  reachable db ->
  In r (borrowing db) ->
  (exists m, In m (members db)
             /\ Members.MemberID m = Borrowing.MemberID r) /\
  (exists b, In b (books db) /\ Books.BookID b = Borrowing.BookID r).
Proof.
  intros Hr. now apply references_never_dangle_aux.
Qed.

Lemma references_never_dangle_witness :
  (exists m, In m (members (database lent)) /\ Members.MemberID m = 1) /\
  (exists b, In b (books (database lent)) /\ Books.BookID b = 1).
Proof.
  apply (references_never_dangle (database lent)
           (Borrowing.mk 1 1 1 0 None None)).
  - exact lent_reachable.
  - vm_compute. left. reflexivity.
Defined.

(** ** The pages under a calm driver *)

(** Runs the next [execute_query] of the goal under the calm driver of
    [Hc], by [execute_query_calm]. *)
Ltac calm_exec Hc w1 Hc1 Hd1 Hx :=
  match goal with
  | |- context [App.execute_query ?q ?f ?fa ?w] =>
      destruct (execute_query_calm q f fa w Hc) as (w1 & Hc1 & Hd1 & Hx)
  end.

Lemma on_borrow_book_calm_effect member_id book_id w :
  calm w = true ->
  let w' := snd (App.on_borrow_book (Some member_id) (Some book_id) w) in
  database w' = database w \/
  open_records member_id book_id (database w) = [] /\
  exists d1 rows n,
    Sql.insert_borrowing member_id book_id (CURRENT_DATE w) (database w)
      = Done d1 rows n /\
    ((exists rows' n',
        Sql.decrement_available_copies book_id (CURRENT_DATE w) d1
          = Done (database w') rows' n') \/
     (database w' = d1 /\
      exists e, Sql.decrement_available_copies book_id (CURRENT_DATE w) d1
                = Rejected e)).
Proof.
  intros Hc. unfold App.on_borrow_book, truthy, Truthy_int.
  destruct (Z.eqb_spec member_id 0) as [Hm|Hm]; simpl; [now left|].
  destruct (Z.eqb_spec book_id 0) as [Hb|Hb]; simpl; [now left|].
  unfold bind.
  destruct (select_calm
              (fun db => filter (fun r => (Borrowing.MemberID r =? member_id)
                                          && (Borrowing.BookID r =? book_id)
                                          && Borrowing.is_open r)
                                (borrowing db)) false w Hc)
    as (w1 & Hrun & Hc1 & Hdb1 & Hd1).
  fold (Sql.select_open_borrowing member_id book_id) in Hrun.
  fold (open_records member_id book_id (database w)) in Hrun.
  rewrite Hrun. simpl.
  destruct (open_records member_id book_id (database w)) as [|r0 rs] eqn:Hopen;
    simpl; [|now left].
  calm_exec Hc1 w2 Hc2 Hd2 Hx2. rewrite Hd1, Hdb1 in Hx2.
  destruct (Sql.insert_borrowing member_id book_id (CURRENT_DATE w)
                                 (database w)) as [e|d1 rows n] eqn:Hq1;
    destruct Hx2 as (Hrun2 & Hdb2 & _); rewrite Hrun2; simpl.
  { left. congruence. }
  calm_exec Hc2 w3 Hc3 Hd3 Hx3. rewrite Hd2, Hd1, Hdb2 in Hx3.
  right. split; trivial. exists d1, rows, n. split; trivial.
  destruct (Sql.decrement_available_copies book_id (CURRENT_DATE w) d1)
    as [e|d2 rows' n'] eqn:Hq2;
    destruct Hx3 as (Hrun3 & Hdb3 & _); rewrite Hrun3; simpl.
  - right. split; eauto.
  - left. exists rows', n'. now rewrite Hdb3.
Qed.

Lemma on_return_book_calm_effect borrow_id w :
  calm w = true ->
  let w' := snd (App.on_return_book (Some borrow_id) w) in
  database w' = database w \/
  exists info d1 rows n,
    Driver.fetchone
      (filter (fun r => Borrowing.BorrowID r =? borrow_id)
              (borrowing (database w))) = Some info /\
    Sql.update_return_date borrow_id (CURRENT_DATE w) (database w)
      = Done d1 rows n /\
    ((exists rows' n',
        Sql.increment_available_copies (Borrowing.BookID info)
          (CURRENT_DATE w) d1 = Done (database w') rows' n') \/
     (database w' = d1 /\
      exists e, Sql.increment_available_copies (Borrowing.BookID info)
                  (CURRENT_DATE w) d1 = Rejected e)).
Proof.
  intros Hc.
  unfold App.on_return_book, truthy, Truthy_optional, truthy, Truthy_int.
  destruct (Z.eqb_spec borrow_id 0) as [Hz|Hz]; simpl; [now left|].
  unfold bind.
  destruct (select_calm
              (fun db => filter (fun r => Borrowing.BorrowID r =? borrow_id)
                                (borrowing db)) false w Hc)
    as (w1 & Hrun & Hc1 & Hdb1 & Hd1).
  fold (Sql.select_borrowing_by_id borrow_id) in Hrun.
  rewrite Hrun. simpl.
  destruct (Driver.fetchone _) as [info|] eqn:Hinfo; simpl; [|now left].
  unfold Truthy_Borrowing.
  calm_exec Hc1 w2 Hc2 Hd2 Hx2. rewrite Hd1, Hdb1 in Hx2.
  destruct (Sql.update_return_date borrow_id (CURRENT_DATE w) (database w))
    as [e|d1 rows n] eqn:Hq1;
    destruct Hx2 as (Hrun2 & Hdb2 & _); rewrite Hrun2; simpl.
  { left. congruence. }
  calm_exec Hc2 w3 Hc3 Hd3 Hx3. rewrite Hd2, Hd1, Hdb2 in Hx3.
  right. exists info, d1, rows, n. split; trivial. split; trivial.
  destruct (Sql.increment_available_copies (Borrowing.BookID info)
                                           (CURRENT_DATE w) d1)
    as [e|d2 rows' n'] eqn:Hq2;
    destruct Hx3 as (Hrun3 & Hdb3 & _); rewrite Hrun3; simpl.
  - right. split; eauto.
  - left. exists rows', n'. now rewrite Hdb3.
Qed.

Lemma update_available_copies_accepts delta book_id today db :
  (forall b, In b (books db) -> Books.BookID b = book_id ->
             INT_MIN <= Books.AvailableCopies b + delta <= INT_MAX) ->
  exists db' rows n,
    Sql.update_available_copies delta book_id today db = Done db' rows n.
Proof.
  intros Hroom. unfold Sql.update_available_copies.
  assert (forallb (fun b => is_INT (Books.AvailableCopies b + delta))
            (filter (fun b => Books.BookID b =? book_id) (books db)) = true)
    as ->.
  { apply forallb_forall. intros b Hb. apply filter_In in Hb.
    destruct Hb as (Hb & Hid). apply Z.eqb_eq in Hid.
    specialize (Hroom b Hb Hid). unfold is_INT.
    apply andb_true_iff. split; apply Z.leb_le; lia. }
  eauto.
Qed.

(** Under a calm driver a page has one of the effects that a calm driver
    allows. *)
Lemma run_effect_calm (a : App.Action) (w : World) :
  calm w = true ->
  well_formed (database w) ->
  page_effect true (CURRENT_DATE w) (database w)
              (database (snd (App.run a w))).
Proof.
  intros Hc Hwf.
  destruct a as [title author year copies|name email phone|mp bp|pick];
    unfold App.run.
  - destruct (add_book_outcome title author year copies w)
      as [Hsame|(y & c & rows & n & Hcp & Hq)].
    + now apply effect_none.
    + eapply effect_book_added; eauto.
  - destruct (add_member_outcome name email phone w)
      as [Hsame|(ph & rows & n & Hq)].
    + now apply effect_none.
    + eapply effect_member_added; eauto.
  - unfold App.borrow_book, bind.
    destruct (select_member_calm mp w Hc) as (Hc1 & Hdb1 & Hd1).
    destruct (App.select_member mp w) as [member_id w1]. simpl in *.
    destruct (select_book_calm bp w1 Hc1) as (Hc2 & Hdb2 & Hd2).
    pose proof (select_book_offer bp w1) as Hoffer.
    destruct (App.select_book bp w1) as [book_id w2]. simpl in *.
    destruct Hoffer as (_ & _ & Hoffer).
    assert (database w2 = database w) as Hdb by congruence.
    assert (CURRENT_DATE w2 = CURRENT_DATE w) as Hd by congruence.
    destruct member_id as [member_id|], book_id as [book_id|];
      try (simpl; apply effect_none; exact Hdb).
    destruct (Hoffer _ eq_refl) as (b & Hin & Hid & Hpos).
    rewrite Hdb1 in Hin. subst book_id.
    destruct (on_borrow_book_calm_effect member_id (Books.BookID b) w2 Hc2)
      as [Hsame|(Hnone & d1 & rows & n & Hq1 & Hq2)].
    { apply effect_none. congruence. }
    rewrite Hdb in Hnone. rewrite Hdb, Hd in Hq1. rewrite Hd in Hq2.
    destruct Hq2 as [(rows' & n' & Hq2)|(_ & e & Hq2)].
    + eapply effect_borrowed; eauto.
    + exfalso.
      destruct (update_available_copies_accepts (-1) (Books.BookID b)
                  (CURRENT_DATE w) d1) as (d2 & rows' & n' & Hdone).
      * intros b0 Hb0 _.
        apply insert_borrowing_books in Hq1. destruct Hq1 as (Hb1 & _).
        rewrite Hb1 in Hb0. apply (wf_copies Hwf) in Hb0.
        unfold INT_MIN, INT_MAX in *. lia.
      * unfold Sql.decrement_available_copies in Hq2. congruence.
  - unfold App.return_book, bind.
    calm_exec Hc w1 Hc1 Hd1 Hx1.
    destruct (Sql.select_borrowed_books (CURRENT_DATE w) (database w))
      as [e|after rows n] eqn:Hq; [discriminate Hq|].
    destruct Hx1 as (Hrun & Hdb1 & _). rewrite Hrun. simpl in *.
    destruct rows as [|row offered]; simpl; [apply effect_none; exact Hdb1|].
    destruct (App.chosen _ _) as [borrow_id|] eqn:Hid;
      [|simpl; apply effect_none; exact Hdb1].
    apply chosen_dict_of in Hid. destruct Hid as (x & Hx & Hxid).
    destruct (select_borrowed_books_open _ _ _ _ _ _ Hq Hx)
      as (_ & r & Hin & Hrid & Hopen).
    assert (borrow_id = Borrowing.BorrowID r) as -> by congruence.
    destruct (on_return_book_calm_effect (Borrowing.BorrowID r) w1 Hc1)
      as [Hsame|(info & d1 & rows1 & n1 & Hinfo & Hq1 & Hq2)].
    { apply effect_none. congruence. }
    rewrite Hdb1 in Hinfo. rewrite Hdb1, Hd1 in Hq1. rewrite Hd1 in Hq2.
    apply (fetch_by_key _ _ _ Hwf Hin) in Hinfo. subst info.
    destruct Hq2 as [(rows' & n' & Hq2)|(Hsame & e & Hq2)].
    + eapply effect_returned; eauto.
    + rewrite Hsame. eapply effect_returned_half; eauto.
Qed.

(** ** Copies on the shelf and copies out *)

Lemma on_loan_same book_id db db' :
  borrowing db' = borrowing db -> on_loan book_id db' = on_loan book_id db.
Proof. unfold on_loan. now intros ->. Qed.

Lemma on_loan_snoc book_id db db' r :
  borrowing db' = (borrowing db ++ [r])%list ->
  on_loan book_id db' =
  on_loan book_id db
  + (if (Borrowing.BookID r =? book_id) && Borrowing.is_open r then 1 else 0).
Proof.
  unfold on_loan. intros ->. rewrite filter_snoc, length_app.
  destruct ((Borrowing.BookID r =? book_id) && Borrowing.is_open r); simpl;
    lia.
Qed.

Lemma map_set_returned_split today r0 (l : list Borrowing.row) :
  NoDup (map Borrowing.BorrowID l) -> In r0 l ->
  exists l1 l2,
    l = (l1 ++ r0 :: l2)%list /\
    map (Sql.set_returned today (Borrowing.BorrowID r0)) l
    = (l1 ++ returned_on today r0 :: l2)%list.
Proof.
  intros Hnd Hin. apply in_split in Hin. destruct Hin as (l1 & l2 & ->).
  exists l1, l2. split; trivial.
  rewrite map_app in Hnd. simpl in Hnd.
  apply NoDup_remove_2 in Hnd.
  rewrite map_app. simpl. f_equal; [|f_equal].
  - rewrite <- (map_id l1) at 2. apply map_ext_in. intros a Ha.
    destruct (set_returned_cases today (Borrowing.BorrowID r0) a)
      as [(Hid & _)|(_ & Heq)]; trivial.
    exfalso. apply Hnd. apply in_or_app. left. rewrite <- Hid.
    now apply in_map.
  - destruct (set_returned_cases today (Borrowing.BorrowID r0) r0)
      as [(_ & Heq)|(Hid & _)]; [assumption | congruence].
  - rewrite <- (map_id l2) at 2. apply map_ext_in. intros a Ha.
    destruct (set_returned_cases today (Borrowing.BorrowID r0) a)
      as [(Hid & _)|(_ & Heq)]; trivial.
    exfalso. apply Hnd. apply in_or_app. right. rewrite <- Hid.
    now apply in_map.
Qed.

Lemma on_loan_returned book_id today db db' r0 :
  well_formed db -> In r0 (borrowing db) ->
  Borrowing.ReturnDate r0 = None ->
  borrowing db' = map (Sql.set_returned today (Borrowing.BorrowID r0))
                      (borrowing db) ->
  on_loan book_id db' =
  on_loan book_id db - (if Borrowing.BookID r0 =? book_id then 1 else 0).
Proof.
  intros Hwf Hin Hopen Hmap. unfold on_loan. rewrite Hmap.
  destruct (map_set_returned_split today r0 (borrowing db)
              (wf_borrow_ids Hwf) Hin) as (l1 & l2 & Hsplit & ->).
  rewrite Hsplit. rewrite !filter_app, !length_app. simpl.
  assert (Borrowing.is_open (returned_on today r0) = false) as ->
    by reflexivity.
  assert (Borrowing.is_open r0 = true) as ->
    by (unfold Borrowing.is_open; now rewrite Hopen).
  rewrite andb_false_r, andb_true_r.
  destruct (Borrowing.BookID r0 =? book_id); simpl; lia.
Qed.

Lemma on_loan_at_least_one db r :
  In r (borrowing db) -> Borrowing.ReturnDate r = None ->
  1 <= on_loan (Borrowing.BookID r) db.
Proof.
  intros Hin Hopen. unfold on_loan.
  assert (In r (filter (fun x => (Borrowing.BookID x =? Borrowing.BookID r)
                                 && Borrowing.is_open x) (borrowing db)))
    as Hf.
  { apply filter_In. split; trivial. rewrite Z.eqb_refl.
    unfold Borrowing.is_open. now rewrite Hopen. }
  destruct (filter _ _); [destruct Hf | simpl; lia].
Qed.

Lemma on_loan_of_new_book db :
  well_formed db -> referential_integrity db ->
  on_loan (next_BookID db) db = 0.
Proof.
  intros Hwf Href. unfold on_loan. rewrite filter_nothing; trivial.
  intros r Hin. destruct (Href r Hin) as (_ & b & Hb & Hid).
  apply (wf_book_next Hwf) in Hb.
  destruct (Z.eqb_spec (Borrowing.BookID r) (next_BookID db)); trivial. lia.
Qed.

(** What a calm page does to the stock of each book. *)
Lemma page_effect_stock today db db' :
  page_effect true today db db' ->
  well_formed db -> referential_integrity db ->
  (forall b, In b (books db) -> stock b db <= INT_MAX) ->
  (forall b, In b (books db) ->
     exists b', In b' (books db') /\ Books.BookID b' = Books.BookID b
                /\ stock b' db' = stock b db) /\
  (forall b', In b' (books db') -> stock b' db' <= INT_MAX).
Proof.
  intros Heff Hwf Href Hmax.
  assert (forall d (f : Books.row -> Books.row),
            (forall b, In b (books db) ->
               Books.BookID (f b) = Books.BookID b
               /\ stock (f b) d = stock b db) ->
            books d = map f (books db) ->
            (forall b, In b (books db) ->
               exists b', In b' (books d) /\ Books.BookID b' = Books.BookID b
                          /\ stock b' d = stock b db) /\
            (forall b', In b' (books d) -> stock b' d <= INT_MAX)) as Hmap.
  { intros d f Hf Hbooks. split.
    - intros b Hb. exists (f b). rewrite Hbooks. destruct (Hf b Hb).
      repeat split; trivial. now apply in_map.
    - intros b' Hb'. rewrite Hbooks in Hb'. apply in_map_iff in Hb'.
      destruct Hb' as (b & <- & Hb). destruct (Hf b Hb) as (_ & ->). auto. }
  destruct Heff as [Hsame
    |title author year copies rows n _ Hq
    |name email phone rows n Hq
    |m b0 d1 rows n rows' n' Hb0 Hpos _ Hq1 Hq2
    |m b0 rows n Hquiet _ _ _
    |r0 d1 rows n rows' n' Hin0 Hopen Hq1 Hq2
    |r0 rows n Hin0 Hopen Hq Hfull].
  - subst db'. split; eauto.
  - apply insert_book_tables in Hq. destruct Hq as (Hb & _ & Hr & Hcp).
    assert (forall b, stock b db' = stock b db) as Hst
      by (intros b; unfold stock; now rewrite (on_loan_same _ _ _ Hr)).
    split.
    + intros b Hin. exists b. rewrite Hb, Hst. repeat split; trivial.
      apply in_or_app. now left.
    + intros b' Hin. rewrite Hb in Hin. rewrite Hst.
      apply in_app_iff in Hin. destruct Hin as [Hin|[<-|[]]]; auto.
      unfold stock. simpl. rewrite on_loan_of_new_book; trivial. lia.
  - apply insert_member_tables in Hq. destruct Hq as (_ & Hb & Hr & _).
    assert (forall b, stock b db' = stock b db) as Hst
      by (intros b; unfold stock; now rewrite (on_loan_same _ _ _ Hr)).
    rewrite Hb. split.
    + intros b Hin. exists b. rewrite Hst. auto.
    + intros b' Hin. rewrite Hst. auto.
  - apply insert_borrowing_books in Hq1. destruct Hq1 as (Hb1 & Hr1).
    apply update_available_copies_books in Hq2. destruct Hq2 as (Hb2 & Hr2).
    apply (Hmap db' (Sql.add_copies (-1) (Books.BookID b0))); [|congruence].
    intros b Hb. rewrite add_copies_id. split; trivial.
    unfold stock. rewrite add_copies_id.
    rewrite (on_loan_same _ _ _ Hr2), (on_loan_snoc _ _ _ _ Hr1). simpl.
    unfold Sql.add_copies. rewrite andb_true_r.
    rewrite (Z.eqb_sym (Books.BookID b0)).
    destruct (Books.BookID b =? Books.BookID b0); simpl; lia.
  - discriminate.
  - apply update_return_date_books in Hq1. destruct Hq1 as (Hb1 & Hr1).
    apply update_available_copies_books in Hq2. destruct Hq2 as (Hb2 & Hr2).
    apply (Hmap db' (Sql.add_copies 1 (Borrowing.BookID r0))); [|congruence].
    intros b Hb. rewrite add_copies_id. split; trivial.
    unfold stock. rewrite add_copies_id.
    rewrite (on_loan_same _ _ _ Hr2).
    rewrite (on_loan_returned _ _ _ _ _ Hwf Hin0 Hopen Hr1).
    unfold Sql.add_copies. rewrite (Z.eqb_sym (Borrowing.BookID r0)).
    destruct (Books.BookID b =? Borrowing.BookID r0); simpl; lia.
  - exfalso. destruct (Hfull eq_refl) as (e & Hrej).
    apply update_return_date_books in Hq. destruct Hq as (Hb1 & _).
    destruct (update_available_copies_accepts 1 (Borrowing.BookID r0)
                today db') as (d2 & rows' & n' & Hdone).
    + intros b Hb Hid. rewrite Hb1 in Hb.
      pose proof (Hmax b Hb) as Hs. unfold stock in Hs. rewrite Hid in Hs.
      pose proof (on_loan_at_least_one db r0 Hin0 Hopen).
      apply (wf_copies Hwf) in Hb. unfold INT_MIN, INT_MAX in *. lia.
    + unfold Sql.increment_available_copies in Hrej. congruence.
Qed.

Lemma reachable_calmly_reachable db : reachable_calmly db -> reachable db.
Proof.
  induction 1 as [|w a _ _ IH]; [apply reachable_empty|].
  now apply reachable_step.
Qed.

Lemma stock_within_INT db :
  reachable_calmly db -> forall b, In b (books db) -> stock b db <= INT_MAX.
Proof.
  induction 1 as [|w a Hc Hr IH]; [intros b []|].
  pose proof (reachable_calmly_reachable _ Hr) as Hreach.
  apply (page_effect_stock (CURRENT_DATE w) (database w)); trivial.
  - apply run_effect_calm; trivial. now apply reachable_well_formed.
  - now apply reachable_well_formed.
  - now apply references_never_dangle_aux.
Qed.

(** While the driver is calm, no page changes the stock of a book, the
    copies on the shelf and the copies out taken together: borrowing
    moves one copy out and returning moves one back. *)
Theorem stock_is_conserved (a : App.Action) (w : World) (b : Books.row) :
  reachable_calmly (database w) ->
  calm w = true ->
  In b (books (database w)) ->
  let db' := database (snd (App.run a w)) in
  exists b',
    In b' (books db') /\ Books.BookID b' = Books.BookID b /\
    Books.AvailableCopies b' + on_loan (Books.BookID b) db'
    = Books.AvailableCopies b + on_loan (Books.BookID b) (database w).
Proof.
  intros Hr Hc Hin db'.
  pose proof (reachable_calmly_reachable _ Hr) as Hreach.
  destruct (page_effect_stock (CURRENT_DATE w) (database w) db') as (H & _).
  - apply run_effect_calm; trivial. now apply reachable_well_formed.
  - now apply reachable_well_formed.
  - now apply references_never_dangle_aux.
  - now apply stock_within_INT.
  - destruct (H b Hin) as (b' & Hin' & Hid & Hst). exists b'.
    unfold stock in Hst. rewrite Hid in Hst. auto.
Qed.

Lemma lent_reachable_calmly : reachable_calmly (database lent).
Proof.
  unfold lent, enrolled, stocked.
  repeat (apply calmly_step; [reflexivity|]). apply calmly_empty.
Qed.

Lemma stock_is_conserved_witness :
  exists b',
    In b' (books (database brought_back)) /\ Books.BookID b' = 1 /\
    Books.AvailableCopies b' + on_loan 1 (database brought_back) = 3 + 1.
Proof.
  apply (stock_is_conserved (App.ReturnBook 0) lent
           (Books.mk 1 "1984" "Orwell" (Some 1949) 3 None None None)).
  - exact lent_reachable_calmly.
  - reflexivity.
  - vm_compute. left. reflexivity.
Defined.

(** ** Adding members and books *)

(** Add Member reports success only for a name that is not empty and an
    email that contains "@" and "." and that no member has; it has then
    appended exactly one member, active, who joined today and has no phone
    number when none was entered, and has left the other tables alone. *)
Theorem add_member_success (name email phone : string) (w : World) :
  let w' := snd (App.add_member name email phone true w) in
  shown w' = Some MemberAdded ->
  truthy name = true /\
  contains "@" email = true /\ contains "." email = true /\
  (forall m, In m (members (database w)) -> Members.Email m <> email) /\
  members (database w') =
    (members (database w) ++
       [Members.mk (next_MemberID (database w)) name email
                   (if truthy phone then Some phone else None) None
                   (CURRENT_DATE w) Active])%list /\
  books (database w') = books (database w) /\
  borrowing (database w') = borrowing (database w).
Proof.
  unfold App.add_member.
  destruct (truthy name) eqn:Hn; simpl; [|discriminate].
  destruct (truthy email) eqn:He; simpl; [|discriminate].
  destruct (contains "@" email) eqn:Hat; simpl; [|discriminate].
  destruct (contains "." email) eqn:Hdot; simpl; [|discriminate].
  unfold bind. exec H. destruct H as (Hd & H).
  destruct H as [(-> & Hdb)|(d1 & rows & n & Hq & -> & Hdb)]; simpl;
    [discriminate|].
  intros _. apply insert_member_tables in Hq.
  destruct Hq as (Hm & Hb & Hr & Hfresh). subst d1. auto 10.
Qed.

Lemma add_member_success_witness :
  truthy "Ann" = true /\
  contains "@" "ann@example.org" = true /\
  contains "." "ann@example.org" = true /\
  (forall m, In m (members (database stocked)) ->
             Members.Email m <> "ann@example.org") /\
  members (database enrolled) =
    (members (database stocked) ++
       [Members.mk 1 "Ann" "ann@example.org" None None 0 Active])%list /\
  books (database enrolled) = books (database stocked) /\
  borrowing (database enrolled) = borrowing (database stocked).
Proof.
  apply (add_member_success "Ann" "ann@example.org" "" stocked).
  reflexivity.
Defined.

(** Add Member under an email that a member has is rejected whatever the
    driver does: the tables are unchanged, success is not reported, and for
    a well-formed entry the failure is. *)
Theorem add_member_registered_email_rejected
  (name email phone : string) (w : World) (m : Members.row) :
  In m (members (database w)) ->
  Members.Email m = email ->
  let w' := snd (App.add_member name email phone true w) in
  database w' = database w /\
  shown w' <> Some MemberAdded /\
  (truthy name = true -> contains "@" email = true ->
   contains "." email = true -> shown w' = Some AddMemberFailed).
Proof.
  intros Hin Hemail. unfold App.add_member.
  destruct (truthy name) eqn:Hn; simpl;
    [|repeat split; trivial; intros; discriminate].
  destruct (truthy email) eqn:He; simpl.
  2: { repeat split; trivial; try discriminate.
       intros _ Hat. destruct email; discriminate. }
  destruct (contains "@" email) eqn:Hat; simpl;
    [|repeat split; trivial; intros; discriminate].
  destruct (contains "." email) eqn:Hdot; simpl;
    [|repeat split; trivial; intros; discriminate].
  unfold bind. exec H. destruct H as (Hd & H).
  destruct H as [(-> & Hdb)|(d1 & rows & n & Hq & -> & Hdb)]; simpl.
  - repeat split; trivial. discriminate.
  - exfalso. apply insert_member_tables in Hq.
    destruct Hq as (_ & _ & _ & Hfresh). now apply (Hfresh m).
Qed.

Lemma add_member_registered_email_rejected_witness :
  database (snd (App.add_member "Bob" "ann@example.org" "" true enrolled))
    = database enrolled /\
  shown (snd (App.add_member "Bob" "ann@example.org" "" true enrolled))
    <> Some MemberAdded /\
  (truthy "Bob" = true -> contains "@" "ann@example.org" = true ->
   contains "." "ann@example.org" = true ->
   shown (snd (App.add_member "Bob" "ann@example.org" "" true enrolled))
     = Some AddMemberFailed).
Proof.
  apply (add_member_registered_email_rejected
           "Bob" "ann@example.org" "" enrolled ann).
  - vm_compute. left. reflexivity.
  - reflexivity.
Defined.

(** Add Book reports success only for a title and an author that are not
    empty; it has then appended exactly one book, with at least 1 copy and a
    year from 1900 to 2030 as the form bounds them, and has left the other
    tables alone. *)
Theorem add_book_success (title author : string) (year copies : Z) (w : World) :
  let w' := snd (App.add_book title author year copies true w) in
  shown w' = Some BookAdded ->
  truthy title = true /\ truthy author = true /\
  exists year' copies',
    1900 <= year' <= 2030 /\ (1900 <= year <= 2030 -> year' = year) /\
    1 <= copies' /\ (1 <= copies -> copies' = copies) /\
    books (database w') =
      (books (database w) ++
         [Books.mk (next_BookID (database w)) title author (Some year')
                   copies' None None None])%list /\
    members (database w') = members (database w) /\
    borrowing (database w') = borrowing (database w).
Proof.
  unfold App.add_book.
  destruct (truthy title) eqn:Ht; simpl; [|discriminate].
  destruct (truthy author) eqn:Ha; simpl; [|discriminate].
  unfold bind. exec H1. destruct H1 as (Hd1 & H1).
  assert (database w0 = database w) as Hdb1.
  { destruct H1 as [(_ & ?)|(? & ? & ? & _ & _ & ?)]; assumption. }
  destruct r as [existing|]; simpl; [discriminate|].
  exec H2. destruct H2 as (Hd2 & H2). rewrite Hd1, Hdb1 in H2.
  destruct H2 as [(-> & Hdb2)|(d1 & rows & n & Hq & -> & Hdb2)]; simpl;
    [discriminate|].
  intros _. apply insert_book_tables in Hq.
  destruct Hq as (Hb & Hm & Hr & _). subst d1.
  repeat split; trivial.
  exists (App.number_input 1900 (Some 2030) year),
         (App.number_input 1 None copies).
  unfold App.number_input in *. repeat split; trivial; lia.
Qed.

Lemma add_book_success_witness :
  truthy "1984" = true /\ truthy "Orwell" = true /\
  exists year' copies',
    1900 <= year' <= 2030 /\ (1900 <= 1949 <= 2030 -> year' = 1949) /\
    1 <= copies' /\ (1 <= 4 -> copies' = 4) /\
    books (database stocked) =
      (books (database opening_day) ++
         [Books.mk (next_BookID (database opening_day)) "1984" "Orwell"
                   (Some year') copies' None None None])%list /\
    members (database stocked) = members (database opening_day) /\
    borrowing (database stocked) = borrowing (database opening_day).
Proof.
  apply (add_book_success "1984" "Orwell" 1949 4 opening_day).
  reflexivity.
Defined.

(** While the driver is calm, Add Book for a title and author that a book
    of the table has is rejected: the duplicate is reported and the tables
    are unchanged. *)
Theorem add_book_duplicate_rejected
  (title author : string) (year copies : Z) (w : World) (b : Books.row) :
  calm w = true ->
  In b (books (database w)) ->
  Books.Title b = title -> Books.Author b = author ->
  let w' := snd (App.add_book title author year copies true w) in
  database w' = database w /\
  (truthy title = true -> truthy author = true ->
   shown w' = Some BookExists).
Proof.
  intros Hc Hin Htitle Hauthor. unfold App.add_book.
  destruct (truthy title) eqn:Ht; simpl; [|split; [trivial|discriminate]].
  destruct (truthy author) eqn:Ha; simpl; [|split; [trivial|discriminate]].
  unfold bind.
  destruct (select_calm
              (fun db => filter (fun b => String.eqb (Books.Title b) title
                                          && String.eqb (Books.Author b) author)
                                (books db)) false w Hc)
    as (w1 & Hrun & Hc1 & Hdb1 & Hd1).
  fold (Sql.select_book_by_title_author title author) in Hrun.
  rewrite Hrun. simpl.
  destruct (filter _ (books (database w))) as [|b0 bs] eqn:Hf; simpl.
  - exfalso.
    assert (In b (filter (fun b => String.eqb (Books.Title b) title
                                   && String.eqb (Books.Author b) author)
                         (books (database w)))) as Hb.
    { apply filter_In. split; trivial.
      apply andb_true_iff. split; now apply String.eqb_eq. }
    rewrite Hf in Hb. destruct Hb.
  - split; [exact Hdb1 | reflexivity].
Qed.

Lemma add_book_duplicate_rejected_witness :
  database (snd (App.add_book "1984" "Orwell" 2001 7 true stocked))
    = database stocked /\
  (truthy "1984" = true -> truthy "Orwell" = true ->
   shown (snd (App.add_book "1984" "Orwell" 2001 7 true stocked))
     = Some BookExists).
Proof.
  apply (add_book_duplicate_rejected "1984" "Orwell" 2001 7 stocked book_1984).
  - reflexivity.
  - vm_compute. left. reflexivity.
  - reflexivity.
  - reflexivity.
Defined.

(** ** Queries that are fetched *)

Lemma close_if_connected_database c w :
  database (DatabaseManager.close_if_connected c w) = database w.
Proof.
  unfold DatabaseManager.close_if_connected.
  destruct (truthy c && is_connected c); reflexivity.
Qed.

Lemma rollback_database c w :
  database (snd (Driver.rollback c w)) = database w.
Proof. unfold Driver.rollback. destruct (is_connected c); reflexivity. Qed.

(** A statement that is run with [fetch=True] is never committed, by
    neither [execute_query]: whatever it has written is lost when the
    connection is given back. *)
Theorem fetched_statement_commits_nothing
  {R} (query : Statement R) (fetch_all : bool) (w : World) :
  database (snd (App.execute_query query true fetch_all w)) = database w /\
  database (snd (DatabaseManager.execute_query query true fetch_all w))
  = database w.
Proof.
  split.
  - pose proof (execute_query_cases query true fetch_all w) as H.
    destruct (App.execute_query query true fetch_all w) as [r w']. simpl.
    destruct H as (_ & [(_ & ?)|(? & ? & ? & _ & _ & ?)]); assumption.
  - unfold DatabaseManager.execute_query,
      DatabaseManager.get_connection_context.
    destruct (DatabaseManager.get_connection w) as [[c|e] w1] eqn:Hget;
      apply get_connection_frame in Hget;
      destruct Hget as (Hdb1 & _ & _ & _ & Hconn); [|exact Hdb1].
    rewrite (Hconn c eq_refl).
    destruct (Driver.cursor_execute _ query w1) as [[r c1] w2] eqn:Hx.
    apply cursor_execute_cases in Hx.
    destruct Hx as (Hdb2 & _ & _ & [(e & ->)|(after & rows & n & _ & -> & ->)]).
    + pose proof (rollback_database c1 w2) as Hrb.
      destruct (Driver.rollback c1 w2) as [[[u|e'] c3] w3]; simpl in *;
        rewrite close_if_connected_database; congruence.
    + simpl. congruence.
Qed.

(** ** The two [execute_query] under a calm driver *)

Lemma manager_execute_query_calm
  {R} (query : Statement R) (fetch fetch_all : bool) (w : World) :
  calm w = true ->
  exists w',
    checked_out w' = checked_out w /\
    match query (CURRENT_DATE w) (database w) with
    | Done after rows n =>
        DatabaseManager.execute_query query fetch fetch_all w
          = (Ret (manager_answer fetch fetch_all rows n), w') /\
        database w' = (if fetch then database w else after)
    | Rejected e =>
        DatabaseManager.execute_query query fetch fetch_all w
          = (Raise e, w') /\
        database w' = database w
    end.
Proof.
  intros Hc. destruct (get_connection_calm w Hc)
    as (w1 & Hg & Hc1 & Hdb & Hd & _ & _ & Hout & _).
  destruct (next_fault_calm w1 Hc1)
    as (w2 & Hn & Hc2 & Hdb2 & Hd2 & _ & Hout2 & _).
  unfold DatabaseManager.execute_query, DatabaseManager.get_connection_context.
  rewrite Hg. unfold Driver.cursor_execute. rewrite Hn. simpl.
  rewrite Hd2, Hdb2, Hd, Hdb.
  destruct (query (CURRENT_DATE w) (database w)) as [e|after rows n].
  { eexists. split; [|split; [reflexivity|]]; simpl; [lia|congruence]. }
  destruct fetch.
  { eexists. split; [|split]; [| destruct fetch_all; reflexivity |];
      simpl; [lia|congruence]. }
  destruct (next_fault_calm w2 Hc2)
    as (w3 & Hn3 & Hc3 & Hdb3 & Hd3 & _ & Hout3 & _).
  unfold Driver.commit. rewrite Hn3. simpl.
  eexists. split; [|split; [reflexivity|]]; simpl; [lia|reflexivity].
Qed.

(** When no driver call fails, [DatabaseManager.execute_query] returns all
    rows, the first row or [None], or the affected-row count, as [fetch]
    and [fetch_all] ask; it commits a statement that is not fetched, and it
    raises the error of a statement that the server rejects, with the
    tables unchanged. *)
Theorem manager_execute_query_result
  {R} (query : Statement R) (fetch fetch_all : bool) (w : World) :
  calm w = true ->
  let r := fst (DatabaseManager.execute_query query fetch fetch_all w) in
  let w' := snd (DatabaseManager.execute_query query fetch fetch_all w) in
  match query (CURRENT_DATE w) (database w) with
  | Done after rows n =>
      r = Ret (manager_answer fetch fetch_all rows n) /\
      database w' = (if fetch then database w else after)
  | Rejected e => r = Raise e /\ database w' = database w
  end.
Proof.
  intros Hc.
  destruct (manager_execute_query_calm query fetch fetch_all w Hc)
    as (w' & _ & H).
  destruct (query (CURRENT_DATE w) (database w)); destruct H as (-> & H);
    simpl; auto.
Qed.

Lemma manager_execute_query_result_witness :
  fst (DatabaseManager.execute_query Sql.count_books true false stocked)
    = Ret (Some {| count := Some 1 |}) /\
  database (snd (DatabaseManager.execute_query Sql.count_books true false
                   stocked)) = database stocked.
Proof.
  apply (manager_execute_query_result Sql.count_books true false stocked).
  reflexivity.
Defined.

(** When no driver call fails, [DatabaseManager.execute_query] gives back
    the connection it has taken whether the server accepts the statement or
    rejects it; [execute_query] of app.py gives it back when the statement
    is accepted and keeps it checked out when it is rejected. *)
Theorem connections_out_after_query
  {R} (query : Statement R) (fetch fetch_all : bool) (w : World) :
  calm w = true ->
  checked_out (snd (DatabaseManager.execute_query query fetch fetch_all w))
  = checked_out w /\
  checked_out (snd (App.execute_query query fetch fetch_all w))
  = match query (CURRENT_DATE w) (database w) with
    | Done _ _ _ => checked_out w
    | Rejected _ => S (checked_out w)
    end.
Proof.
  intros Hc. split.
  - destruct (manager_execute_query_calm query fetch fetch_all w Hc)
      as (w' & Hout & H).
    destruct (query (CURRENT_DATE w) (database w)); destruct H as (-> & _);
      exact Hout.
  - destruct (get_connection_calm w Hc)
      as (w1 & Hg & Hc1 & Hdb & Hd & _ & _ & Hout & _).
    destruct (next_fault_calm w1 Hc1)
      as (w2 & Hn & Hc2 & Hdb2 & Hd2 & _ & Hout2 & _).
    unfold App.execute_query, App.get_connection. rewrite Hg. simpl.
    unfold Driver.cursor_execute. rewrite Hn. simpl.
    rewrite Hd2, Hdb2, Hd, Hdb.
    destruct (query (CURRENT_DATE w) (database w)) as [e|after rows n];
      simpl; [lia|].
    destruct fetch; simpl; [lia|].
    destruct (next_fault_calm w2 Hc2)
      as (w3 & Hn3 & Hc3 & Hdb3 & Hd3 & _ & Hout3 & _).
    unfold Driver.commit. rewrite Hn3. simpl. lia.
Qed.

Lemma connections_out_after_query_witness :
  checked_out (snd (DatabaseManager.execute_query
                      (Sql.insert_borrowing 1 1) false true opening_day))
  = 0%nat /\
  checked_out (snd (App.execute_query
                      (Sql.insert_borrowing 1 1) false true opening_day))
  = 1%nat.
Proof.
  apply (connections_out_after_query
           (Sql.insert_borrowing 1 1) false true opening_day).
  reflexivity.
Defined.

(** ** When no connection can be had *)

(** [get_connection] fails only after three attempts none of which gave a
    live connection.  The error is the one the third attempt raised, or the
    generic one when the third attempt handed out an unconnected
    connection.  A delay was slept after each of the first two attempts
    that raised, and none after one that handed out an unconnected
    connection; the unconnected connections are not closed and stay
    checked out. *)
Theorem get_connection_failure (w : World) (e : Error) :
  fst (DatabaseManager.get_connection w) = Raise e ->
  let w' := snd (DatabaseManager.get_connection w) in
  exists a1 a2 a3 rest new,
    attempts w = a1 :: a2 :: a3 :: rest /\
    a1 <> Connected /\ a2 <> Connected /\ a3 <> Connected /\
    attempts w' = rest /\
    e = match a3 with Refused e3 => e3 | _ => UnableToEstablish end /\
    journal w' = (new ++ journal w)%list /\
    ~ In Closed new /\
    sleeps new = firstn (refused_among [a1; a2]) [1; 2] /\
    checked_out w' = (checked_out w + stale_among [a1; a2; a3])%nat.
Proof.
  destruct w as [db today att fl out j sc].
  unfold DatabaseManager.get_connection.
  destruct att as [|[| |e1] [|[| |e2] [|[| |e3] rest]]]; simpl;
    intros He; try discriminate He; inversion He; subst; clear He;
    match goal with
    | |- exists a1 a2 a3 rest new,
           ?x1 :: ?x2 :: ?x3 :: ?r = _ /\ _ =>
        exists x1, x2, x3, r;
        match goal with
        | |- exists new, _ /\ _ /\ _ /\ _ /\ _ /\ _ /\
                         ?l = (new ++ ?j)%list /\ _ =>
            let p := stretch l j in exists p
        end
    end;
    repeat split; try discriminate; try reflexivity;
    try (simpl; intuition discriminate);
    try (unfold stale_among; simpl; lia).
Qed.

Lemma get_connection_failure_witness :
  exists a1 a2 a3 rest new,
    attempts server_down = a1 :: a2 :: a3 :: rest /\
    a1 <> Connected /\ a2 <> Connected /\ a3 <> Connected /\
    attempts (snd (DatabaseManager.get_connection server_down)) = rest /\
    MySQLError 2003
    = match a3 with Refused e3 => e3 | _ => UnableToEstablish end /\
    journal (snd (DatabaseManager.get_connection server_down))
    = (new ++ journal server_down)%list /\
    ~ In Closed new /\
    sleeps new = firstn (refused_among [a1; a2]) [1; 2] /\
    checked_out (snd (DatabaseManager.get_connection server_down))
    = (checked_out server_down + stale_among [a1; a2; a3])%nat.
Proof.
  apply (get_connection_failure server_down (MySQLError 2003)).
  reflexivity.
Defined.

(** ** Batches *)

Lemma cursor_execute_view {R} (query : Statement R) c w r c' w' :
  is_connected c = true ->
  Driver.cursor_execute c query w = (r, c', w') ->
  database w' = database w /\ CURRENT_DATE w' = CURRENT_DATE w /\
  forall rows n, r = Ret (rows, n) ->
    query (CURRENT_DATE w)
          (match uncommitted c with Some d => d | None => database w end)
    = Done (match uncommitted c' with Some d => d | None => database w' end)
           rows n /\
    is_connected c' = true.
Proof.
  intros Hcon. unfold Driver.cursor_execute, Driver.next_fault.
  rewrite Hcon.
  destruct (faults w) as [|[|e alive] fl]; simpl;
    try (destruct (query (CURRENT_DATE w) _) as [e'|after rows0 n0] eqn:Hq);
    intros H; inversion H; subst; simpl;
    (split; [reflexivity|]); (split; [reflexivity|]);
    intros rs m Hr; inversion Hr; subst; auto.
Qed.

Lemma executemany_from_view {P R} (query : P -> Statement R) params_list :
  forall c rowcnt w r c' w',
    is_connected c = true ->
    Driver.executemany_from c query params_list rowcnt w = (r, c', w') ->
    database w' = database w /\ CURRENT_DATE w' = CURRENT_DATE w /\
    forall n, r = Ret n ->
      run_all query params_list (CURRENT_DATE w)
              (match uncommitted c with Some d => d | None => database w end)
      = Some (match uncommitted c' with Some d => d | None => database w' end)
      /\ is_connected c' = true.
Proof.
  induction params_list as [|params rest IH]; simpl;
    intros c rowcnt w r c' w' Hcon H.
  - inversion H; subst. split; [reflexivity|]. split; [reflexivity|].
    intros n _. auto.
  - destruct (Driver.cursor_execute c (query params) w) as [[r1 c1] w1] eqn:Hx.
    apply cursor_execute_view in Hx; trivial.
    destruct Hx as (Hdb1 & Hd1 & Hrun).
    destruct r1 as [[rows n1]|e].
    + destruct (Hrun rows n1 eq_refl) as (Hq & Hcon1).
      apply IH in H; trivial. destruct H as (Hdb & Hd & Hall).
      split; [congruence|]. split; [congruence|].
      intros n Hn. rewrite Hq. rewrite <- Hd1. exact (Hall n Hn).
    + inversion H; subst. split; [trivial|]. split; [trivial|].
      intros; discriminate.
Qed.

Lemma cursor_executemany_view {P R} (query : P -> Statement R) params_list
  c w r c' w' :
  is_connected c = true ->
  Driver.cursor_executemany c query params_list w = (r, c', w') ->
  database w' = database w /\ CURRENT_DATE w' = CURRENT_DATE w /\
  forall n, r = Ret n ->
    run_all query params_list (CURRENT_DATE w)
            (match uncommitted c with Some d => d | None => database w end)
    = Some (match uncommitted c' with Some d => d | None => database w' end)
    /\ is_connected c' = true.
Proof.
  intros Hcon. unfold Driver.cursor_executemany.
  destruct params_list as [|params rest].
  - intros H; inversion H; subst. split; [reflexivity|].
    split; [reflexivity|]. intros n _. auto.
  - now apply executemany_from_view.
Qed.

Lemma commit_view c w r c' w' :
  is_connected c = true ->
  Driver.commit c w = (r, c', w') ->
  (r = Ret tt /\
   database w' = match uncommitted c with Some d => d | None => database w end)
  \/ ((exists e, r = Raise e) /\ database w' = database w).
Proof.
  intros Hcon. unfold Driver.commit, Driver.next_fault. rewrite Hcon.
  destruct (faults w) as [|[|e alive] fl]; simpl;
    intros H; inversion H; subst; simpl; eauto.
Qed.

(** [execute_many] is all or nothing: when it returns, the statement has
    run for every element of the list, in order, and the whole is
    committed; when it raises, nothing is committed, whichever run or call
    failed.  With a calm driver it returns whenever the server accepts
    every run. *)
Theorem execute_many_all_or_nothing
  {P R} (query : P -> Statement R) (params_list : list P) (w : World) :
  let r := fst (DatabaseManager.execute_many query params_list w) in
  let w' := snd (DatabaseManager.execute_many query params_list w) in
  match r with
  | Ret _ =>
      run_all query params_list (CURRENT_DATE w) (database w)
      = Some (database w')
  | Raise _ => database w' = database w
  end /\
  (calm w = true ->
   forall after,
     run_all query params_list (CURRENT_DATE w) (database w) = Some after ->
     exists rowcount, r = Ret rowcount).
Proof.
  assert (forall c2 w2 e,
            database
              (snd (match Driver.rollback c2 w2 with
                    | (Ret _, c3, w3) =>
                        (@Raise Z e,
                         DatabaseManager.close_if_connected c3 w3)
                    | (Raise e', c3, w3) =>
                        (Raise e', DatabaseManager.close_if_connected c3 w3)
                    end)) = database w2) as Hundo.
  { intros c2 w2 e. pose proof (rollback_database c2 w2) as Hrb.
    destruct (Driver.rollback c2 w2) as [[[u|e'] c3] w3]; simpl in *;
      rewrite close_if_connected_database; exact Hrb. }
  assert (forall c2 w2 e,
            exists e', fst (match Driver.rollback c2 w2 with
                    | (Ret _, c3, w3) =>
                        (@Raise Z e,
                         DatabaseManager.close_if_connected c3 w3)
                    | (Raise e', c3, w3) =>
                        (Raise e', DatabaseManager.close_if_connected c3 w3)
                    end) = Raise e') as Hraise.
  { intros c2 w2 e.
    destruct (Driver.rollback c2 w2) as [[[u|e'] c3] w3]; simpl; eauto. }
  split.
  - unfold DatabaseManager.execute_many,
      DatabaseManager.get_connection_context.
    destruct (DatabaseManager.get_connection w) as [[c|e] w1] eqn:Hget;
      apply get_connection_frame in Hget;
      destruct Hget as (Hdb1 & Hd1 & _ & _ & Hconn); [|exact Hdb1].
    rewrite (Hconn c eq_refl).
    destruct (Driver.cursor_executemany _ query params_list w1)
      as [[r1 c1] w2] eqn:Hx.
    apply cursor_executemany_view in Hx; trivial.
    destruct Hx as (Hdb2 & Hd2 & Hall).
    destruct r1 as [n|e].
    + destruct (Hall n eq_refl) as (Hrun & Hcon1). simpl in Hrun.
      destruct (Driver.commit c1 w2) as [[r2 c2] w3] eqn:Hcm.
      apply commit_view in Hcm; trivial.
      destruct Hcm as [(-> & Hdb3)|((e & ->) & Hdb3)].
      * simpl. rewrite close_if_connected_database, Hdb3.
        rewrite <- Hd1, <- Hdb1. exact Hrun.
      * destruct (Hraise c2 w3 e) as (e' & He'). rewrite He'.
        rewrite Hundo. congruence.
    + destruct (Hraise c1 w2 e) as (e' & He'). rewrite He'.
      rewrite Hundo. congruence.
  - intros Hc after Hrun.
    destruct (get_connection_calm w Hc)
      as (w1 & Hg & Hc1 & Hdb1 & Hd1 & _).
    unfold DatabaseManager.execute_many,
      DatabaseManager.get_connection_context.
    rewrite Hg.
    assert (forall ps c rowcnt w2 d,
              calm w2 = true -> is_connected c = true ->
              run_all query ps (CURRENT_DATE w2)
                (match uncommitted c with Some x => x | None => database w2 end)
              = Some d ->
              exists n c' w3,
                Driver.executemany_from c query ps rowcnt w2
                  = (Ret n, c', w3) /\
                calm w3 = true /\ is_connected c' = true) as Hbatch.
    { induction ps as [|p ps IH]; simpl; intros c rowcnt w2 d Hc2 Hcon Hr.
      - eauto 6.
      - destruct (next_fault_calm w2 Hc2)
          as (w3 & Hn & Hc3 & Hdb3 & Hd3 & _).
        unfold Driver.cursor_execute. rewrite Hn, Hcon, Hd3, Hdb3.
        destruct (query p (CURRENT_DATE w2) _) as [e|after1 rows n1];
          [discriminate|].
        apply (IH (mkConnection true (Some after1)) (rowcnt + n1) w3 d);
          trivial.
        simpl. now rewrite Hd3. }
    unfold Driver.cursor_executemany.
    destruct params_list as [|p ps].
    + destruct (next_fault_calm w1 Hc1) as (w2 & Hn & _).
      unfold Driver.commit. rewrite Hn. simpl. eauto.
    + destruct (Hbatch (p :: ps) (mkConnection true None) 0 w1 after)
        as (n & c' & w3 & Hrun3 & Hc3 & Hcon3); trivial.
      { simpl. rewrite Hd1, Hdb1. exact Hrun. }
      rewrite Hrun3.
      destruct (next_fault_calm w3 Hc3) as (w4 & Hn & _).
      unfold Driver.commit. rewrite Hn, Hcon3. simpl. eauto.
Qed.

Lemma execute_many_all_or_nothing_witness :
  exists rowcount,
    fst (DatabaseManager.execute_many
           (fun p => Sql.insert_member (fst p) (snd p) None)
           [("Ann", "ann@example.org"); ("Bob", "bob@example.org")]
           opening_day) = Ret rowcount.
Proof.
  eapply (proj2 (execute_many_all_or_nothing
                   (fun p => Sql.insert_member (fst p) (snd p) None)
                   [("Ann", "ann@example.org"); ("Bob", "bob@example.org")]
                   opening_day)).
  - reflexivity.
  - reflexivity.
Defined.

(** ** The dashboard when queries fail *)

(** Whatever the driver does, each statistic of the dashboard is either
    the value in the tables or 0: a query that fails shows as 0, as an
    empty table does. *)
Theorem dashboard_stat_exact_or_zero (w : World) :
  let stats := fst (App.get_dashboard_stats w) in
  let db := database w in
  (App.total_books stats = Some (Z.of_nat (List.length (books db)))
   \/ App.total_books stats = Some 0) /\
  (App.total_members stats = Some (Z.of_nat (List.length (members db)))
   \/ App.total_members stats = Some 0) /\
  (App.borrowed_books stats
   = Some (Z.of_nat (List.length
             (filter (fun r => match Borrowing.ReturnDate r with
                               | None => true
                               | Some _ => false
                               end)
                     (borrowing db))))
   \/ App.borrowed_books stats = Some 0) /\
  (App.available_copies stats
   = Some (fold_right Z.add 0 (map Books.AvailableCopies (books db)))
   \/ App.available_copies stats = Some 0).
Proof.
  change (fun r => match Borrowing.ReturnDate r with
                   | None => true
                   | Some _ => false
                   end) with Borrowing.is_open.
  change (fold_right Z.add 0) with sum.
  unfold App.get_dashboard_stats, bind.
  pose proof (count_query_cases
    (fun db => [ {| count := Some (Z.of_nat (List.length (books db))) |} ]) w)
    as H1.
  fold Sql.count_books in H1.
  destruct (App.execute_query Sql.count_books true false w) as [r1 w1].
  destruct H1 as (Hdb1 & H1).
  pose proof (count_query_cases
    (fun db => [ {| count := Some (Z.of_nat (List.length (members db))) |} ])
    w1) as H2.
  fold Sql.count_members in H2.
  destruct (App.execute_query Sql.count_members true false w1) as [r2 w2].
  destruct H2 as (Hdb2 & H2).
  pose proof (count_query_cases
    (fun db => [ {| count := Some (Z.of_nat (List.length
                   (filter Borrowing.is_open (borrowing db)))) |} ]) w2)
    as H3.
  fold Sql.count_open_borrowing in H3.
  destruct (App.execute_query Sql.count_open_borrowing true false w2)
    as [r3 w3].
  destruct H3 as (Hdb3 & H3).
  pose proof (count_query_cases
    (fun db => [ {| count := match books db with
                             | [] => None
                             | bs => Some (sum (map Books.AvailableCopies bs))
                             end |} ]) w3) as H4.
  fold Sql.sum_available_copies in H4.
  destruct (App.execute_query Sql.sum_available_copies true false w3)
    as [r4 w4].
  destruct H4 as (Hdb4 & H4).
  rewrite Hdb3, Hdb2, Hdb1 in H4. rewrite Hdb2, Hdb1 in H3.
  rewrite Hdb1 in H2. simpl in *.
  destruct H1 as [->| ->], H2 as [->| ->], H3 as [->| ->], H4 as [->| ->];
    simpl; repeat split; auto;
    destruct (books (database w)); simpl; auto.
Qed.

Lemma dashboard_stat_exact_or_zero_witness :
  (let stats := fst (App.get_dashboard_stats members_query_fails) in
   (App.total_books stats = Some 3 \/ App.total_books stats = Some 0) /\
   (App.total_members stats = Some 1 \/ App.total_members stats = Some 0) /\
   (App.borrowed_books stats = Some 1
    \/ App.borrowed_books stats = Some 0) /\
   (App.available_copies stats = Some (3 + 5 + 7)
    \/ App.available_copies stats = Some 0)) /\
  map Books.AvailableCopies (books (database members_query_fails))
  = [3; 5; 7] /\
  fst (App.get_dashboard_stats members_query_fails) =
  {| App.total_books := Some 3; App.total_members := Some 0;
     App.borrowed_books := Some 1;
     App.available_copies := Some 15 |}.
Proof.
  split; [|split; reflexivity].
  exact (dashboard_stat_exact_or_zero members_query_fails).
Defined.

(** ** One open record per pair, while the driver is calm *)

Lemma one_open_record_while_calm_witness :
  one_open_record_per_pair (database lent).
Proof.
  apply (one_open_record_while_calm (database lent)).
  exact lent_reachable_calmly.
Defined.

(** While the driver is calm, pressing Borrow Book for a member who holds
    an open record of the selected book is rejected as already borrowed,
    and the tables are unchanged. *)
Theorem borrow_again_rejected
  (member_pick book_pick : nat) (w : World) (member_id book_id : Z) :
  reachable (database w) ->
  calm w = true ->
  fst (App.select_member member_pick w) = Some member_id ->
  fst (App.select_book book_pick (snd (App.select_member member_pick w)))
    = Some book_id ->
  open_records member_id book_id (database w) <> [] ->
  let w' := snd (App.borrow_book member_pick book_pick true w) in
  database w' = database w /\ shown w' = Some AlreadyBorrowed.
Proof.
  intros Hr Hc Hm Hb Hopen. unfold App.borrow_book, bind.
  destruct (select_member_calm member_pick w Hc) as (Hc1 & Hdb1 & _).
  destruct (App.select_member member_pick w) as [mid w1]. simpl in *.
  subst mid.
  pose proof (select_book_offer book_pick w1) as Hoffer.
  destruct (select_book_calm book_pick w1 Hc1) as (Hc2 & Hdb2 & _).
  destruct (App.select_book book_pick w1) as [bid w2]. simpl in *.
  subst bid. destruct Hoffer as (_ & _ & Hoffer).
  destruct (Hoffer book_id eq_refl) as (b & Hbin & Hbid & _).
  pose proof (reachable_well_formed _ Hr) as Hwf.
  rewrite Hdb1 in Hbin.
  pose proof (wf_book_next Hwf b Hbin) as Hbpos.
  assert (member_id <> 0) as Hmne.
  { destruct (open_records member_id book_id (database w)) as [|r rs] eqn:Ho;
      [contradiction|].
    assert (In r (open_records member_id book_id (database w))) as Hin
      by (rewrite Ho; now left).
    unfold open_records in Hin. apply filter_In in Hin.
    destruct Hin as (Hin & Hcond).
    apply andb_true_iff in Hcond. destruct Hcond as (Hcond & _).
    apply andb_true_iff in Hcond. destruct Hcond as (Hmid & _).
    apply Z.eqb_eq in Hmid.
    destruct (references_never_dangle_aux _ Hr r Hin) as ((m & Hmin & Hmm) & _).
    pose proof (wf_member_next Hwf m Hmin). lia. }
  change (database (snd (App.on_borrow_book (Some member_id) (Some book_id)
                                             w2)) = database w /\
          shown (snd (App.on_borrow_book (Some member_id) (Some book_id) w2))
          = Some AlreadyBorrowed).
  destruct (on_borrow_book_checked member_id book_id w2 Hc2) as (H & _).
  rewrite Hdb2, Hdb1 in H.
  destruct H as (Hdb & Hs); trivial; [lia|].
  split; assumption.
Qed.

Lemma borrow_again_rejected_witness :
  database (snd (App.borrow_book 0 0 true lent)) = database lent /\
  shown (snd (App.borrow_book 0 0 true lent)) = Some AlreadyBorrowed.
Proof.
  apply (borrow_again_rejected 0 0 lent 1 1).
  - exact lent_reachable.
  - reflexivity.
  - reflexivity.
  - reflexivity.
  - vm_compute. discriminate.
Defined.

(** ** The list of the Return page *)

Lemma select_borrowed_books_complete today db after rows n r :
  referential_integrity db ->
  In r (borrowing db) -> Borrowing.ReturnDate r = None ->
  Sql.select_borrowed_books today db = Done after rows n ->
  In (Borrowing.BorrowID r) (map Sql.BorrowID rows).
Proof.
  intros Href Hin Hopen H. unfold Sql.select_borrowed_books in H.
  inversion H; subst. clear H.
  destruct (Href r Hin) as ((m & Hm & Hmid) & (bk & Hbk & Hbid)).
  apply in_map_iff.
  exists {| Sql.BorrowID := Borrowing.BorrowID r;
            Sql.MemberName := Members.Name m;
            Sql.BookTitle := Books.Title bk;
            Sql.BorrowDate := Borrowing.BorrowDate r;
            Sql.DaysBorrowed := today - Borrowing.BorrowDate r |}.
  split; [reflexivity|].
  apply In_order_by.
  apply in_flat_map. exists r. split; trivial.
  apply in_flat_map. exists m. split; trivial.
  apply in_flat_map. exists bk. split; trivial.
  rewrite Hmid, Hbid, !Z.eqb_refl. unfold Borrowing.is_open. rewrite Hopen.
  simpl. now left.
Qed.

Lemma existsb_is_open (rs : list Borrowing.row) :
  existsb Borrowing.is_open rs = true <->
  exists r, In r rs /\ Borrowing.ReturnDate r = None.
Proof.
  rewrite existsb_exists. unfold Borrowing.is_open.
  split; intros (r & Hin & H); exists r; split; trivial.
  - destruct (Borrowing.ReturnDate r); [discriminate | reflexivity].
  - now rewrite H.
Qed.

(** ** Rows with equal labels *)

Lemma dict_get_fold_last {A V} (label : A -> string) (value : A -> V)
  (rows : list A) (d : list (string * V)) k v :
  dict_get (fold_left (fun d x => dict_set d (label x) (value x)) rows d) k
    = Some v ->
  (exists before x after,
     rows = (before ++ x :: after)%list /\ label x = k /\ value x = v /\
     forall y, In y after -> label y <> k) \/
  (dict_get d k = Some v /\ forall y, In y rows -> label y <> k).
Proof.
  revert d. induction rows as [|y rows IH]; simpl; intros d H.
  - right. split; [exact H | intros ? []].
  - apply IH in H.
    destruct H as [(before & x & after & -> & Hl & Hv & Hafter)|(H & Hrows)].
    + left. exists (y :: before), x, after. auto.
    + rewrite dict_get_set in H.
      destruct (String.eqb_spec (label y) k) as [Heq|Hne].
      * left. exists [], y, rows. repeat split; trivial. congruence.
      * right. split; trivial. intros z [<-|Hz]; auto.
Qed.

(** A selection list is a dict keyed by the labels of its rows: when rows
    have the same label the page acts on the last of them, so that an
    earlier one cannot be chosen. *)
Theorem equal_labels_later_row_wins
  {A} (label : A -> string) (value : A -> Z) (rows : list A)
  (selected : option string) (v : Z) :
  App.chosen (dict_of label value rows) selected = Some v ->
  exists before x after,
    rows = (before ++ x :: after)%list /\
    selected = Some (label x) /\ value x = v /\
    forall y, In y after -> label y <> label x.
Proof.
  unfold App.chosen. destruct selected as [l|]; [|discriminate].
  destruct (truthy l); [|discriminate]. intros H.
  apply dict_get_fold_last in H.
  destruct H as [(before & x & after & -> & Hl & Hv & Hafter)|(H & _)];
    [|discriminate].
  exists before, x, after. subst l. auto.
Qed.

Lemma equal_labels_later_row_wins_witness :
  exists before x after,
    [ {| Sql.BorrowID := 1; Sql.MemberName := "Ann"; Sql.BookTitle := "1984";
         Sql.BorrowDate := 0; Sql.DaysBorrowed := 0 |};
      {| Sql.BorrowID := 2; Sql.MemberName := "Ann"; Sql.BookTitle := "1984";
         Sql.BorrowDate := 0; Sql.DaysBorrowed := 0 |} ]
    = (before ++ x :: after)%list /\
    Some "1984 - Ann (Today)" = Some (App.return_label x) /\
    Sql.BorrowID x = 2 /\
    forall y, In y after -> App.return_label y <> App.return_label x.
Proof.
  apply (equal_labels_later_row_wins App.return_label Sql.BorrowID
           [ {| Sql.BorrowID := 1; Sql.MemberName := "Ann";
                Sql.BookTitle := "1984"; Sql.BorrowDate := 0;
                Sql.DaysBorrowed := 0 |};
             {| Sql.BorrowID := 2; Sql.MemberName := "Ann";
                Sql.BookTitle := "1984"; Sql.BorrowDate := 0;
                Sql.DaysBorrowed := 0 |} ]
           (Some "1984 - Ann (Today)") 2).
  reflexivity.
Defined.

(** ** View Books *)

Lemma filter_partition_length {A} (f g : A -> bool) (l : list A) :
  (forall x, In x l -> f x = negb (g x)) ->
  (List.length (filter f l) + List.length (filter g l))%nat = List.length l.
Proof.
  induction l as [|x l IH]; simpl; intros H; trivial.
  rewrite (H x (or_introl eq_refl)).
  assert ((List.length (filter f l) + List.length (filter g l))%nat
          = List.length l) as Hl by auto.
  destruct (g x); simpl; lia.
Qed.

(** Whatever the driver does and however LIKE compares, the table that
    View Books displays is not empty and holds books of the table only,
    each with the minimum of copies asked for; its two counts, of the
    books available and of those out of stock, add up to the number of
    books displayed, as no book has a negative number of copies. *)
Theorem view_books_summary_adds_up
  (LIKE : string -> string -> bool) (search_term : string) (entered : Z)
  (w : World) (df : list Books.row) (available_books out_of_stock : nat) :
  reachable (database w) ->
  fst (view_books LIKE search_term entered w)
    = BooksTable df available_books out_of_stock ->
  df <> [] /\
  (forall b, In b df ->
     In b (books (database w)) /\
     (0 < entered -> entered <= Books.AvailableCopies b)) /\
  (available_books + out_of_stock)%nat = List.length df /\
  database (snd (view_books LIKE search_term entered w)) = database w.
Proof.
  intros Hr. apply reachable_well_formed in Hr.
  unfold view_books, bind.
  exec H. destruct H as (_ & H).
  assert (database w0 = database w) as Hdb.
  { destruct H as [(_ & ?)|(? & ? & ? & _ & _ & ?)]; assumption. }
  destruct r as [[|b0 rows]|]; simpl; try discriminate.
  intros Hview. inversion Hview; subst df available_books out_of_stock.
  clear Hview.
  destruct H as [(? & _)|(after & rows' & n & Hq & Hrows & _)];
    [discriminate|].
  unfold select_books, select in Hq. inversion Hq; subst after rows' n.
  clear Hq. inversion Hrows as [Hrows']. clear Hrows.
  assert (forall b, In b (b0 :: rows) ->
            In b (books (database w)) /\
            (0 < entered -> entered <= Books.AvailableCopies b)) as Hin.
  { intros b Hb. rewrite Hrows' in Hb.
    apply In_order_by, filter_In in Hb. destruct Hb as (Hb & Hcond).
    split; trivial. intros Hpos.
    apply andb_true_iff in Hcond. destruct Hcond as (_ & Hmin).
    unfold App.number_input in Hmin.
    replace (Z.max 0 entered) with entered in Hmin by lia.
    destruct (Z.ltb_spec 0 entered); [|lia]. now apply Z.leb_le. }
  split; [discriminate|]. split; [exact Hin|]. split; [|exact Hdb].
  apply (filter_partition_length
           (fun b => 0 <? Books.AvailableCopies b)
           (fun b => Books.AvailableCopies b =? 0) (b0 :: rows)).
  intros b Hb. destruct (Hin b Hb) as (Hb' & _).
  pose proof (wf_copies Hr b Hb').
  destruct (Z.ltb_spec 0 (Books.AvailableCopies b)),
           (Z.eqb_spec (Books.AvailableCopies b) 0); simpl; trivial; lia.
Qed.

Lemma view_books_summary_adds_up_witness :
  [dune_out] <> [] /\
  (forall b, In b [dune_out] ->
     In b (books (database last_copy_out)) /\
     (0 < 0 -> 0 <= Books.AvailableCopies b)) /\
  (0 + 1)%nat = List.length [dune_out] /\
  database (snd (view_books (fun _ _ => false) "" 0 last_copy_out))
  = database last_copy_out.
Proof.
  apply (view_books_summary_adds_up (fun _ _ => false) "" 0 last_copy_out
           [dune_out] 0%nat 1%nat).
  - unfold last_copy_out. repeat apply reachable_step. apply reachable_empty.
  - reflexivity.
Defined.

(** ** Returning a record that is returned already *)

(** C10.  Pressing Return Book on a record whose ReturnDate is already set
    still reports success, overwrites the ReturnDate with the current date
    and adds 1 to the AvailableCopies of the book once more: the update is
    not restricted to open records. *)
Theorem return_of_returned_record_repeats
  (w : World) (r : Borrowing.row) (d : Date) :
  reachable (database w) ->
  calm w = true ->
  In r (borrowing (database w)) ->
  Borrowing.ReturnDate r = Some d ->
  (forall b, In b (books (database w)) ->
             Books.BookID b = Borrowing.BookID r ->
             Books.AvailableCopies b < INT_MAX) ->
  let w' := snd (App.on_return_book (Some (Borrowing.BorrowID r)) w) in
  shown w' = Some BookReturned /\
  In (Borrowing.mk (Borrowing.BorrowID r) (Borrowing.MemberID r)
                   (Borrowing.BookID r) (Borrowing.BorrowDate r)
                   (Borrowing.DueDate r) (Some (CURRENT_DATE w)))
     (borrowing (database w')) /\
  (forall r', In r' (borrowing (database w')) ->
              Borrowing.BorrowID r' = Borrowing.BorrowID r ->
              Borrowing.ReturnDate r' = Some (CURRENT_DATE w)) /\
  (exists b b',
     In b (books (database w)) /\ In b' (books (database w')) /\
     Books.BookID b = Borrowing.BookID r /\
     Books.BookID b' = Borrowing.BookID r /\
     Books.AvailableCopies b' = Books.AvailableCopies b + 1) /\
  (forall b b',
     In b (books (database w)) -> In b' (books (database w')) ->
     Books.BookID b = Borrowing.BookID r ->
     Books.BookID b' = Borrowing.BookID r ->
     Books.AvailableCopies b' = Books.AvailableCopies b + 1) /\
  books (database w')
  = map (Sql.add_copies 1 (Borrowing.BookID r)) (books (database w)).
Proof.
  intros Hr Hc Hin Hret Hroom w'.
  pose proof (references_never_dangle_aux _ Hr r Hin) as (_ & b & Hb & Hbid).
  apply reachable_well_formed in Hr.
  pose proof (wf_borrow_next Hr r Hin) as Hid.
  assert (Driver.fetchone
            (filter (fun x => Borrowing.BorrowID x =? Borrowing.BorrowID r)
                    (borrowing (database w))) = Some r) as Hinfo.
  { rewrite (filter_unique Borrowing.BorrowID); trivial.
    apply (wf_borrow_ids Hr). }
  destruct (Sql.update_return_date (Borrowing.BorrowID r) (CURRENT_DATE w)
                                   (database w)) as [e|d1 rows n] eqn:Hq1;
    [discriminate|].
  destruct (Sql.increment_available_copies (Borrowing.BookID r)
                                           (CURRENT_DATE w) d1)
    as [e|d2 rows' n'] eqn:Hq2.
  { apply update_return_date_books in Hq1. destruct Hq1 as (Hb1 & _).
    unfold Sql.increment_available_copies, Sql.update_available_copies in Hq2.
    rewrite Hb1 in Hq2.
    assert (forallb (fun x => is_INT (Books.AvailableCopies x + 1))
              (filter (fun x => Books.BookID x =? Borrowing.BookID r)
                      (books (database w))) = true) as Hint.
    { apply forallb_forall. intros x Hx. apply filter_In in Hx.
      destruct Hx as (Hx & Hxid). apply Z.eqb_eq in Hxid.
      pose proof (Hroom x Hx Hxid). apply (wf_copies Hr) in Hx.
      unfold is_INT, INT_MIN, INT_MAX in *.
      apply andb_true_iff. split; apply Z.leb_le; lia. }
    rewrite Hint in Hq2. discriminate. }
  destruct (on_return_book_calm (Borrowing.BorrowID r) w r d1 rows n d2 rows' n')
    as (w2 & Hrun & _ & _ & Hdb & Hs); trivial; try lia.
  unfold w'. rewrite Hrun. simpl.
  apply update_return_date_books in Hq1. destruct Hq1 as (Hb1 & Hr1).
  apply update_available_copies_books in Hq2. destruct Hq2 as (Hb2 & Hr2).
  assert (books (database w2)
          = map (Sql.add_copies 1 (Borrowing.BookID r)) (books (database w)))
    as Hbooks by congruence.
  assert (borrowing (database w2)
          = map (Sql.set_returned (CURRENT_DATE w) (Borrowing.BorrowID r))
                (borrowing (database w))) as Hrecords by congruence.
  assert (forall x x',
            In x (books (database w)) -> In x' (books (database w2)) ->
            Books.BookID x = Borrowing.BookID r ->
            Books.BookID x' = Borrowing.BookID r ->
            Books.AvailableCopies x' = Books.AvailableCopies x + 1) as Hall.
  { intros x x' Hx Hx' Hxid Hxid'. rewrite Hbooks in Hx'.
    apply in_map_iff in Hx'. destruct Hx' as (x0 & <- & Hx0).
    unfold Sql.add_copies in *.
    destruct (Z.eqb_spec (Books.BookID x0) (Borrowing.BookID r)) as [Heq|Hne];
      simpl in *; [|contradiction].
    assert (x0 = x) as ->; [|reflexivity].
    apply (NoDup_map_inj Books.BookID (books (database w))); trivial;
      [apply (wf_book_ids Hr) | congruence]. }
  assert (In (Sql.add_copies 1 (Borrowing.BookID r) b) (books (database w2)))
    as Hb' by (rewrite Hbooks; now apply in_map).
  assert (Books.BookID (Sql.add_copies 1 (Borrowing.BookID r) b)
          = Borrowing.BookID r) as Hbid'.
  { unfold Sql.add_copies. rewrite Hbid, Z.eqb_refl. reflexivity. }
  split; [exact Hs|].
  split.
  { rewrite Hrecords. apply in_map_iff. exists r. split; trivial.
    unfold Sql.set_returned. now rewrite Z.eqb_refl. }
  split.
  { intros r' Hr' Hrid. rewrite Hrecords in Hr'.
    apply in_map_iff in Hr'. destruct Hr' as (r0 & <- & Hr0).
    unfold Sql.set_returned in *.
    destruct (Z.eqb_spec (Borrowing.BorrowID r0) (Borrowing.BorrowID r))
      as [Heq|Hne]; simpl in *; [reflexivity | contradiction]. }
  split.
  { exists b, (Sql.add_copies 1 (Borrowing.BookID r) b).
    repeat split; trivial. now apply Hall. }
  split; [exact Hall | exact Hbooks].
Qed.

Lemma return_of_returned_record_repeats_witness :
  (let w' := snd (App.on_return_book (Some 1) a_week_later) in
   shown w' = Some BookReturned /\
   In (Borrowing.mk 1 1 1 0 None (Some 7)) (borrowing (database w')) /\
   (forall r', In r' (borrowing (database w')) ->
               Borrowing.BorrowID r' = 1 ->
               Borrowing.ReturnDate r' = Some 7) /\
   (exists b b',
      In b (books (database a_week_later)) /\ In b' (books (database w')) /\
      Books.BookID b = 1 /\ Books.BookID b' = 1 /\
      Books.AvailableCopies b' = Books.AvailableCopies b + 1) /\
   (forall b b',
      In b (books (database a_week_later)) -> In b' (books (database w')) ->
      Books.BookID b = 1 -> Books.BookID b' = 1 ->
      Books.AvailableCopies b' = Books.AvailableCopies b + 1) /\
   books (database w')
   = map (Sql.add_copies 1 1) (books (database a_week_later))) /\
  borrowing (database a_week_later) = [Borrowing.mk 1 1 1 0 None (Some 0)] /\
  books (database a_week_later)
  = [Books.mk 1 "1984" "Orwell" (Some 1949) 4 None None None] /\
  borrowing (database (snd (App.on_return_book (Some 1) a_week_later)))
  = [Borrowing.mk 1 1 1 0 None (Some 7)] /\
  books (database (snd (App.on_return_book (Some 1) a_week_later)))
  = [Books.mk 1 "1984" "Orwell" (Some 1949) 5 None None None].
Proof.
  split; [|repeat split; reflexivity].
  apply (return_of_returned_record_repeats
           a_week_later (Borrowing.mk 1 1 1 0 None (Some 0)) 0);
    try reflexivity.
  - change (reachable (database brought_back)).
    unfold brought_back, lent, enrolled, stocked.
    repeat apply reachable_step. apply reachable_empty.
  - vm_compute. left. reflexivity.
  - intros b Hin _. vm_compute in Hin. destruct Hin as [<-|[]].
    vm_compute. reflexivity.
Defined.

(** ** What the Return page offers *)

Lemma dict_get_In_keys {V} (d : list (string * V)) k :
  In k (keys d) <-> exists v, dict_get d k = Some v.
Proof.
  unfold keys. induction d as [|[k0 v0] d IH]; simpl.
  - split; [intros [] | intros (v & H); discriminate].
  - destruct (String.eqb_spec k0 k) as [->|Hne].
    + split; [intros _; now exists v0 | intros _; now left].
    + rewrite <- IH. split; [intros [H|H]; [contradiction | exact H] | auto].
Qed.

Lemma dict_get_fold_other {A V} (label : A -> string) (value : A -> V)
  (rows : list A) (d : list (string * V)) k :
  (forall y, In y rows -> label y <> k) ->
  dict_get (fold_left (fun d x => dict_set d (label x) (value x)) rows d) k
  = dict_get d k.
Proof.
  revert d. induction rows as [|y rows IH]; simpl; intros d H; trivial.
  rewrite IH by auto. rewrite dict_get_set.
  destruct (String.eqb_spec (label y) k) as [Heq|_]; trivial.
  exfalso. apply (H y); auto.
Qed.

(** The row of a label that no later row has is the one the dict holds. *)
Lemma dict_get_dict_of_last {A V} (label : A -> string) (value : A -> V)
  (before after : list A) (x : A) :
  (forall y, In y after -> label y <> label x) ->
  dict_get (dict_of label value (before ++ x :: after)%list) (label x)
  = Some (value x).
Proof.
  intros H. unfold dict_of. rewrite fold_left_app. simpl.
  rewrite dict_get_fold_other by exact H.
  rewrite dict_get_set, String.eqb_refl. reflexivity.
Qed.

Lemma dict_get_fold_some {A V} (label : A -> string) (value : A -> V)
  (rows : list A) (d : list (string * V)) k :
  In k (map label rows) \/ (exists v, dict_get d k = Some v) ->
  exists v,
    dict_get (fold_left (fun d x => dict_set d (label x) (value x)) rows d) k
    = Some v.
Proof.
  revert d. induction rows as [|y rows IH]; simpl; intros d H.
  - destruct H as [[]|H]. exact H.
  - apply IH. rewrite dict_get_set.
    destruct (String.eqb_spec (label y) k) as [Heq|Hne].
    + right. now exists (value y).
    + destruct H as [[H|H]|H]; [contradiction | now left | now right].
Qed.

(** Every label of the rows is a key of the dict. *)
Lemma label_In_keys {A V} (label : A -> string) (value : A -> V)
  (rows : list A) (x : A) :
  In x rows -> In (label x) (keys (dict_of label value rows)).
Proof.
  intros H. apply dict_get_In_keys. apply dict_get_fold_some.
  left. now apply in_map.
Qed.

Lemma return_label_truthy (book : Sql.BorrowedRow) :
  truthy (App.return_label book) = true.
Proof.
  unfold App.return_label. destruct (Sql.BookTitle book); reflexivity.
Qed.

(** The press of the Return Book button, once the list is read. *)
Lemma return_book_pressed pick w rows w1 :
  App.execute_query Sql.select_borrowed_books true true w
    = (answer true true rows, w1) ->
  rows <> [] ->
  App.return_book pick true w
  = App.on_return_book
      (App.chosen (dict_of App.return_label Sql.BorrowID rows)
         (App.selectbox (keys (dict_of App.return_label Sql.BorrowID rows))
                        pick)) w1.
Proof.
  intros Hrun Hne. unfold App.return_book, bind. rewrite Hrun.
  destruct rows as [|row rows]; [contradiction | reflexivity].
Qed.

(** What is chosen under a key of the options is the BorrowID of a row. *)
Lemma chosen_key (rows : list Sql.BorrowedRow) label :
  In label (keys (dict_of App.return_label Sql.BorrowID rows)) ->
  exists row,
    In row rows /\
    App.chosen (dict_of App.return_label Sql.BorrowID rows) (Some label)
    = Some (Sql.BorrowID row).
Proof.
  intros Hkey. apply dict_get_In_keys in Hkey. destruct Hkey as (id & Hget).
  pose proof Hget as Hlast. apply dict_get_fold_last in Hlast.
  destruct Hlast as [(before & x & after & -> & Hl & Hv & _)|(Hnone & _)];
    [|discriminate].
  exists x. split; [apply in_or_app; right; now left|].
  unfold App.chosen. rewrite <- Hl at 1. rewrite return_label_truthy.
  rewrite Hv. exact Hget.
Qed.

(** While the driver is calm, the rows the Return page reads are the open
    records of the table, none left out for want of its member or its
    book.  Every press of the button acts on one of them, whatever is
    picked; a row whose label no later row of the list has can be picked
    and is then the one returned.  The page says that no books are
    borrowed exactly when no record is open. *)
Theorem return_page_offers_open_records (w : World) :
  reachable (database w) ->
  calm w = true ->
  let w1 := snd (App.execute_query Sql.select_borrowed_books true true w) in
  exists rows,
    fst (App.execute_query Sql.select_borrowed_books true true w)
      = Some rows /\
    (forall id,
       In id (map Sql.BorrowID rows) <->
       exists r, In r (borrowing (database w))
                 /\ Borrowing.ReturnDate r = None
                 /\ Borrowing.BorrowID r = id) /\
    (forall pick, rows <> [] ->
       exists row,
         In row rows /\
         App.return_book pick true w
         = App.on_return_book (Some (Sql.BorrowID row)) w1) /\
    (forall before row after,
       rows = (before ++ row :: after)%list ->
       (forall y, In y after -> App.return_label y <> App.return_label row) ->
       exists pick,
         App.return_book pick true w
         = App.on_return_book (Some (Sql.BorrowID row)) w1) /\
    (forall pick,
       screen (snd (App.return_book pick false w))
       = if existsb (fun r => match Borrowing.ReturnDate r with
                              | None => true
                              | Some _ => false
                              end) (borrowing (database w))
         then screen w
         else NothingBorrowed :: screen w).
Proof.
  intros Hr Hc.
  pose proof (references_never_dangle_aux _ Hr) as Href.
  destruct (execute_query_calm Sql.select_borrowed_books true true w Hc)
    as (w' & _ & _ & H).
  destruct (Sql.select_borrowed_books (CURRENT_DATE w) (database w))
    as [e|after rows n] eqn:Hq; [discriminate Hq|].
  destruct H as (Hrun & _ & Hscreen).
  rewrite Hrun. cbv zeta. simpl fst. simpl snd.
  assert (forall id,
            In id (map Sql.BorrowID rows) <->
            exists r, In r (borrowing (database w))
                      /\ Borrowing.ReturnDate r = None
                      /\ Borrowing.BorrowID r = id) as Hlist.
  { intros id. split.
    - intros Hin. apply in_map_iff in Hin. destruct Hin as (row & <- & Hin).
      destruct (select_borrowed_books_open _ _ _ _ _ _ Hq Hin)
        as (_ & r & H1 & H2 & H3).
      exists r. auto.
    - intros (r & H1 & H2 & <-).
      eapply select_borrowed_books_complete; eauto. }
  exists rows. split; [reflexivity|]. split; [exact Hlist|].
  split; [|split].
  - intros pick Hne.
    rewrite (return_book_pressed pick w rows w' Hrun Hne).
    assert (exists label,
              App.selectbox
                (keys (dict_of App.return_label Sql.BorrowID rows)) pick
              = Some label
              /\ In label (keys (dict_of App.return_label Sql.BorrowID rows)))
      as (label & Hsel & Hkey).
    { unfold App.selectbox.
      destruct (nth_error _ pick) as [o|] eqn:Hn.
      - exists o. split; trivial. eapply nth_error_In; eauto.
      - destruct rows as [|row rest]; [now contradiction Hne|].
        pose proof (label_In_keys App.return_label Sql.BorrowID
                      (row :: rest) row (or_introl eq_refl)) as Hin.
        destruct (keys (dict_of App.return_label Sql.BorrowID (row :: rest)))
          as [|k ks]; [destruct Hin|].
        exists k. split; [reflexivity | now left]. }
    rewrite Hsel. destruct (chosen_key rows label Hkey) as (row & Hin & ->).
    exists row. split; trivial.
  - intros before row after0 Hrows Hlater.
    assert (rows <> []) as Hne by (rewrite Hrows; now destruct before).
    assert (In row rows) as Hin
      by (rewrite Hrows; apply in_or_app; right; now left).
    pose proof (label_In_keys App.return_label Sql.BorrowID rows row Hin)
      as Hkey.
    destruct (In_nth_error _ _ Hkey) as (pick & Hpick).
    exists pick.
    rewrite (return_book_pressed pick w rows w' Hrun Hne).
    unfold App.selectbox. rewrite Hpick.
    unfold App.chosen. rewrite return_label_truthy.
    rewrite Hrows at 1. rewrite dict_get_dict_of_last by exact Hlater.
    reflexivity.
  - intros pick.
    change (fun r => match Borrowing.ReturnDate r with
                     | None => true
                     | Some _ => false
                     end) with Borrowing.is_open.
    unfold App.return_book, bind. rewrite Hrun. simpl.
    destruct rows as [|row rows]; simpl.
    + destruct (existsb Borrowing.is_open (borrowing (database w))) eqn:He.
      * apply existsb_is_open in He. destruct He as (r & H1 & H2).
        destruct (proj2 (Hlist (Borrowing.BorrowID r))) as [].
        exists r. auto.
      * now rewrite Hscreen.
    + destruct (existsb Borrowing.is_open (borrowing (database w))) eqn:He;
        [exact Hscreen|].
      destruct (proj1 (Hlist (Sql.BorrowID row))) as (r & H1 & H2 & _);
        [now left|].
      assert (existsb Borrowing.is_open (borrowing (database w)) = true)
        as He' by (apply existsb_is_open; exists r; auto).
      congruence.
Qed.

Lemma return_page_offers_open_records_witness :
  (let w1 :=
     snd (App.execute_query Sql.select_borrowed_books true true lent) in
   exists rows,
     fst (App.execute_query Sql.select_borrowed_books true true lent)
       = Some rows /\
     (forall id,
        In id (map Sql.BorrowID rows) <->
        exists r, In r (borrowing (database lent))
                  /\ Borrowing.ReturnDate r = None
                  /\ Borrowing.BorrowID r = id) /\
     (forall pick, rows <> [] ->
        exists row,
          In row rows /\
          App.return_book pick true lent
          = App.on_return_book (Some (Sql.BorrowID row)) w1) /\
     (forall before row after,
        rows = (before ++ row :: after)%list ->
        (forall y, In y after ->
                   App.return_label y <> App.return_label row) ->
        exists pick,
          App.return_book pick true lent
          = App.on_return_book (Some (Sql.BorrowID row)) w1) /\
     (forall pick,
        screen (snd (App.return_book pick false lent))
        = if existsb (fun r => match Borrowing.ReturnDate r with
                               | None => true
                               | Some _ => false
                               end) (borrowing (database lent))
          then screen lent
          else NothingBorrowed :: screen lent)) /\
  fst (App.execute_query Sql.select_borrowed_books true true lent)
  = Some [ {| Sql.BorrowID := 1; Sql.MemberName := "Ann";
              Sql.BookTitle := "1984"; Sql.BorrowDate := 0;
              Sql.DaysBorrowed := 0 |} ] /\
  database (snd (App.return_book 0 true lent)) = database brought_back.
Proof.
  split; [|split; vm_compute; reflexivity].
  apply (return_page_offers_open_records lent).
  - exact lent_reachable.
  - reflexivity.
Defined.
